(** * devblogging: the Express server of [src/index.js]

    A shallow embedding of the blog API: the bearer-token middleware, the
    multer upload filter, the signup and login handlers and the create,
    read, update and delete handlers of blog posts, over an explicit model
    of the two MongoDB collections and of the calls made to Cloudinary.

    The npm packages the server calls (bcryptjs, jsonwebtoken, multer,
    mongoose, express) are not part of the repository.  What the model does
    not open is taken as a parameter ([Library]): the bcrypt digest, the
    signature and the serialisation of a token, and what Mongoose makes of
    a value that is not a string where the schema has a String or an
    ObjectId.  The rest of their behaviour is written out next to the
    definition that stands for it, as their current releases have it:
    Mongoose drops an [undefined] value from an update and casts only 24
    hexadecimal digits to an ObjectId, jsonwebtoken checks the claims [nbf]
    and [exp] of a token that carries them, bcryptjs refuses an argument
    that is not a string, and an error passed to [next] with no handler
    installed is answered 500 by Express.  Database and network faults
    other than a failed upload are not modelled, and requests are served one
    after the other. *)

From Stdlib Require Import ZArith QArith String Ascii List Bool Lia DecimalString.
From Stdlib Require Import Permutation Sorted.
Import ListNotations.

Local Open Scope string_scope.
Local Open Scope Z_scope.

(** ** JavaScript strings *)

(** [s.split(" ")]: the pieces between single space characters.  The result
    is never empty, and two adjacent spaces give an empty piece. *)
Fixpoint split (sep : ascii) (s : string) : list string :=
  match s with
  | EmptyString => [EmptyString]
  | String c r =>
      if Ascii.eqb c sep then EmptyString :: split sep r
      else match split sep r with
           | [] => [String c EmptyString]
           | p :: ps => String c p :: ps
           end
  end.

(** [s.startsWith(p)]. *)
Definition startsWith (s p : string) : bool := String.prefix p s.

(** Truthiness of a value that is a string or [undefined]/[null]. *)
Definition truthy (v : option string) : bool :=
  match v with
  | Some s => negb (String.eqb s "")
  | None => false
  end.

(** [a || b] on such values. *)
Definition js_or (a b : option string) : option string :=
  if truthy a then a else b.

(** Property lookup in an object, given as its own properties; [None] is
    [undefined]. *)
Fixpoint prop {A} (o : list (string * A)) (k : string) : option A :=
  match o with
  | [] => None
  | (k', v) :: r => if String.eqb k' k then Some v else prop r k
  end.

(** Decimal rendering of an integer, as in a template literal. *)
Definition dec (z : Z) : string := NilZero.string_of_int (Z.to_int z).

(** ** JavaScript values *)

(** A value as the body parsers and [JSON.parse] produce it.  A number is
    kept as the rational it denotes.  [undefined] is not one of them: a
    value that can be undefined is an [option Value]. *)
#[warnings="-register-all"]
Inductive Value :=
| VString (s : string)
| VNumber (q : Q)
| VBool (b : bool)
| VNull
| VArray (items : list Value)
| VObject (members : list (string * Value)).

(** An object, as its own properties.  The code reads from such objects
    only the properties [username], [email], [password], [title],
    [subtitle], [content], [id], [nbf] and [exp], which no array and no
    string has: an array or a string in the place of an object is
    represented as the object with no property. *)
Definition Object : Type := list (string * Value).

(** A property of an object that can itself be undefined, where the read
    does not throw. *)
Definition field (o : option Object) (k : string) : option Value :=
  match o with
  | Some o => prop o k
  | None => None
  end.

(** [a !== b] negated, for a string [a]: [a === b]. *)
Definition strictEq (a : string) (b : option Value) : bool :=
  match b with
  | Some (VString s) => String.eqb a s
  | _ => false
  end.

(** ** Object identifiers *)

(** An ObjectId is kept as its canonical rendering, 24 lower-case
    hexadecimal digits, which is what [toString()] and JSON serialisation
    produce. *)
Record ObjectId := mkObjectId { toString : string }.

Definition isHex (c : ascii) : bool :=
  let n := N_of_ascii c in
  ((48 <=? n) && (n <=? 57) || (97 <=? n) && (n <=? 102)
   || (65 <=? n) && (n <=? 70))%N.

Definition lowerAscii (c : ascii) : ascii :=
  let n := N_of_ascii c in
  if ((65 <=? n) && (n <=? 90))%N then ascii_of_N (n + 32) else c.

Fixpoint toLowerCase (s : string) : string :=
  match s with
  | EmptyString => EmptyString
  | String c r => String (lowerAscii c) (toLowerCase r)
  end.

(** Mongoose's cast of a string to an ObjectId (bson 5 and later): the
    string must be 24 hexadecimal digits, in either case; anything else is a
    CastError. *)
Definition castObjectId (s : string) : option ObjectId :=
  if (Nat.eqb (String.length s) 24
      && forallb isHex (list_ascii_of_string s))%bool
  then Some (mkObjectId (toLowerCase s))
  else None.

Definition ObjectId_eqb (a b : ObjectId) : bool :=
  String.eqb (toString a) (toString b).

(** ** Schemas *)

Module User.
(** [UserSchema], with the two fields added by [timestamps: true].  The
    three String paths are required and never updated, so a stored user has
    a string in each. *)
Record t := mk {
  _id : ObjectId;
  username : string;
  email : string;
  password : string;
  createdAt : Z;
  updatedAt : Z
}.
End User.

Module BlogPost.
(** [BlogPostSchema].  A String path of a stored post holds a string or
    none ([None]): [subtitle] and [imageUrl] are not required, and an
    update, which runs no validator, can store [null] in any of the four. *)
Record t := mk {
  _id : ObjectId;
  title : option string;
  subtitle : option string;
  content : option string;
  imageUrl : option string;
  author : ObjectId;
  createdAt : Z;
  updatedAt : Z
}.
End BlogPost.

(** The two collections, in insertion order. *)
Record Store := mkStore {
  users : list User.t;
  posts : list BlogPost.t
}.

(** ** Tokens *)

(** The number of seconds of [expiresIn: "24h"]. *)
Definition expiresIn : Z := 24 * 60 * 60.

Module Jwt.
(** The payload of a token, as the properties [jwt.verify] and the handlers
    can read from it. *)
Definition Payload : Type := Object.

(** The payload of the tokens this server signs: the two claims given to
    [jwt.sign] and the two that [expiresIn] adds, in seconds. *)
Definition mkPayload (id username : string) (iat exp : Z) : Payload :=
  [("id", VString id); ("username", VString username);
   ("iat", VNumber (inject_Z iat)); ("exp", VNumber (inject_Z exp))].

(** [payload.id], [payload.nbf] and [payload.exp]. *)
Definition id (p : Payload) : option Value := prop p "id".
Definition nbf (p : Payload) : option Value := prop p "nbf".
Definition exp (p : Payload) : option Value := prop p "exp".

(** A token taken apart: the text that is signed (the encoded header and
    payload), the payload that text decodes to, and the signature. *)
Record Token := mkToken {
  signed : string;
  payload : Payload;
  signature : string
}.

Inductive Error := JsonWebTokenError | NotBeforeError | TokenExpiredError.
End Jwt.

(** ** Mongoose's casts *)

(** The outcome of casting a value to a String path: a CastError, or the
    value to store, a string or [null] ([None]). *)
Inductive Cast :=
| CastError
| Casted (v : option string).

(** Where a value is cast: in a document that is saved, or in an update. *)
Inductive Setting := OfDocument | OfUpdate.

(** ** Library primitives *)

(** What the model does not open.

    - The bcrypt digest and its check.
    - Of a token: the text that is signed for a payload, its HMAC under a
      secret, and the compact serialisation.  [jwt_decode] answers [None]
      on a string that [jwt.verify] refuses before it looks at the
      signature (not three parts, not JSON, an algorithm that is not an
      HMAC).
    - The one point where releases of multer's parser differ: whether a
      file of exactly [limits.fileSize] bytes trips the size limit (busboy 1
      says it does, busboy 0.2 that it does not).
    - What Mongoose does with a value that is not a string: its cast to a
      String path, the documents a filter clause on a String path selects
      ([None]: the query throws), its cast to an ObjectId path of a
      document ([None]: an error or [null]), and the documents a lookup by
      [_id] selects ([None]: the query throws).  A filter value can be an
      object of query operators, such as [{ $ne: null }]. *)
Record Library := mkLibrary {
  bcrypt_hash : string -> Z -> string -> string;
  bcrypt_compare : string -> string -> bool;
  jws_input : Jwt.Payload -> string;
  hmac : string -> string -> string;
  jwt_encode : Jwt.Token -> string;
  jwt_decode : string -> option Jwt.Token;
  limit_at_fileSize : bool;
  mongoose_castString : Setting -> Value -> Cast;
  mongoose_queryString : Value -> option (string -> bool);
  mongoose_castObjectId : Value -> option ObjectId;
  mongoose_queryObjectId : option Value -> option (ObjectId -> bool)
}.

(** ** Uploads *)

(** A Node [Buffer]: its length in bytes and its content read as one
    little-endian number. *)
Record Buffer := mkBuffer {
  byteLength : Z;
  bytes : Z
}.

(** The part of a multipart body sent under a form field. *)
Record File := mkFile {
  mimetype : string;
  buffer : Buffer
}.

(** The options handed to [cloudinary.uploader.upload_stream]. *)
Record UploadOptions := mkUploadOptions {
  resource_type : string;
  folder : string;
  format : string;
  public_id : string
}.

(** A call to the storage provider: what was sent, and what came back, an
    error or the [secure_url] of the stored image. *)
Inductive Event :=
| CloudinaryUpload (opts : UploadOptions) (buf : Buffer) (result : string + string).

(** ** The environment of a request *)

(** Everything a handler reads from outside: configuration, the clock, the
    random sources and the answer of the storage provider. *)
Record Env := mkEnv {
  JWT_SECRET : option string;
  Date_now : Z;
  Math_random_1E9 : Z;
  genSalt : string;
  new_ObjectId : ObjectId;
  upload_stream : UploadOptions -> Buffer -> string + string
}.

(** ** Requests and responses *)

(** A multipart form body: its text fields and the file part sent under the
    form field [image]; it carries no other file part. *)
Record Form := mkForm {
  fields : Object;
  image : option File
}.

(** A request as it reaches a route, after [express.json()] and
    [express.urlencoded()] of lines 20-21: the headers, the [:id] segment of
    the path, [req.body] as those two parsers left it, and the multipart
    form of a request that has one, which only multer reads.  [req.body] is
    undefined ([None]) when neither parser took the request and the release
    of Express leaves it so. *)
Record Wire := mkWire {
  headers : list (string * string);
  params_id : string;
  parsed_body : option Object;
  multipart : option Form
}.

(** The file part sent under [image]. *)
Definition multipart_image (w : Wire) : option File :=
  match multipart w with
  | Some form => image form
  | None => None
  end.

(** The request object the middlewares pass along: multer replaces
    [req.body], and [req.user] and [req.file] are undefined until a
    middleware sets them. *)
Record Request := mkRequest {
  wire : Wire;
  body : option Object;
  user : option Jwt.Payload;
  file : option File
}.

Definition incoming (w : Wire) : Request :=
  mkRequest w (parsed_body w) None None.

Record UserView := mkUserView {
  view_id : ObjectId;
  view_username : string;
  view_email : string
}.

Inductive Json :=
| Message (message : string)
| Auth (message : string) (token : string) (user : UserView)
| Post (post : BlogPost.t) (author : option (ObjectId * string))
| Null
| ErrorPage.

Record Response := mkResponse {
  status : Z;
  json : Json
}.

(** ** Asynchronous code *)

(** The state a handler runs in: the database and the calls made so far to
    the storage provider. *)
Record Sys := mkSys {
  db : Store;
  trace : list Event
}.

(** An awaited computation either yields a value or throws; what it did to
    the state before throwing stays done. *)
Inductive Completion (A : Type) :=
| Normal (a : A)
| Throw (e : string).
Arguments Normal {A} a.
Arguments Throw {A} e.

Definition Async (A : Type) : Type := Sys -> Completion A * Sys.

Definition ret {A} (a : A) : Async A := fun s => (Normal a, s).

Definition throw {A} (e : string) : Async A := fun s => (Throw e, s).

Definition bind {A B} (c : Async A) (k : A -> Async B) : Async B :=
  fun s =>
    match c s with
    | (Normal a, s') => k a s'
    | (Throw e, s') => (Throw e, s')
    end.

(** [try { c } catch (e) { h e }]. *)
Definition try_catch {A} (c : Async A) (h : string -> Async A) : Async A :=
  fun s =>
    match c s with
    | (Normal a, s') => (Normal a, s')
    | (Throw e, s') => h e s'
    end.

Declare Scope async_scope.
Delimit Scope async_scope with async.
Notation "x <- c ;; k" := (bind c (fun x => k))
  (at level 61, c at next level, right associativity) : async_scope.
Local Open Scope async_scope.

Definition getStore : Async Store := fun s => (Normal (db s), s).

Definition putStore (d : Store) : Async unit :=
  fun s => (Normal tt, mkSys d (trace s)).

Definition emit (e : Event) : Async unit :=
  fun s => (Normal tt, mkSys (db s) (trace s ++ [e])).

(** [const { ... } = o]: a TypeError when [o] is undefined. *)
Definition destructure (o : option Object) : Async Object :=
  match o with
  | None => throw "TypeError"
  | Some o => ret o
  end.

(** ** Mongoose *)

(** The [required: true] validator of a String path: the value must be
    present and must not be the empty string. *)
Definition required (v : option string) : bool := truthy v.

(** The cast of a value to a String path: a string is kept as it is. *)
Definition castString (lib : Library) (how : Setting) (v : Value) : Cast :=
  match v with
  | VString s => Casted (Some s)
  | _ => mongoose_castString lib how v
  end.

(** A String path of a new document, from a value that can be undefined:
    an undefined value leaves the path without a value. *)
Definition documentPath (lib : Library) (v : option Value) : Cast :=
  match v with
  | None => Casted None
  | Some v => castString lib OfDocument v
  end.

(** What an update does to one path: nothing, when the value is
    [undefined], which Mongoose drops from the update; or a [$set] of the
    value as it was cast. *)
Inductive Assign :=
| Dropped
| Assigned (v : option string).

(** The value of one String path of an update, cast; [None] is a
    CastError. *)
Definition castAssign (lib : Library) (v : option Value) : option Assign :=
  match v with
  | None => Some Dropped
  | Some v =>
      match castString lib OfUpdate v with
      | CastError => None
      | Casted x => Some (Assigned x)
      end
  end.

Definition assign (a : Assign) (old : option string) : option string :=
  match a with
  | Dropped => old
  | Assigned x => x
  end.

(** A filter clause [{ path: v }] on a required String path: the stored
    strings it selects, or [None] when the query throws.  A string selects
    the documents that have it at the path.  Every stored document has a
    string at the path, so a clause whose value is [undefined] selects no
    document. *)
Definition clause (lib : Library) (v : option Value) : option (string -> bool) :=
  match v with
  | None => Some (fun _ => false)
  | Some (VString s) => Some (fun stored => String.eqb stored s)
  | Some v => mongoose_queryString lib v
  end.

(** The filters [{ email }] and [{ $or: [{ email }, { username }] }]; the
    whole filter is cast before the query runs. *)
Definition byEmail (lib : Library) (email : option Value)
    : option (User.t -> bool) :=
  match clause lib email with
  | Some f => Some (fun u => f (User.email u))
  | None => None
  end.

Definition byEmailOrUsername (lib : Library) (email username : option Value)
    : option (User.t -> bool) :=
  match clause lib email, clause lib username with
  | Some f, Some g =>
      Some (fun u => (f (User.email u) || g (User.username u))%bool)
  | _, _ => None
  end.

Definition User_findOne (filter : option (User.t -> bool))
    : Async (option User.t) :=
  match filter with
  | None => throw "CastError"
  | Some f =>
      d <- getStore ;;
      ret (find f (users d))
  end.

Definition User_findById (oid : ObjectId) (d : Store) : option User.t :=
  find (fun u => ObjectId_eqb (User._id u) oid) (users d).

(** [new User({ username, email, password }).save()]: the casts and the
    validation, then the insert, which the unique indexes on [_id],
    [username] and [email] can refuse. *)
Definition User_save (lib : Library) (env : Env) (username email : option Value)
    (password : string) : Async User.t :=
  d <- getStore ;;
  match documentPath lib username, documentPath lib email with
  | Casted (Some u), Casted (Some e) =>
      if (required (Some u) && required (Some e) && required (Some password))%bool
      then
        if existsb (fun x => (ObjectId_eqb (User._id x) (new_ObjectId env)
                              || String.eqb (User.username x) u
                              || String.eqb (User.email x) e)%bool) (users d)
        then throw "E11000 duplicate key error"
        else
          let doc := User.mk (new_ObjectId env) u e password
                             (Date_now env) (Date_now env) in
          _ <- putStore (mkStore (users d ++ [doc]) (posts d)) ;;
          ret doc
      else throw "ValidationError"
  | _, _ => throw "ValidationError"
  end.

Definition findPost (oid : ObjectId) (l : list BlogPost.t) : option BlogPost.t :=
  find (fun p => ObjectId_eqb (BlogPost._id p) oid) l.

(** [BlogPost.findById(id)]: the string is cast first, and a string that is
    not an ObjectId makes the query throw. *)
Definition BlogPost_findById (id : string) : Async (option BlogPost.t) :=
  match castObjectId id with
  | None => throw "CastError"
  | Some oid =>
      d <- getStore ;;
      ret (findPost oid (posts d))
  end.

(** The cast of a value that can be undefined to the ObjectId path
    [author] of a document.  [None] is an error or no value; either one
    fails the validation, the path being required. *)
Definition castAuthor (lib : Library) (v : option Value) : option ObjectId :=
  match v with
  | None => None
  | Some (VString s) => castObjectId s
  | Some v => mongoose_castObjectId lib v
  end.

(** [new BlogPost({ title, subtitle, content, imageUrl, author }).save()]:
    [title] and [content] are required, [subtitle] only has to cast, and
    [author] must cast to an ObjectId. *)
Definition BlogPost_save (lib : Library) (env : Env)
    (title subtitle content : option Value) (imageUrl : string)
    (author : option Value) : Async BlogPost.t :=
  d <- getStore ;;
  match documentPath lib title, documentPath lib subtitle,
        documentPath lib content, castAuthor lib author with
  | Casted (Some t), Casted sub, Casted (Some c), Some a =>
      if (required (Some t) && required (Some c))%bool
      then
        if existsb (fun x => ObjectId_eqb (BlogPost._id x) (new_ObjectId env))
                   (posts d)
        then throw "E11000 duplicate key error"
        else
          let doc := BlogPost.mk (new_ObjectId env) (Some t) sub (Some c)
                                 (Some imageUrl) a
                                 (Date_now env) (Date_now env) in
          _ <- putStore (mkStore (users d) (posts d ++ [doc])) ;;
          ret doc
      else throw "ValidationError"
  | _, _, _, _ => throw "ValidationError"
  end.

(** [doc.populate("author", "username")]: the author's [_id] and
    [username], or [null] when no such user is stored. *)
Definition populate (d : Store) (p : BlogPost.t) : option (ObjectId * string) :=
  match User_findById (BlogPost.author p) d with
  | Some u => Some (User._id u, User.username u)
  | None => None
  end.

(** The [$set] of [imageUrl], whose value is a string the handler made or
    read from the stored post: a value that is [undefined] is dropped from
    the update, so the path keeps what it had. *)
Definition set_optional (v old : option string) : option string :=
  match v with
  | Some s => Some s
  | None => old
  end.

(** The update document [{ title, subtitle, content, imageUrl }], cast,
    applied to a stored post; [timestamps: true] makes every update set
    [updatedAt].  No validator runs on an update. *)
Definition applyUpdate (now : Z) (title subtitle content : Assign)
    (imageUrl : option string) (p : BlogPost.t) : BlogPost.t :=
  BlogPost.mk (BlogPost._id p)
              (assign title (BlogPost.title p))
              (assign subtitle (BlogPost.subtitle p))
              (assign content (BlogPost.content p))
              (set_optional imageUrl (BlogPost.imageUrl p))
              (BlogPost.author p)
              (BlogPost.createdAt p)
              now.

(** The three text paths of an update, cast; one CastError fails the
    whole update. *)
Definition castUpdate (lib : Library) (title subtitle content : option Value)
    : option (Assign * Assign * Assign) :=
  match castAssign lib title, castAssign lib subtitle, castAssign lib content with
  | Some t, Some s, Some c => Some (t, s, c)
  | _, _, _ => None
  end.

(** Replace the first document with the given [_id]. *)
Fixpoint updateFirst (oid : ObjectId) (f : BlogPost.t -> BlogPost.t)
    (l : list BlogPost.t) : list BlogPost.t :=
  match l with
  | [] => []
  | p :: r =>
      if ObjectId_eqb (BlogPost._id p) oid then f p :: r
      else p :: updateFirst oid f r
  end.

(** Remove the first document with the given [_id]. *)
Fixpoint deleteFirst (oid : ObjectId) (l : list BlogPost.t) : list BlogPost.t :=
  match l with
  | [] => []
  | p :: r =>
      if ObjectId_eqb (BlogPost._id p) oid then r
      else p :: deleteFirst oid r
  end.

(** [BlogPost.findByIdAndUpdate(id, update, { new: true })]: the filter and
    the update are cast, which can throw, before anything is written; the
    answer is the document as it is after the update, or [null]. *)
Definition BlogPost_findByIdAndUpdate (lib : Library) (env : Env) (id : string)
    (title subtitle content : option Value) (imageUrl : option string)
    : Async (option BlogPost.t) :=
  match castObjectId id with
  | None => throw "CastError"
  | Some oid =>
      match castUpdate lib title subtitle content with
      | None => throw "CastError"
      | Some (t, s, c) =>
          d <- getStore ;;
          let posts' :=
            updateFirst oid (applyUpdate (Date_now env) t s c imageUrl) (posts d) in
          _ <- putStore (mkStore (users d) posts') ;;
          ret (findPost oid posts')
      end
  end.

Definition BlogPost_findByIdAndDelete (id : string) : Async unit :=
  match castObjectId id with
  | None => throw "CastError"
  | Some oid =>
      d <- getStore ;;
      putStore (mkStore (users d) (deleteFirst oid (posts d)))
  end.

(** The documents [findById(v)] selects by their [_id], or [None] when the
    query throws: a string must cast to an ObjectId. *)
Definition byId (lib : Library) (v : option Value) : option (ObjectId -> bool) :=
  match v with
  | Some (VString s) =>
      match castObjectId s with
      | Some oid => Some (fun x => ObjectId_eqb x oid)
      | None => None
      end
  | _ => mongoose_queryObjectId lib v
  end.

(** [User.findById(v)]. *)
Definition User_findById_value (lib : Library) (v : option Value)
    : Async (option User.t) :=
  match byId lib v with
  | None => throw "CastError"
  | Some f =>
      d <- getStore ;;
      ret (find (fun u => f (User._id u)) (users d))
  end.

(** ** multer *)

(** [limits.fileSize]. *)
Definition fileSize : Z := 5 * 1024 * 1024.

(** [fileFilter]: [true] accepts the file, [false] is the call
    [cb(new Error('Only image files are allowed!'), false)]. *)
Definition fileFilter (f : File) : bool := startsWith (mimetype f) "image/".

(** The parser's size limit on a file of [n] bytes: it trips when the file
    is larger than [limits.fileSize], and at exactly that size when the
    parser counts that way. *)
Definition limitReached (lib : Library) (n : Z) : bool :=
  ((fileSize <? n) || (limit_at_fileSize lib && (n =? fileSize)))%bool.

(** [upload.single("image")] with memory storage.  A request that is not
    multipart passes untouched.  Of a multipart request the text fields
    become [req.body]; the filter runs when the file part starts, the size
    limit trips while its bytes are read, either one ends the request with
    an error, and otherwise the part becomes [req.file]. *)
Definition upload_single (lib : Library) (req : Request) : string + Request :=
  match multipart (wire req) with
  | None => inr req
  | Some form =>
      match image form with
      | None =>
          inr (mkRequest (wire req) (Some (fields form)) (user req) (file req))
      | Some f =>
          if fileFilter f then
            if limitReached lib (byteLength (buffer f)) then inl "LIMIT_FILE_SIZE"
            else inr (mkRequest (wire req) (Some (fields form)) (user req) (Some f))
          else inl "Only image files are allowed!"
      end
  end.

(** Express's own error handler, which is the one that answers when a
    middleware calls [next(err)] and the application installs none: the
    error carries no status, so the answer is 500. *)
Definition defaultErrorHandler (err : string) : Response :=
  mkResponse 500 ErrorPage.

(** ** Cloudinary *)

(** The options of the upload; the name joins the clock and a random
    number. *)
Definition uploadOptions (env : Env) : UploadOptions :=
  mkUploadOptions "image" "blog-images" "png"
    ("blog-" ++ dec (Date_now env) ++ "-" ++ dec (Math_random_1E9 env)).

Definition uploadToCloudinary (env : Env) (buf : Buffer) : Async string :=
  let result := upload_stream env (uploadOptions env) buf in
  _ <- emit (CloudinaryUpload (uploadOptions env) buf result) ;;
  match result with
  | inl error => throw error
  | inr secure_url => ret secure_url
  end.

(** ** The authentication middleware *)

Definition getTokenFromHeader (req : Request) : option string :=
  let header := js_or (prop (headers (wire req)) "authorization")
                      (prop (headers (wire req)) "Authorization") in
  if negb (truthy header) then None
  else
    match header with
    | None => None
    | Some h =>
        match split " " h with
        | [_; token] => Some token
        | _ => None
        end
    end.

(** [process.env.JWT_SECRET || "fallback_secret"]. *)
Definition signingSecret (env : Env) : string :=
  match js_or (JWT_SECRET env) (Some "fallback_secret") with
  | Some s => s
  | None => "fallback_secret"
  end.

(** [Math.floor(Date.now() / 1000)], the clock [jwt.verify] compares the
    claims with. *)
Definition clockTimestamp (now : Z) : Q := inject_Z (now / 1000).

(** The check of [nbf]: a token that carries the claim is refused when the
    claim is not a number, and while the clock has not reached it. *)
Definition notBefore (payload : Jwt.Payload) (clock : Q) : option Jwt.Error :=
  match Jwt.nbf payload with
  | None => None
  | Some (VNumber nbf) =>
      if Qle_bool nbf clock then None else Some Jwt.NotBeforeError
  | Some _ => Some Jwt.JsonWebTokenError
  end.

(** The check of [exp]: a token that carries the claim is refused when the
    claim is not a number, and once the clock has reached it. *)
Definition expired (payload : Jwt.Payload) (clock : Q) : option Jwt.Error :=
  match Jwt.exp payload with
  | None => None
  | Some (VNumber exp) =>
      if Qle_bool exp clock then Some Jwt.TokenExpiredError else None
  | Some _ => Some Jwt.JsonWebTokenError
  end.

Section Server.

Variable lib : Library.

(** [jwt.sign(claims, secret, { expiresIn: "24h" })]: the claims are stamped
    with the time of issue in whole seconds and with the expiry, then signed
    and serialised. *)
Definition jwt_sign (claim_id claim_username secret : string) (now : Z) : string :=
  let iat := now / 1000 in
  let payload := Jwt.mkPayload claim_id claim_username iat (iat + expiresIn) in
  let input := jws_input lib payload in
  jwt_encode lib (Jwt.mkToken input payload (hmac lib secret input)).

(** [jwt.verify(token, secret)] at the clock value [now]: the token must
    parse, its signature must be the one the secret gives to the signed
    text, and the claims [nbf] and [exp], when it has them, must let it
    pass. *)
Definition jwt_verify (token secret : string) (now : Z) : Jwt.Error + Jwt.Payload :=
  match jwt_decode lib token with
  | None => inl Jwt.JsonWebTokenError
  | Some t =>
      if String.eqb (Jwt.signature t) (hmac lib secret (Jwt.signed t)) then
        match notBefore (Jwt.payload t) (clockTimestamp now) with
        | Some e => inl e
        | None =>
            match expired (Jwt.payload t) (clockTimestamp now) with
            | Some e => inl e
            | None => inr (Jwt.payload t)
            end
        end
      else inl Jwt.JsonWebTokenError
  end.

(** [authenticateToken]: either it answers itself, or it calls [next()] with
    the payload stored in [req.user]. *)
Definition authenticateToken (env : Env) (req : Request) : Response + Request :=
  match getTokenFromHeader req with
  | None => inl (mkResponse 401 (Message "Access token required"))
  | Some token =>
      if negb (truthy (Some token))
      then inl (mkResponse 401 (Message "Access token required"))
      else
        match jwt_verify token (signingSecret env) (Date_now env) with
        | inl _ => inl (mkResponse 403 (Message "Invalid or expired token"))
        | inr payload =>
            inr (mkRequest (wire req) (body req) (Some payload) (file req))
        end
  end.

(** ** bcryptjs *)

(** [bcrypt.hash(password, saltRounds)]; an argument that is not a string
    rejects the promise. *)
Definition bcrypt_hash_async (env : Env) (password : option Value)
    (saltRounds : Z) : Async string :=
  match password with
  | Some (VString p) => ret (bcrypt_hash lib p saltRounds (genSalt env))
  | _ => throw "Illegal arguments"
  end.

(** [bcrypt.compare(password, hash)]. *)
Definition bcrypt_compare_async (password : option Value) (hash : string)
    : Async bool :=
  match password with
  | Some (VString p) => ret (bcrypt_compare lib p hash)
  | _ => throw "Illegal arguments"
  end.

(** ** Auth routes *)

Definition userView (u : User.t) : UserView :=
  mkUserView (User._id u) (User.username u) (User.email u).

(** The handler of [POST /api/auth/signup]. *)
Definition signup (env : Env) (req : Request) : Async Response :=
  try_catch
    (o <- destructure (body req) ;;
     let username := prop o "username" in
     let email := prop o "email" in
     let password := prop o "password" in
     existingUser <- User_findOne (byEmailOrUsername lib email username) ;;
     match existingUser with
     | Some _ => ret (mkResponse 400 (Message "User already exists"))
     | None =>
         hashedPassword <- bcrypt_hash_async env password 10 ;;
         newUser <- User_save lib env username email hashedPassword ;;
         let token := jwt_sign (toString (User._id newUser)) (User.username newUser)
                               (signingSecret env) (Date_now env) in
         ret (mkResponse 201
                (Auth "User created successfully" token (userView newUser)))
     end)
    (fun _ => ret (mkResponse 500 (Message "Server error during signup"))).

(** The handler of [POST /api/auth/login]. *)
Definition login (env : Env) (req : Request) : Async Response :=
  try_catch
    (o <- destructure (body req) ;;
     let email := prop o "email" in
     let password := prop o "password" in
     user <- User_findOne (byEmail lib email) ;;
     match user with
     | None => ret (mkResponse 400 (Message "Invalid credentials"))
     | Some user =>
         passwordMatches <- bcrypt_compare_async password (User.password user) ;;
         if negb passwordMatches
         then ret (mkResponse 400 (Message "Invalid credentials"))
         else
           let token := jwt_sign (toString (User._id user)) (User.username user)
                                 (signingSecret env) (Date_now env) in
           ret (mkResponse 200 (Auth "Login successful" token (userView user)))
     end)
    (fun _ => ret (mkResponse 500 (Message "Server error during login"))).

(** ** Blog post routes *)

(** The handler of [GET /api/posts/:id]. *)
Definition getPost (req : Request) : Async Response :=
  try_catch
    (post <- BlogPost_findById (params_id (wire req)) ;;
     match post with
     | None => ret (mkResponse 404 (Message "Post not found"))
     | Some post =>
         d <- getStore ;;
         ret (mkResponse 200 (Post post (populate d post)))
     end)
    (fun _ => ret (mkResponse 500 (Message "Server error fetching post"))).

(** The inner [try] of the two write handlers: the URL of the uploaded
    image, or the answer the [catch] returns with. *)
Definition uploadOrFail (env : Env) (f : File) : Async (Response + string) :=
  try_catch
    (imageUrl <- uploadToCloudinary env (buffer f) ;;
     ret (inr imageUrl))
    (fun _ => ret (inl (mkResponse 500 (Message "Failed to upload image")))).

(** [req.user.id]; reading it when the middleware has stored no payload is
    a TypeError. *)
Definition req_user_id (req : Request) : Async (option Value) :=
  match user req with
  | None => throw "TypeError"
  | Some u => ret (Jwt.id u)
  end.

(** The handler of [POST /api/posts]. *)
Definition createPost (env : Env) (req : Request) : Async Response :=
  try_catch
    (o <- destructure (body req) ;;
     let title := prop o "title" in
     let subtitle := prop o "subtitle" in
     let content := prop o "content" in
     uploaded <- match file req with
                 | Some f => uploadOrFail env f
                 | None => ret (inr "")
                 end ;;
     match uploaded with
     | inl res => ret res
     | inr imageUrl =>
         author <- req_user_id req ;;
         newPost <- BlogPost_save lib env title subtitle content imageUrl author ;;
         d <- getStore ;;
         ret (mkResponse 201 (Post newPost (populate d newPost)))
     end)
    (fun _ => ret (mkResponse 500 (Message "Server error creating post"))).

(** The handler of [PUT /api/posts/:id]. *)
Definition updatePost (env : Env) (req : Request) : Async Response :=
  try_catch
    (o <- destructure (body req) ;;
     let title := prop o "title" in
     let subtitle := prop o "subtitle" in
     let content := prop o "content" in
     post <- BlogPost_findById (params_id (wire req)) ;;
     match post with
     | None => ret (mkResponse 404 (Message "Post not found"))
     | Some post =>
         caller <- req_user_id req ;;
         if negb (strictEq (toString (BlogPost.author post)) caller)
         then ret (mkResponse 403 (Message "Not authorized to edit this post"))
         else
           uploaded <- match file req with
                       | Some f =>
                           r <- uploadOrFail env f ;;
                           ret (match r with
                                | inl res => inl res
                                | inr url => inr (Some url)
                                end)
                       | None => ret (inr (BlogPost.imageUrl post))
                       end ;;
           match uploaded with
           | inl res => ret res
           | inr imageUrl =>
               updatedPost <- BlogPost_findByIdAndUpdate lib env
                                (params_id (wire req))
                                title subtitle content imageUrl ;;
               d <- getStore ;;
               ret (mkResponse 200
                      (match updatedPost with
                       | Some p => Post p (populate d p)
                       | None => Null
                       end))
           end
     end)
    (fun _ => ret (mkResponse 500 (Message "Server error updating post"))).

(** The handler of [DELETE /api/posts/:id]. *)
Definition deletePost (req : Request) : Async Response :=
  try_catch
    (post <- BlogPost_findById (params_id (wire req)) ;;
     match post with
     | None => ret (mkResponse 404 (Message "Post not found"))
     | Some post =>
         caller <- req_user_id req ;;
         if negb (strictEq (toString (BlogPost.author post)) caller)
         then ret (mkResponse 403 (Message "Not authorized to delete this post"))
         else
           _ <- BlogPost_findByIdAndDelete (params_id (wire req)) ;;
           ret (mkResponse 200 (Message "Post deleted successfully"))
     end)
    (fun _ => ret (mkResponse 500 (Message "Server error deleting post"))).

(** ** Routing *)

(** [authenticateToken] in front of the rest of a route. *)
Definition authenticated (env : Env) (req : Request)
    (next : Request -> Async Response) : Async Response :=
  match authenticateToken env req with
  | inl res => ret res
  | inr req' => next req'
  end.

(** [upload.single("image")] in front of the rest of a route. *)
Definition uploading (req : Request) (next : Request -> Async Response)
    : Async Response :=
  match upload_single lib req with
  | inl err => ret (defaultErrorHandler err)
  | inr req' => next req'
  end.

Inductive Route :=
| POST_signup
| POST_login
| GET_post
| POST_posts
| PUT_post
| DELETE_post.

(** The middleware chain registered for each route. *)
Definition dispatch (r : Route) (env : Env) (req : Request) : Async Response :=
  match r with
  | POST_signup => signup env req
  | POST_login => login env req
  | GET_post => getPost req
  | POST_posts =>
      authenticated env req (fun req1 => uploading req1 (createPost env))
  | PUT_post =>
      authenticated env req (fun req1 => uploading req1 (updatePost env))
  | DELETE_post => authenticated env req deletePost
  end.

(** What one request leaves behind: the answer, the database and the calls
    made to the storage provider. *)
Record Outcome := mkOutcome {
  response : Response;
  store : Store;
  calls : list Event
}.

(** A computation run against the database [d].  A handler that let an
    exception escape would be answered by Express's error handler. *)
Definition outcome (c : Async Response) (d : Store) : Outcome :=
  match c (mkSys d []) with
  | (Normal res, s) => mkOutcome res (db s) (trace s)
  | (Throw e, s) => mkOutcome (defaultErrorHandler e) (db s) (trace s)
  end.

(** One request served against the database [d]. *)
Definition serve (r : Route) (env : Env) (w : Wire) (d : Store) : Outcome :=
  outcome (dispatch r env (incoming w)) d.

End Server.

(** ** A small instance of the primitives and some data *)

(** Stand-ins for the digest, the HMAC, the token serialisation and
    Mongoose's casts, simple enough to run, and a database with two users
    and one post, used to evaluate the server on concrete requests. *)
Module Demo.

Definition hash (p : string) (rounds : Z) (salt : string) : string :=
  "$2a$" ++ dec rounds ++ "$" ++ salt ++ "$" ++ p.

Definition compare (p digest : string) : bool :=
  match split "$" digest with
  | [_; _; _; _; p'] => String.eqb p p'
  | _ => false
  end.

Definition parseZ (s : string) : option Z :=
  option_map Z.of_int (NilZero.int_of_string s).

(** The text of a claim: a string as it is, a number in decimal, and [x]
    for a claim the payload does not have. *)
Definition text (v : option Value) : string :=
  match v with
  | Some (VString s) => s
  | Some (VNumber q) => dec (Qnum q / Z.pos (Qden q))
  | _ => "x"
  end.

(** The signed text: the five claims in a fixed order. *)
Definition input (p : Jwt.Payload) : string :=
  text (prop p "id") ++ ";" ++ text (prop p "username") ++ ";"
    ++ text (prop p "iat") ++ ";" ++ text (prop p "exp") ++ ";"
    ++ text (prop p "nbf").

Definition mac (secret signed : string) : string :=
  "HS256(" ++ secret ++ ":" ++ signed ++ ")".

Definition encode (t : Jwt.Token) : string :=
  Jwt.signed t ++ "." ++ Jwt.signature t.

Definition numeric (k s : string) : Jwt.Payload :=
  match parseZ s with
  | Some z => [(k, VNumber (inject_Z z))]
  | None => []
  end.

Definition decode (s : string) : option Jwt.Token :=
  match split "." s with
  | [signed; sg] =>
      match split ";" signed with
      | [i; u; a; e; n] =>
          Some (Jwt.mkToken signed
                  ([("id", VString i); ("username", VString u)]
                     ++ numeric "iat" a ++ numeric "exp" e ++ numeric "nbf" n)%list
                  sg)
      | _ => None
      end
  | _ => None
  end.

(** Casts in the manner of Mongoose: [null] stays [null], a boolean is
    rendered, an array or an object is a CastError.  As a filter, [null]
    selects no stored string, and the operator [$ne] selects the strings
    that differ from its argument. *)
Definition castToString (how : Setting) (v : Value) : Cast :=
  match v with
  | VNull => Casted None
  | VBool true => Casted (Some "true")
  | VBool false => Casted (Some "false")
  | _ => CastError
  end.

Definition queryString (v : Value) : option (string -> bool) :=
  match v with
  | VNull => Some (fun _ => false)
  | VBool true => Some (fun stored => String.eqb stored "true")
  | VBool false => Some (fun stored => String.eqb stored "false")
  | VObject [(op, VNull)] =>
      if String.eqb op "$ne" then Some (fun _ => true) else None
  | VObject [(op, VString s)] =>
      if String.eqb op "$ne" then Some (fun stored => negb (String.eqb stored s))
      else None
  | _ => None
  end.

Definition castToObjectId (v : Value) : option ObjectId := None.

Definition queryObjectId (v : option Value) : option (ObjectId -> bool) :=
  match v with
  | None => Some (fun _ => false)
  | Some VNull => Some (fun _ => false)
  | Some (VObject [(op, VNull)]) =>
      if String.eqb op "$ne" then Some (fun _ => true) else None
  | _ => None
  end.

Definition lib : Library :=
  mkLibrary hash compare input mac encode decode true
            castToString queryString castToObjectId queryObjectId.

Definition alice_id : ObjectId := mkObjectId "65a000000000000000000001".
Definition bob_id : ObjectId := mkObjectId "65a000000000000000000002".
Definition post_id : ObjectId := mkObjectId "65b000000000000000000001".
Definition fresh_id : ObjectId := mkObjectId "65c000000000000000000001".

Definition alice : User.t :=
  User.mk alice_id "alice" "a@x.com" (hash "pw1" 10 "s1") 1000 1000.
Definition bob : User.t :=
  User.mk bob_id "bob" "b@x.com" (hash "pw2" 10 "s2") 2000 2000.

Definition postX : BlogPost.t :=
  BlogPost.mk post_id (Some "Hi") None (Some "Hello") (Some "") alice_id 3000 3000.

Definition d0 : Store := mkStore [alice; bob] [postX].

Definition url : string :=
  "https://res.cloudinary.com/demo/image/upload/blog-images/blog-1.png".

(** An environment in which the storage provider answers, and one in
    which it fails. *)
(** The same database, where the post has an image. *)
Definition pictured : BlogPost.t :=
  BlogPost.mk post_id (Some "Hi") None (Some "Hello") (Some url) alice_id
              3000 3000.

Definition d1 : Store := mkStore [alice; bob] [pictured].

Definition env : Env :=
  mkEnv None 1700000000000 123456789 "s3" fresh_id (fun _ _ => inr url).
Definition env_down : Env :=
  mkEnv None 1700000000000 123456789 "s3" fresh_id (fun _ _ => inl "ECONNRESET").

Definition token_of (u : User.t) : string :=
  jwt_sign lib (toString (User._id u)) (User.username u)
           "fallback_secret" 1699999000000.

Definition bearer (u : User.t) : list (string * string) :=
  [("authorization", "Bearer " ++ token_of u)].

(** The payload of [token_of u]. *)
Definition claims_of (u : User.t) : Jwt.Payload :=
  Jwt.mkPayload (toString (User._id u)) (User.username u)
                1699999000 1700085400.

Definition png (n : Z) : File := mkFile "image/png" (mkBuffer n 0).
Definition textFile : File := mkFile "text/plain" (mkBuffer 3 0).

(** An object whose values are strings. *)
Definition strings (l : list (string * string)) : Object :=
  map (fun kv => (fst kv, VString (snd kv))) l.

(** Requests on the stored post, and requests that create one, sent as
    multipart forms. *)
Definition update_by (u : User.t) (l : list (string * string))
    (part : option File) : Wire :=
  mkWire (bearer u) (toString post_id) None (Some (mkForm (strings l) part)).

Definition delete_by (u : User.t) : Wire :=
  mkWire (bearer u) (toString post_id) None None.

Definition create_by (u : User.t) (l : list (string * string))
    (part : option File) : Wire :=
  mkWire (bearer u) "" None (Some (mkForm (strings l) part)).


Definition signup_carol : Wire :=
  mkWire [] ""
    (Some (strings [("username", "carol"); ("email", "c@x.com");
                    ("password", "pw3")]))
    None.

Definition login_carol : Wire :=
  mkWire [] "" (Some (strings [("email", "c@x.com"); ("password", "pw3")])) None.

Definition signup_alice_again : Wire :=
  mkWire [] ""
    (Some (strings [("username", "alice2"); ("email", "a@x.com");
                    ("password", "pw9")]))
    None.

(** A request whose Authorization header has another first word. *)
Definition basic_scheme : Wire :=
  mkWire [("authorization", "Basic " ++ token_of alice)] "" None None.

(** An unauthenticated delete of something that is not an ObjectId. *)
Definition anonymous_delete : Wire := mkWire [] "xyz" None None.

(** A token signed with the fallback secret that expires in 2033 and is
    not to be used before 2030, and a request that carries it. *)
Definition postdated : Jwt.Payload :=
  (Jwt.mkPayload (toString alice_id) "alice" 1699999000 2000000000
     ++ [("nbf", VNumber (inject_Z 1900000000))])%list.

Definition postdated_token : string :=
  encode (Jwt.mkToken (input postdated) postdated
            (mac "fallback_secret" (input postdated))).

Definition postdated_request : Wire :=
  mkWire [("authorization", "Bearer " ++ postdated_token)] "" None None.

End Demo.

(** ** Vocabulary of the properties *)

(** A call to the storage provider that came back with an error. *)
Definition failedUpload (e : Event) : bool :=
  match e with
  | CloudinaryUpload _ _ (inl _) => true
  | CloudinaryUpload _ _ (inr _) => false
  end.

(** The image part of a request, if any, passes [upload.single("image")]. *)
Definition uploadAccepted (lib : Library) (w : Wire) : bool :=
  match multipart_image w with
  | None => true
  | Some f => (fileFilter f && negb (limitReached lib (byteLength (buffer f))))%bool
  end.

(** [req.body] as the handlers behind [upload.single("image")] find it:
    the text fields of a multipart form, and what the body parsers left
    otherwise.  The other handlers find [parsed_body]. *)
Definition formBody (w : Wire) : option Object :=
  match multipart w with
  | Some form => Some (fields form)
  | None => parsed_body w
  end.

(** The value [getTokenFromHeader] reads as the Authorization header. *)
Definition authorization (w : Wire) : option string :=
  js_or (prop (headers w) "authorization") (prop (headers w) "Authorization").

(** The request passes [authenticateToken] with the payload [b]. *)
Definition authenticatedAs (lib : Library) (env : Env) (w : Wire)
    (b : Jwt.Payload) : Prop :=
  authenticateToken lib env (incoming w)
  = inr (mkRequest w (parsed_body w) (Some b) None).

(** The request passes [authenticateToken]. *)
Definition passesAuthentication (lib : Library) (env : Env) (w : Wire) : Prop :=
  exists b, authenticatedAs lib env w b.

(** [authenticateToken] answers the request itself, with 401 or 403. *)
Definition authenticationFailure (lib : Library) (env : Env) (w : Wire) : Prop :=
  exists res, authenticateToken lib env (incoming w) = inl res
              /\ (status res = 401 \/ status res = 403).

(** The payload carries the identifier of the user [a]: [payload.id] is
    the string that renders it. *)
Definition identifies (b : Jwt.Payload) (a : ObjectId) : Prop :=
  Jwt.id b = Some (VString (toString a)).

(** The [:id] of the request names the stored post [x]. *)
Definition targets (w : Wire) (d : Store) (x : BlogPost.t) : Prop :=
  exists oid, castObjectId (params_id w) = Some oid
              /\ findPost oid (posts d) = Some x.

(** A header value of the form [Bearer <token>]: the word, one space, and a
    token with no space in it. *)
Definition bearerForm (h : string) : Prop :=
  exists token, split " " h = ["Bearer"; token].

(** Some stored user has the email or the username of a signup request. *)
Definition duplicateIdentity (w : Wire) (d : Store) : Prop :=
  exists u, In u (users d)
            /\ (field (parsed_body w) "email" = Some (VString (User.email u))
                \/ field (parsed_body w) "username"
                   = Some (VString (User.username u))).

(** A value passes as a required String path of a new document: it casts
    to a string that is not empty. *)
Definition requiredPath (lib : Library) (v : option Value) : bool :=
  match documentPath lib v with
  | Casted s => required s
  | CastError => false
  end.

(** A required text field of a post is missing from the request, is empty,
    or does not cast to a string. *)
Definition missingRequired (lib : Library) (w : Wire) : Prop :=
  requiredPath lib (field (formBody w) "title") = false
  \/ requiredPath lib (field (formBody w) "content") = false.

(** Two versions of a post agree on everything but the text fields and the
    image reference. *)
Definition onlyTextAndImageDiffer (p p' : BlogPost.t) : Prop :=
  BlogPost._id p' = BlogPost._id p
  /\ BlogPost.author p' = BlogPost.author p
  /\ BlogPost.createdAt p' = BlogPost.createdAt p
  /\ BlogPost.updatedAt p' = BlogPost.updatedAt p.

(** Two versions of a post agree on the identifier, the owner and the time
    of creation. *)
Definition sameOwner (p p' : BlogPost.t) : Prop :=
  BlogPost._id p' = BlogPost._id p
  /\ BlogPost.author p' = BlogPost.author p
  /\ BlogPost.createdAt p' = BlogPost.createdAt p.

(** The signature of a token is the one the secret gives to its signed
    text. *)
Definition signatureVerifies (lib : Library) (secret : string) (t : Jwt.Token)
    : Prop :=
  Jwt.signature t = hmac lib secret (Jwt.signed t).

(** The token the request carries: the second of the two pieces of its
    Authorization header, taken apart. *)
Definition carries (lib : Library) (w : Wire) (t : Jwt.Token) : Prop :=
  exists h scheme token,
    authorization w = Some h /\ split " " h = [scheme; token]
    /\ token <> "" /\ jwt_decode lib token = Some t.

(** *** The statements that do not hold as they are worded *)


(** A token is accepted exactly when its signature verifies against the
    signing secret and the clock is before its expiry. *)
Definition acceptedIffUnexpired (lib : Library) (env : Env) (w : Wire) : Prop :=
  passesAuthentication lib env w <->
  exists t exp,
    carries lib w t
    /\ signatureVerifies lib (signingSecret env) t
    /\ Jwt.exp (Jwt.payload t) = Some (VNumber exp)
    /\ (clockTimestamp (Date_now env) < exp)%Q.

(** The middleware rejects a request with no Authorization header, with one
    that is not of the form [Bearer <token>], or with a token that fails
    verification, and stores the verified claims otherwise. *)
Definition bearerOnly (lib : Library) (env : Env) (w : Wire) : Prop :=
  (authorization w = None -> authenticationFailure lib env w)
  /\ (forall h, authorization w = Some h -> ~ bearerForm h ->
                authenticationFailure lib env w)
  /\ (forall h scheme token e,
        authorization w = Some h -> split " " h = [scheme; token] ->
        jwt_verify lib token (signingSecret env) (Date_now env) = inl e ->
        authenticationFailure lib env w)
  /\ (forall req', authenticateToken lib env (incoming w) = inr req' ->
        exists h scheme token payload,
          authorization w = Some h /\ split " " h = [scheme; token]
          /\ jwt_verify lib token (signingSecret env) (Date_now env) = inr payload
          /\ req' = mkRequest w (parsed_body w) (Some payload) None).

(** An update changes nothing of a post but its text fields and its image
    reference. *)
Definition updateTouchesOnlyTextAndImage (lib : Library) (env : Env)
    (w : Wire) (d : Store) : Prop :=
  forall oid p,
    findPost oid (posts d) = Some p ->
    exists p', findPost oid (posts (store (serve lib PUT_post env w d))) = Some p'
               /\ onlyTextAndImageDiffer p p'.

(** A post written with a required field missing is answered 400. *)
Definition missingFieldIs400 (lib : Library) (env : Env) (w : Wire)
    (d : Store) : Prop :=
  passesAuthentication lib env w ->
  uploadAccepted lib w = true ->
  missingRequired lib w ->
  status (response (serve lib POST_posts env w d)) = 400.

(** An identifier that is not an ObjectId is answered 500, and 404 is kept
    for an ObjectId that names no stored post. *)
Definition malformedIdIs500 (lib : Library) (r : Route) (env : Env)
    (w : Wire) (d : Store) : Prop :=
  (castObjectId (params_id w) = None ->
   status (response (serve lib r env w d)) = 500)
  /\ (status (response (serve lib r env w d)) = 404 ->
      exists oid, castObjectId (params_id w) = Some oid
                  /\ findPost oid (posts d) = None).

(** *** The lookups of signup and login *)

(** A value that is a string, or is missing. *)
Definition plain (v : option Value) : Prop :=
  v = None \/ exists s, v = Some (VString s).

(** The lookup of signup selects a stored user. *)
Definition lookupSelects (lib : Library) (w : Wire) (d : Store) : Prop :=
  exists f x,
    byEmailOrUsername lib (field (parsed_body w) "email")
                      (field (parsed_body w) "username") = Some f
    /\ In x (users d) /\ f x = true.

(** *** What an update does to a text field *)

(** The stored value [new] of a path after an update that was sent the
    value [v], where it was [old] before: the old value when none was sent,
    and otherwise what the value sent casts to. *)
Definition setTo (lib : Library) (v : option Value) (old new : option string)
    : Prop :=
  match v with
  | None => new = old
  | Some v => castString lib OfUpdate v = Casted new
  end.

(** The three text fields of an update request cast.  They do when each of
    them is a string or is missing. *)
Definition updateCasts (lib : Library) (w : Wire) : Prop :=
  castUpdate lib (field (formBody w) "title") (field (formBody w) "subtitle")
             (field (formBody w) "content") <> None.

(** *** The ways a write handler can end *)

(** The image step of a write handler on the part [fo] of the request:
    nothing to upload, which leaves the reference [keep]; an upload that
    succeeded; or an upload that failed.  The second component is the record
    of the call. *)
Inductive ImageStep (env : Env) (keep : option string)
    : option File -> (string + option string) -> list Event -> Prop :=
| Image_none :
    ImageStep env keep None (inr keep) []
| Image_uploaded f secure_url :
    upload_stream env (uploadOptions env) (buffer f) = inr secure_url ->
    ImageStep env keep (Some f) (inr (Some secure_url))
      [CloudinaryUpload (uploadOptions env) (buffer f) (inr secure_url)]
| Image_failed f error :
    upload_stream env (uploadOptions env) (buffer f) = inl error ->
    ImageStep env keep (Some f) (inl error)
      [CloudinaryUpload (uploadOptions env) (buffer f) (inl error)].

(** The ends of [createPost] for the payload [b]. *)
Inductive Created (lib : Library) (env : Env) (w : Wire) (b : Jwt.Payload)
    (d : Store) : Outcome -> Prop :=
| Create_no_body :
    formBody w = None ->
    Created lib env w b d
      (mkOutcome (mkResponse 500 (Message "Server error creating post")) d [])
| Create_upload_failed error tr :
    formBody w <> None ->
    ImageStep env (Some "") (multipart_image w) (inl error) tr ->
    Created lib env w b d
      (mkOutcome (mkResponse 500 (Message "Failed to upload image")) d tr)
| Create_save_failed img tr :
    formBody w <> None ->
    ImageStep env (Some "") (multipart_image w) (inr img) tr ->
    Created lib env w b d
      (mkOutcome (mkResponse 500 (Message "Server error creating post")) d tr)
| Create_saved imageUrl tr title subtitle content author :
    formBody w <> None ->
    ImageStep env (Some "") (multipart_image w) (inr (Some imageUrl)) tr ->
    documentPath lib (field (formBody w) "title") = Casted (Some title) ->
    title <> "" ->
    documentPath lib (field (formBody w) "subtitle") = Casted subtitle ->
    documentPath lib (field (formBody w) "content") = Casted (Some content) ->
    content <> "" ->
    castAuthor lib (Jwt.id b) = Some author ->
    findPost (new_ObjectId env) (posts d) = None ->
    let p := BlogPost.mk (new_ObjectId env) (Some title) subtitle
                         (Some content) (Some imageUrl) author
                         (Date_now env) (Date_now env) in
    let d' := mkStore (users d) (posts d ++ [p]) in
    Created lib env w b d
      (mkOutcome (mkResponse 201 (Post p (populate d' p))) d' tr).

(** The ends of [updatePost] for the payload [b]. *)
Inductive Updated (lib : Library) (env : Env) (w : Wire) (b : Jwt.Payload)
    (d : Store) : Outcome -> Prop :=
| Update_no_body :
    formBody w = None ->
    Updated lib env w b d
      (mkOutcome (mkResponse 500 (Message "Server error updating post")) d [])
| Update_cast_error :
    formBody w <> None ->
    castObjectId (params_id w) = None ->
    Updated lib env w b d
      (mkOutcome (mkResponse 500 (Message "Server error updating post")) d [])
| Update_not_found oid :
    formBody w <> None ->
    castObjectId (params_id w) = Some oid ->
    findPost oid (posts d) = None ->
    Updated lib env w b d
      (mkOutcome (mkResponse 404 (Message "Post not found")) d [])
| Update_forbidden oid post :
    formBody w <> None ->
    castObjectId (params_id w) = Some oid ->
    findPost oid (posts d) = Some post ->
    ~ identifies b (BlogPost.author post) ->
    Updated lib env w b d
      (mkOutcome (mkResponse 403 (Message "Not authorized to edit this post")) d [])
| Update_upload_failed oid post error tr :
    formBody w <> None ->
    castObjectId (params_id w) = Some oid ->
    findPost oid (posts d) = Some post ->
    identifies b (BlogPost.author post) ->
    ImageStep env (BlogPost.imageUrl post) (multipart_image w) (inl error) tr ->
    Updated lib env w b d
      (mkOutcome (mkResponse 500 (Message "Failed to upload image")) d tr)
| Update_refused oid post imageUrl tr :
    formBody w <> None ->
    castObjectId (params_id w) = Some oid ->
    findPost oid (posts d) = Some post ->
    identifies b (BlogPost.author post) ->
    ImageStep env (BlogPost.imageUrl post) (multipart_image w) (inr imageUrl) tr ->
    castUpdate lib (field (formBody w) "title") (field (formBody w) "subtitle")
               (field (formBody w) "content") = None ->
    Updated lib env w b d
      (mkOutcome (mkResponse 500 (Message "Server error updating post")) d tr)
| Update_done oid post imageUrl tr t s c :
    formBody w <> None ->
    castObjectId (params_id w) = Some oid ->
    findPost oid (posts d) = Some post ->
    identifies b (BlogPost.author post) ->
    ImageStep env (BlogPost.imageUrl post) (multipart_image w) (inr imageUrl) tr ->
    castUpdate lib (field (formBody w) "title") (field (formBody w) "subtitle")
               (field (formBody w) "content") = Some (t, s, c) ->
    let posts' :=
      updateFirst oid (applyUpdate (Date_now env) t s c imageUrl) (posts d) in
    let d' := mkStore (users d) posts' in
    Updated lib env w b d
      (mkOutcome
         (mkResponse 200
            (match findPost oid posts' with
             | Some p => Post p (populate d' p)
             | None => Null
             end))
         d' tr).

(** The ends of [deletePost] for the payload [b]. *)
Inductive Deleted (w : Wire) (b : Jwt.Payload) (d : Store) : Outcome -> Prop :=
| Delete_cast_error :
    castObjectId (params_id w) = None ->
    Deleted w b d
      (mkOutcome (mkResponse 500 (Message "Server error deleting post")) d [])
| Delete_not_found oid :
    castObjectId (params_id w) = Some oid ->
    findPost oid (posts d) = None ->
    Deleted w b d
      (mkOutcome (mkResponse 404 (Message "Post not found")) d [])
| Delete_forbidden oid post :
    castObjectId (params_id w) = Some oid ->
    findPost oid (posts d) = Some post ->
    ~ identifies b (BlogPost.author post) ->
    Deleted w b d
      (mkOutcome (mkResponse 403 (Message "Not authorized to delete this post")) d [])
| Delete_done oid post :
    castObjectId (params_id w) = Some oid ->
    findPost oid (posts d) = Some post ->
    identifies b (BlogPost.author post) ->
    Deleted w b d
      (mkOutcome (mkResponse 200 (Message "Post deleted successfully"))
         (mkStore (users d) (deleteFirst oid (posts d))) []).

(** The ends of [getPost]. *)
Inductive Fetched (w : Wire) (d : Store) : Outcome -> Prop :=
| Fetch_cast_error :
    castObjectId (params_id w) = None ->
    Fetched w d
      (mkOutcome (mkResponse 500 (Message "Server error fetching post")) d [])
| Fetch_not_found oid :
    castObjectId (params_id w) = Some oid ->
    findPost oid (posts d) = None ->
    Fetched w d (mkOutcome (mkResponse 404 (Message "Post not found")) d [])
| Fetch_found oid post :
    castObjectId (params_id w) = Some oid ->
    findPost oid (posts d) = Some post ->
    Fetched w d (mkOutcome (mkResponse 200 (Post post (populate d post))) d []).

(** No stored user has the identifier, the username or the email: the
    unique indexes let the insert through. *)
Definition indexesAllow (d : Store) (oid : ObjectId) (username email : string)
    : Prop :=
  forall x, In x (users d) ->
            User._id x <> oid /\ User.username x <> username
            /\ User.email x <> email.

(** The ends of [signup]. *)
Inductive SignedUp (lib : Library) (env : Env) (w : Wire) (d : Store)
    : Outcome -> Prop :=
| Signup_duplicate f existingUser :
    byEmailOrUsername lib (field (parsed_body w) "email")
                      (field (parsed_body w) "username") = Some f ->
    find f (users d) = Some existingUser ->
    SignedUp lib env w d
      (mkOutcome (mkResponse 400 (Message "User already exists")) d [])
| Signup_failed :
    (forall f,
        byEmailOrUsername lib (field (parsed_body w) "email")
                          (field (parsed_body w) "username") = Some f ->
        find f (users d) = None) ->
    SignedUp lib env w d
      (mkOutcome (mkResponse 500 (Message "Server error during signup")) d [])
| Signup_created f username email password :
    byEmailOrUsername lib (field (parsed_body w) "email")
                      (field (parsed_body w) "username") = Some f ->
    find f (users d) = None ->
    documentPath lib (field (parsed_body w) "username") = Casted (Some username) ->
    username <> "" ->
    documentPath lib (field (parsed_body w) "email") = Casted (Some email) ->
    email <> "" ->
    field (parsed_body w) "password" = Some (VString password) ->
    indexesAllow d (new_ObjectId env) username email ->
    let u := User.mk (new_ObjectId env) username email
                     (bcrypt_hash lib password 10 (genSalt env))
                     (Date_now env) (Date_now env) in
    SignedUp lib env w d
      (mkOutcome
         (mkResponse 201
            (Auth "User created successfully"
               (jwt_sign lib (toString (User._id u)) (User.username u)
                         (signingSecret env) (Date_now env))
               (userView u)))
         (mkStore (users d ++ [u]) (posts d)) []).

(** The ends of [login]. *)
Inductive LoggedIn (lib : Library) (env : Env) (w : Wire) (d : Store)
    : Outcome -> Prop :=
| Login_no_body :
    parsed_body w = None ->
    LoggedIn lib env w d
      (mkOutcome (mkResponse 500 (Message "Server error during login")) d [])
| Login_cast_error :
    parsed_body w <> None ->
    byEmail lib (field (parsed_body w) "email") = None ->
    LoggedIn lib env w d
      (mkOutcome (mkResponse 500 (Message "Server error during login")) d [])
| Login_unknown f :
    parsed_body w <> None ->
    byEmail lib (field (parsed_body w) "email") = Some f ->
    find f (users d) = None ->
    LoggedIn lib env w d
      (mkOutcome (mkResponse 400 (Message "Invalid credentials")) d [])
| Login_failed f u :
    byEmail lib (field (parsed_body w) "email") = Some f ->
    find f (users d) = Some u ->
    (forall password, field (parsed_body w) "password" <> Some (VString password)) ->
    LoggedIn lib env w d
      (mkOutcome (mkResponse 500 (Message "Server error during login")) d [])
| Login_mismatch f u password :
    byEmail lib (field (parsed_body w) "email") = Some f ->
    find f (users d) = Some u ->
    field (parsed_body w) "password" = Some (VString password) ->
    bcrypt_compare lib password (User.password u) = false ->
    LoggedIn lib env w d
      (mkOutcome (mkResponse 400 (Message "Invalid credentials")) d [])
| Login_ok f u password :
    byEmail lib (field (parsed_body w) "email") = Some f ->
    find f (users d) = Some u ->
    field (parsed_body w) "password" = Some (VString password) ->
    bcrypt_compare lib password (User.password u) = true ->
    LoggedIn lib env w d
      (mkOutcome
         (mkResponse 200
            (Auth "Login successful"
               (jwt_sign lib (toString (User._id u)) (User.username u)
                         (signingSecret env) (Date_now env))
               (userView u)))
         d []).

(** The ends of a route behind [authenticateToken] and, when [multer] is
    set, [upload.single("image")], in terms of the ends [H] of its
    handler. *)
Inductive Protected (lib : Library) (env : Env) (w : Wire) (d : Store)
    (multer : bool) (H : Jwt.Payload -> Outcome -> Prop) : Outcome -> Prop :=
| Guard_unauthenticated res :
    authenticateToken lib env (incoming w) = inl res ->
    status res = 401 \/ status res = 403 ->
    Protected lib env w d multer H (mkOutcome res d [])
| Guard_upload_rejected b :
    authenticatedAs lib env w b ->
    multer = true ->
    uploadAccepted lib w = false ->
    Protected lib env w d multer H (mkOutcome (mkResponse 500 ErrorPage) d [])
| Guard_handled b o :
    authenticatedAs lib env w b ->
    (multer = true -> uploadAccepted lib w = true) ->
    H b o ->
    Protected lib env w d multer H o.


(** ** The routes that only read *)

(** The answers these routes add to those of [Response]: the user of
    [GET /api/auth/verify] and the array of [GET /api/posts], both sent
    with status 200. *)
Inductive Reply :=
| Answered (res : Response)
| VerifiedUser (user : UserView)
| PostList (posts : list (BlogPost.t * option (ObjectId * string))).

Definition replyStatus (r : Reply) : Z :=
  match r with
  | Answered res => status res
  | VerifiedUser _ => 200
  | PostList _ => 200
  end.

(** The handler of [GET /api/auth/verify]; the projection
    [select("username email _id")] keeps what [userView] shows. *)
Definition verifyUser (lib : Library) (req : Request) : Async Reply :=
  try_catch
    (id <- req_user_id req ;;
     user <- User_findById_value lib id ;;
     match user with
     | None => ret (Answered (mkResponse 404 (Message "User not found")))
     | Some user => ret (VerifiedUser (userView user))
     end)
    (fun _ =>
       ret (Answered
              (mkResponse 500 (Message "Server error during token verification")))).

(** [sort({ createdAt: -1 })]: newest first.  MongoDB does not fix the
    order of two posts created at the same instant; here they keep the order
    of insertion. *)
Fixpoint insertNewestFirst (p : BlogPost.t) (l : list BlogPost.t)
    : list BlogPost.t :=
  match l with
  | [] => [p]
  | q :: r =>
      if BlogPost.createdAt p <? BlogPost.createdAt q
      then q :: insertNewestFirst p r
      else p :: q :: r
  end.

Fixpoint sortNewestFirst (l : list BlogPost.t) : list BlogPost.t :=
  match l with
  | [] => []
  | p :: r => insertNewestFirst p (sortNewestFirst r)
  end.

(** [BlogPost.find().populate("author", "username").sort({ createdAt: -1 })]. *)
Definition BlogPost_find_sorted
    : Async (list (BlogPost.t * option (ObjectId * string))) :=
  d <- getStore ;;
  ret (map (fun p => (p, populate d p)) (sortNewestFirst (posts d))).

(** The handler of [GET /api/posts]. *)
Definition listPosts : Async Reply :=
  try_catch
    (posts <- BlogPost_find_sorted ;;
     ret (PostList posts))
    (fun _ =>
       ret (Answered (mkResponse 500 (Message "Server error fetching posts")))).

(** The handler of [POST /api/auth/logout]. *)
Definition logout : Async Reply :=
  ret (Answered (mkResponse 200 (Message "Logout successful"))).

Inductive ReadRoute :=
| GET_verify
| GET_posts
| POST_logout.

(** The middleware chain registered for each of them. *)
Definition dispatchRead (lib : Library) (r : ReadRoute) (env : Env)
    (req : Request) : Async Reply :=
  match r with
  | GET_verify =>
      match authenticateToken lib env req with
      | inl res => ret (Answered res)
      | inr req' => verifyUser lib req'
      end
  | GET_posts => listPosts
  | POST_logout => logout
  end.

Record ReadOutcome := mkReadOutcome {
  reply : Reply;
  store_after : Store;
  calls_after : list Event
}.

(** One request to such a route, served against the database [d]. *)
Definition serveRead (lib : Library) (r : ReadRoute) (env : Env) (w : Wire)
    (d : Store) : ReadOutcome :=
  match dispatchRead lib r env (incoming w) (mkSys d []) with
  | (Normal rep, s) => mkReadOutcome rep (db s) (trace s)
  | (Throw e, s) =>
      mkReadOutcome (Answered (defaultErrorHandler e)) (db s) (trace s)
  end.

(** *** More vocabulary *)

(** The string has no space in it. *)
Fixpoint noSpace (s : string) : bool :=
  match s with
  | EmptyString => true
  | String c r => (negb (Ascii.eqb c " ") && noSpace r)%bool
  end.

(** The token that [jwt_sign] serialises. *)
Definition issued (lib : Library) (claim_id claim_username secret : string)
    (now : Z) : Jwt.Token :=
  let payload :=
    Jwt.mkPayload claim_id claim_username (now / 1000) (now / 1000 + expiresIn) in
  let input := jws_input lib payload in
  Jwt.mkToken input payload (hmac lib secret input).

(** No two stored users share an email, and no two share a username. *)
Definition uniqueIdentities (d : Store) : Prop :=
  NoDup (map User.email (users d)) /\ NoDup (map User.username (users d)).

(** No two stored posts share an identifier. *)
Definition uniquePosts (d : Store) : Prop :=
  NoDup (map BlogPost._id (posts d)).

(** A multipart request with a bearer token. *)
Definition withBearer (token : string) (id : string)
    (l : list (string * string)) (part : option File) : Wire :=
  mkWire [("authorization", "Bearer " ++ token)] id None
         (Some (mkForm (Demo.strings l) part)).

(** ** Further requests of the example *)



(** The request that sends back the token Carol's signup answered with. *)
Definition carol_token : string :=
  jwt_sign Demo.lib (toString Demo.fresh_id) "carol" "fallback_secret"
           1700000000000.

Definition carol_view : UserView :=
  mkUserView Demo.fresh_id "carol" "c@x.com".

Definition later : Env :=
  mkEnv None 1700000100000 7 "s4" (mkObjectId "65c000000000000000000002")
        (fun _ _ => inr Demo.url).

(** * Properties *)

(** ** Tactics *)

(** Unfold the monad. *)
Ltac async :=
  cbv [bind ret throw try_catch getStore putStore emit destructure] in *.

(** Split on the innermost scrutinee of the goal. *)
Ltac break :=
  match goal with
  | |- context [match ?x with _ => _ end] =>
      lazymatch x with
      | context [match _ with _ => _ end] => fail
      | _ => destruct x eqn:?
      end
  end.

(** ** Lists and identifiers *)

Lemma ObjectId_eqb_eq (a b : ObjectId) : ObjectId_eqb a b = true <-> a = b.
Proof.
  unfold ObjectId_eqb. destruct a as [x], b as [y]; simpl.
  rewrite String.eqb_eq. split; congruence.
Qed.

Lemma ObjectId_eqb_refl (a : ObjectId) : ObjectId_eqb a a = true.
Proof. now apply ObjectId_eqb_eq. Qed.

Lemma ObjectId_eqb_neq (a b : ObjectId) : ObjectId_eqb a b = false <-> a <> b.
Proof.
  rewrite <- ObjectId_eqb_eq. destruct (ObjectId_eqb a b); split; congruence.
Qed.

Lemma find_exists {A} (f : A -> bool) (l : list A) (x : A) :
  In x l -> f x = true -> exists y, find f l = Some y.
Proof.
  intros Hin Hf. destruct (find f l) as [y|] eqn:E; [eauto|].
  rewrite (find_none _ _ E _ Hin) in Hf. discriminate.
Qed.

Lemma find_snoc {A} (f : A -> bool) (l : list A) (x : A) :
  find f l = None -> f x = true -> find f (l ++ [x]) = Some x.
Proof.
  induction l as [|a l IH]; simpl.
  - now intros _ ->.
  - destruct (f a); [discriminate|]. exact IH.
Qed.

Lemma find_app_some {A} (f : A -> bool) (l l' : list A) (x : A) :
  find f l = Some x -> find f (l ++ l') = Some x.
Proof.
  induction l as [|a l IH]; simpl; [discriminate|].
  destruct (f a); auto.
Qed.

Lemma findPost_existsb oid l :
  existsb (fun x => ObjectId_eqb (BlogPost._id x) oid) l = false <->
  findPost oid l = None.
Proof.
  unfold findPost. induction l as [|a l IH]; simpl; [tauto|].
  destruct (ObjectId_eqb (BlogPost._id a) oid); simpl; [split; discriminate|].
  exact IH.
Qed.

(** What [updateFirst] does to a lookup, for an update that keeps [_id]. *)
Lemma findPost_updateFirst oid oid0 f l :
  (forall p, BlogPost._id (f p) = BlogPost._id p) ->
  findPost oid (updateFirst oid0 f l)
  = if ObjectId_eqb oid oid0 then option_map f (findPost oid l)
    else findPost oid l.
Proof.
  intros Hf. unfold findPost.
  induction l as [|a l IH]; simpl.
  - now destruct (ObjectId_eqb oid oid0).
  - destruct (ObjectId_eqb (BlogPost._id a) oid0) eqn:E0; simpl.
    + rewrite Hf. apply ObjectId_eqb_eq in E0. rewrite E0.
      destruct (ObjectId_eqb oid oid0) eqn:E.
      * apply ObjectId_eqb_eq in E. subst oid.
        now rewrite ObjectId_eqb_refl.
      * assert (ObjectId_eqb oid0 oid = false) as ->; [|reflexivity].
        apply ObjectId_eqb_neq. apply ObjectId_eqb_neq in E. congruence.
    + destruct (ObjectId_eqb (BlogPost._id a) oid) eqn:E1.
      * apply ObjectId_eqb_eq in E1. subst oid. now rewrite E0.
      * exact IH.
Qed.

Lemma applyUpdate_id now t s c i p :
  BlogPost._id (applyUpdate now t s c i p) = BlogPost._id p.
Proof. reflexivity. Qed.

Lemma required_false v : required v = false <-> v = None \/ v = Some "".
Proof.
  destruct v as [s|]; cbn; [|intuition].
  rewrite negb_false_iff, String.eqb_eq. intuition congruence.
Qed.

Lemma required_true v : required v = true <-> exists s, v = Some s /\ s <> "".
Proof.
  destruct v as [s|]; cbn.
  - rewrite negb_true_iff, String.eqb_neq. split; [eauto|].
    intros (s' & E & H). congruence.
  - split; [discriminate|]. intros (s' & E & _). discriminate.
Qed.

(** [a === b] holds of a string and of nothing else. *)
Lemma strictEq_true a b : strictEq a b = true <-> b = Some (VString a).
Proof.
  unfold strictEq. destruct b as [[s| | | | |]|]; try (split; discriminate).
  rewrite String.eqb_eq. split; congruence.
Qed.

Lemma strictEq_identifies b a :
  strictEq (toString a) (Jwt.id b) = true <-> identifies b a.
Proof. apply strictEq_true. Qed.

(** A value that passes as a required path casts to a string that is not
    empty. *)
Lemma requiredPath_true lib v :
  requiredPath lib v = true <->
  exists s, documentPath lib v = Casted (Some s) /\ s <> "".
Proof.
  unfold requiredPath. destruct (documentPath lib v) as [|x].
  - split; [discriminate|]. intros (s & E & _). discriminate.
  - rewrite required_true. split; intros (s & E & N); exists s; split;
      congruence.
Qed.

(** ** The middlewares *)

Section Middlewares.

Variable lib : Library.

Lemma authenticateToken_next env req req' :
  authenticateToken lib env req = inr req' ->
  exists token payload,
    getTokenFromHeader req = Some token /\ token <> "" /\
    jwt_verify lib token (signingSecret env) (Date_now env) = inr payload /\
    req' = mkRequest (wire req) (body req) (Some payload) (file req).
Proof.
  unfold authenticateToken. intros H.
  destruct (getTokenFromHeader req) as [token|] eqn:Ht; [|discriminate].
  destruct (negb (truthy (Some token))) eqn:Hn; [discriminate|].
  destruct (jwt_verify lib token (signingSecret env) (Date_now env))
    as [e|payload] eqn:Hv; [discriminate|].
  exists token, payload. repeat split; try congruence.
  intros ->. simpl in Hn. discriminate.
Qed.

Lemma authenticateToken_reject env req res :
  authenticateToken lib env req = inl res ->
  res = mkResponse 401 (Message "Access token required") \/
  res = mkResponse 403 (Message "Invalid or expired token").
Proof.
  unfold authenticateToken.
  repeat break; intros H; inversion H; auto.
Qed.

Lemma authenticateToken_incoming env w req' :
  authenticateToken lib env (incoming w) = inr req' ->
  exists b, req' = mkRequest w (parsed_body w) (Some b) None.
Proof.
  intros H. apply authenticateToken_next in H as (t & b & _ & _ & _ & ->).
  now exists b.
Qed.

Lemma uploadAccepted_true w u :
  uploadAccepted lib w = true ->
  upload_single lib (mkRequest w (parsed_body w) u None)
  = inr (mkRequest w (formBody w) u (multipart_image w)).
Proof.
  unfold uploadAccepted, upload_single, multipart_image, formBody; simpl.
  destruct (multipart w) as [form|]; [|reflexivity].
  destruct (image form) as [f|]; [|reflexivity].
  rewrite andb_true_iff, negb_true_iff. now intros [-> ->].
Qed.

Lemma uploadAccepted_false w u :
  uploadAccepted lib w = false ->
  exists err, upload_single lib (mkRequest w (parsed_body w) u None) = inl err.
Proof.
  unfold uploadAccepted, upload_single, multipart_image; simpl.
  destruct (multipart w) as [form|]; [|discriminate].
  destruct (image form) as [f|]; [|discriminate].
  destruct (fileFilter f); simpl; [|eauto].
  rewrite negb_false_iff. intros ->. eauto.
Qed.

(** A part that passes has an image content type and at most 5 MiB. *)
Lemma uploadAccepted_part w f :
  multipart_image w = Some f ->
  uploadAccepted lib w = true ->
  startsWith (mimetype f) "image/" = true
  /\ byteLength (buffer f) <= 5 * 1024 * 1024.
Proof.
  intros Hf. unfold uploadAccepted, limitReached, fileFilter, fileSize.
  rewrite Hf, andb_true_iff, negb_true_iff, orb_false_iff, Z.ltb_ge.
  tauto.
Qed.

(** A part of another content type, or of more than 5 MiB, does not. *)
Lemma uploadAccepted_rejects w f :
  multipart_image w = Some f ->
  startsWith (mimetype f) "image/" = false
  \/ 5 * 1024 * 1024 < byteLength (buffer f) ->
  uploadAccepted lib w = false.
Proof.
  intros Hf Hbad. destruct (uploadAccepted lib w) eqn:E; [|reflexivity].
  apply (uploadAccepted_part w f Hf) in E as [Hm Hs].
  destruct Hbad as [Hbad | Hbad]; [congruence | lia].
Qed.


(** A route behind the two middlewares ends in one of three ways. *)
Lemma protected_upload (h : Request -> Async Response) env w d :
  Protected lib env w d true
    (fun b o =>
       o = outcome (h (mkRequest w (formBody w) (Some b) (multipart_image w))) d)
    (outcome (authenticated lib env (incoming w)
                (fun req1 => uploading lib req1 h)) d).
Proof.
  unfold authenticated, uploading.
  destruct (authenticateToken lib env (incoming w)) as [res|req1] eqn:Ha.
  - apply Guard_unauthenticated; [exact Ha|].
    apply authenticateToken_reject in Ha as [-> | ->]; auto.
  - destruct (authenticateToken_incoming _ _ _ Ha) as [b ->].
    destruct (uploadAccepted lib w) eqn:Hu.
    + rewrite (uploadAccepted_true _ _ Hu).
      now apply Guard_handled with (b := b).
    + destruct (uploadAccepted_false _ (Some b) Hu) as [err ->].
      now apply Guard_upload_rejected with (b := b).
Qed.

Lemma protected_plain (h : Request -> Async Response) env w d :
  Protected lib env w d false
    (fun b o => o = outcome (h (mkRequest w (parsed_body w) (Some b) None)) d)
    (outcome (authenticated lib env (incoming w) h) d).
Proof.
  unfold authenticated.
  destruct (authenticateToken lib env (incoming w)) as [res|req1] eqn:Ha.
  - apply Guard_unauthenticated; [exact Ha|].
    apply authenticateToken_reject in Ha as [-> | ->]; auto.
  - destruct (authenticateToken_incoming _ _ _ Ha) as [b ->].
    apply Guard_handled with (b := b); [exact Ha|discriminate|reflexivity].
Qed.

End Middlewares.

(** ** The handlers *)

Lemma BlogPost_save_cases lib env title subtitle content imageUrl author s :
  (exists e,
      BlogPost_save lib env title subtitle content imageUrl author s
      = (Throw e, s))
  \/ (exists t sub c a,
        documentPath lib title = Casted (Some t) /\ t <> ""
        /\ documentPath lib subtitle = Casted sub
        /\ documentPath lib content = Casted (Some c) /\ c <> ""
        /\ castAuthor lib author = Some a
        /\ findPost (new_ObjectId env) (posts (db s)) = None
        /\ let p := BlogPost.mk (new_ObjectId env) (Some t) sub (Some c)
                                (Some imageUrl) a
                                (Date_now env) (Date_now env) in
           BlogPost_save lib env title subtitle content imageUrl author s
           = (Normal p,
              mkSys (mkStore (users (db s)) (posts (db s) ++ [p])) (trace s))).
Proof.
  unfold BlogPost_save. async.
  destruct (documentPath lib title) as [|[t|]]; try (left; eauto; fail).
  destruct (documentPath lib subtitle) as [|sub]; try (left; eauto; fail).
  destruct (documentPath lib content) as [|[c|]]; try (left; eauto; fail).
  destruct (castAuthor lib author) as [a|]; [|left; eauto].
  destruct (required (Some t)) eqn:Rt; [|left; cbn [andb]; eauto].
  destruct (required (Some c)) eqn:Rc; [|left; cbn [andb]; eauto].
  cbn [andb].
  destruct (existsb _ (posts (db s))) eqn:Hex; [left; eauto|].
  apply required_true in Rt as (t' & Et & Nt). inversion Et; subst t'.
  apply required_true in Rc as (c' & Ec & Nc). inversion Ec; subst c'.
  apply findPost_existsb in Hex.
  right. exists t, sub, c, a. repeat (split; [assumption || reflexivity|]).
  reflexivity.
Qed.

Lemma createPost_Created lib env w b d :
  Created lib env w b d
    (outcome
       (createPost lib env
          (mkRequest w (formBody w) (Some b) (multipart_image w))) d).
Proof.
  unfold outcome, createPost, uploadOrFail, uploadToCloudinary, req_user_id.
  cbn [wire body user file].
  destruct (formBody w) as [o|] eqn:Hbody; [|async; now apply Create_no_body].
  assert (Hsome : formBody w <> None) by congruence.
  assert (Hsave : forall imageUrl tr,
    ImageStep env (Some "") (multipart_image w) (inr (Some imageUrl)) tr ->
    Created lib env w b d
      (let (c, s) :=
         let (c, s') :=
           let (c, s') :=
             BlogPost_save lib env (prop o "title") (prop o "subtitle")
               (prop o "content") imageUrl (Jwt.id b) (mkSys d tr) in
           match c with
           | Normal a =>
               (Normal (mkResponse 201 (Post a (populate (db s') a))), s')
           | Throw e => (Throw e, s')
           end in
         match c with
         | Normal a => (Normal a, s')
         | Throw _ =>
             (Normal (mkResponse 500 (Message "Server error creating post")), s')
         end in
       match c with
       | Normal res => mkOutcome res (db s) (trace s)
       | Throw e => mkOutcome (defaultErrorHandler e) (db s) (trace s)
       end)).
  { intros imageUrl tr Hi.
    destruct (BlogPost_save_cases lib env (prop o "title") (prop o "subtitle")
                (prop o "content") imageUrl (Jwt.id b) (mkSys d tr))
      as [[e ->] | (t & sub & c & a & Ht & Nt & Hs & Hc & Nc & Ha & Hn & ->)].
    - now apply Create_save_failed with (img := Some imageUrl).
    - cbn [db trace].
      apply (Create_saved lib env w b d imageUrl tr t sub c a); auto;
        rewrite Hbody; assumption. }
  async. cbn [db trace].
  destruct (multipart_image w) as [f|] eqn:Hf.
  - destruct (upload_stream env (uploadOptions env) (buffer f)) as [e|url] eqn:E;
      cbn [db trace app].
    + apply Create_upload_failed with (error := e); [exact Hsome|].
      rewrite Hf. now constructor.
    + apply Hsave. now constructor.
  - apply Hsave. constructor.
Qed.

Lemma castUpdate_cases lib title subtitle content :
  castUpdate lib title subtitle content = None
  \/ exists t s c, castUpdate lib title subtitle content = Some (t, s, c).
Proof.
  destruct (castUpdate lib title subtitle content) as [[[t s] c]|]; eauto.
Qed.

Lemma updatePost_Updated lib env w b d :
  Updated lib env w b d
    (outcome
       (updatePost lib env
          (mkRequest w (formBody w) (Some b) (multipart_image w))) d).
Proof.
  unfold outcome, updatePost, BlogPost_findById, BlogPost_findByIdAndUpdate,
    req_user_id, uploadOrFail, uploadToCloudinary.
  cbn [wire body user file].
  destruct (formBody w) as [o|] eqn:Hbody; [|async; now apply Update_no_body].
  assert (Hsome : formBody w <> None) by congruence.
  async.
  destruct (castObjectId (params_id w)) as [oid|] eqn:Hc;
    [|now apply Update_cast_error].
  cbn [db trace].
  destruct (findPost oid (posts d)) as [post|] eqn:Hp;
    [|now apply Update_not_found with (oid := oid)].
  destruct (strictEq (toString (BlogPost.author post)) (Jwt.id b)) eqn:Ho;
    cbn [negb];
    [apply strictEq_identifies in Ho
    |apply Update_forbidden with oid post; auto;
     rewrite <- strictEq_identifies; congruence].
  assert (Hend : forall imageUrl tr,
    ImageStep env (BlogPost.imageUrl post) (multipart_image w) (inr imageUrl) tr ->
    Updated lib env w b d
      (let (c, s) :=
         let (c, s') :=
           let (c, s') :=
             match castUpdate lib (prop o "title") (prop o "subtitle")
                     (prop o "content") with
             | Some (t, s, c) =>
                 fun s0 : Sys =>
                   (Normal
                      (findPost oid
                         (updateFirst oid
                            (applyUpdate (Date_now env) t s c imageUrl)
                            (posts (db s0)))),
                    mkSys
                      (mkStore (users (db s0))
                         (updateFirst oid
                            (applyUpdate (Date_now env) t s c imageUrl)
                            (posts (db s0))))
                      (trace s0))
             | None => fun s0 : Sys => (Throw "CastError", s0)
             end (mkSys d tr) in
           match c with
           | Normal a =>
               (Normal
                  (mkResponse 200
                     match a with
                     | Some p => Post p (populate (db s') p)
                     | None => Null
                     end), s')
           | Throw e => (Throw e, s')
           end in
         match c with
         | Normal a => (Normal a, s')
         | Throw _ =>
             (Normal (mkResponse 500 (Message "Server error updating post")), s')
         end in
       match c with
       | Normal res => mkOutcome res (db s) (trace s)
       | Throw e => mkOutcome (defaultErrorHandler e) (db s) (trace s)
       end)).
  { intros imageUrl tr Hi.
    destruct (castUpdate lib (prop o "title") (prop o "subtitle")
                (prop o "content")) as [[[t s] c]|] eqn:Hu; cbn [db trace].
    - apply (Update_done lib env w b d oid post imageUrl tr t s c); auto.
      rewrite Hbody. exact Hu.
    - apply (Update_refused lib env w b d oid post imageUrl tr); auto.
      rewrite Hbody. exact Hu. }
  destruct (multipart_image w) as [f|] eqn:Hf.
  - destruct (upload_stream env (uploadOptions env) (buffer f)) as [e|url] eqn:E;
      cbn [db trace app].
    + apply Update_upload_failed with oid post e; auto.
      rewrite Hf. now constructor.
    + apply Hend. now constructor.
  - apply Hend. constructor.
Qed.

Lemma deletePost_Deleted w b d :
  Deleted w b d
    (outcome (deletePost (mkRequest w (parsed_body w) (Some b) None)) d).
Proof.
  unfold outcome, deletePost, BlogPost_findById, BlogPost_findByIdAndDelete,
    req_user_id.
  cbn [wire user file]. async.
  destruct (castObjectId (params_id w)) as [oid|] eqn:Hc;
    [|now apply Delete_cast_error].
  cbn [db trace].
  destruct (findPost oid (posts d)) as [post|] eqn:Hp;
    [|now apply Delete_not_found with (oid := oid)].
  destruct (strictEq (toString (BlogPost.author post)) (Jwt.id b)) eqn:Ho;
    cbn [negb];
    [apply strictEq_identifies in Ho
    |apply Delete_forbidden with oid post; auto;
     rewrite <- strictEq_identifies; congruence].
  cbn [db trace]. now apply Delete_done with post.
Qed.

Lemma getPost_Fetched w d :
  Fetched w d (outcome (getPost (incoming w)) d).
Proof.
  unfold outcome, getPost, BlogPost_findById. cbn [incoming wire]. async.
  destruct (castObjectId (params_id w)) as [oid|] eqn:Hc;
    [|now apply Fetch_cast_error].
  cbn [db trace].
  destruct (findPost oid (posts d)) as [post|] eqn:Hp.
  - now apply Fetch_found with oid.
  - now apply Fetch_not_found with oid.
Qed.

Lemma indexesAllow_existsb d oid u e :
  existsb (fun x => (ObjectId_eqb (User._id x) oid
                     || String.eqb (User.username x) u
                     || String.eqb (User.email x) e)%bool) (users d) = false
  <-> indexesAllow d oid u e.
Proof.
  unfold indexesAllow. split.
  - intros H x Hin.
    assert (Hx : (ObjectId_eqb (User._id x) oid
                  || String.eqb (User.username x) u
                  || String.eqb (User.email x) e)%bool = false).
    { apply not_true_iff_false. intros E.
      rewrite <- not_true_iff_false in H. apply H.
      apply existsb_exists. now exists x. }
    apply orb_false_iff in Hx as [Hx N3]. apply orb_false_iff in Hx as [N1 N2].
    apply ObjectId_eqb_neq in N1. apply String.eqb_neq in N2, N3. auto.
  - intros H. apply not_true_iff_false. intros Hex.
    apply existsb_exists in Hex as (x & Hin & Hx).
    destruct (H x Hin) as (N1 & N2 & N3).
    apply ObjectId_eqb_neq in N1. apply String.eqb_neq in N2, N3.
    rewrite N1, N2, N3 in Hx. discriminate.
Qed.

Lemma User_save_cases lib env username email password s :
  (exists e, User_save lib env username email password s = (Throw e, s))
  \/ (exists u e,
        documentPath lib username = Casted (Some u) /\ u <> ""
        /\ documentPath lib email = Casted (Some e) /\ e <> ""
        /\ indexesAllow (db s) (new_ObjectId env) u e
        /\ let doc := User.mk (new_ObjectId env) u e password
                              (Date_now env) (Date_now env) in
           User_save lib env username email password s
           = (Normal doc,
              mkSys (mkStore (users (db s) ++ [doc]) (posts (db s))) (trace s))).
Proof.
  unfold User_save. async.
  destruct (documentPath lib username) as [|[u|]]; try (left; eauto; fail).
  destruct (documentPath lib email) as [|[e|]]; try (left; eauto; fail).
  destruct (required (Some u)) eqn:Ru; [|left; cbn [andb]; eauto].
  destruct (required (Some e)) eqn:Re; [|left; cbn [andb]; eauto].
  destruct (required (Some password)); [|left; cbn [andb]; eauto].
  cbn [andb].
  destruct (existsb _ (users (db s))) eqn:Hex; [left; eauto|].
  apply required_true in Ru as (u' & Eu & Nu). inversion Eu; subst u'.
  apply required_true in Re as (e' & Ee & Ne). inversion Ee; subst e'.
  apply indexesAllow_existsb in Hex.
  right. exists u, e. repeat (split; [assumption || reflexivity|]).
  reflexivity.
Qed.

Section Accounts.

Variable lib : Library.

Lemma signup_SignedUp env w d :
  SignedUp lib env w d (serve lib POST_signup env w d).
Proof.
  unfold serve, dispatch, outcome, signup, User_findOne, bcrypt_hash_async.
  cbn [incoming wire body].
  destruct (parsed_body w) as [o|] eqn:Hbody.
  2: { async. apply Signup_failed. rewrite Hbody. cbn.
       intros f E. inversion E. induction (users d) as [|a l IH]; cbn; auto. }
  async.
  destruct (byEmailOrUsername lib (prop o "email") (prop o "username"))
    as [f|] eqn:Hf.
  2: { apply Signup_failed. rewrite Hbody. cbn [field]. congruence. }
  cbn [db trace].
  destruct (find f (users d)) as [x|] eqn:Hfind.
  { apply Signup_duplicate with f x; [rewrite Hbody; exact Hf|exact Hfind]. }
  assert (Hfail : SignedUp lib env w d
            (mkOutcome (mkResponse 500 (Message "Server error during signup"))
               d [])).
  { apply Signup_failed. rewrite Hbody. cbn [field]. congruence. }
  destruct (prop o "password") as [[p| | | | |]|] eqn:Hp; try exact Hfail.
  destruct (User_save_cases lib env (prop o "username") (prop o "email")
              (bcrypt_hash lib p 10 (genSalt env)) (mkSys d []))
    as [[e ->] | (u & e & Hu & Nu & He & Ne & Hi & ->)].
  - exact Hfail.
  - cbn [db trace].
    apply (Signup_created lib env w d f u e p); auto;
      rewrite Hbody; cbn [field]; assumption.
Qed.

Lemma login_LoggedIn env w d :
  LoggedIn lib env w d (serve lib POST_login env w d).
Proof.
  unfold serve, dispatch, outcome, login, User_findOne, bcrypt_compare_async.
  cbn [incoming wire body].
  destruct (parsed_body w) as [o|] eqn:Hbody;
    [|async; now apply Login_no_body].
  assert (Hsome : parsed_body w <> None) by congruence.
  async.
  destruct (byEmail lib (prop o "email")) as [f|] eqn:Hf.
  2: { apply Login_cast_error; [exact Hsome|]. rewrite Hbody. exact Hf. }
  cbn [db trace].
  destruct (find f (users d)) as [u|] eqn:Hfind.
  2: { apply Login_unknown with f; auto. rewrite Hbody. exact Hf. }
  assert (Hfail :
    (forall p, prop o "password" <> Some (VString p)) ->
    LoggedIn lib env w d
      (mkOutcome (mkResponse 500 (Message "Server error during login")) d [])).
  { intros Hn. apply Login_failed with f u; auto; rewrite Hbody; auto. }
  destruct (prop o "password") as [[p| | | | |]|] eqn:Hp;
    try (apply Hfail; intros p' E; discriminate E).
  destruct (bcrypt_compare lib p (User.password u)) eqn:Hcmp; cbn [negb].
  - apply Login_ok with f p; auto; rewrite Hbody; auto.
  - apply Login_mismatch with f u p; auto; rewrite Hbody; auto.
Qed.

End Accounts.

(** ** The routes *)

Section Routes.

Variable lib : Library.

Lemma serve_POST_posts env w d :
  Protected lib env w d true (fun b => Created lib env w b d)
    (serve lib POST_posts env w d).
Proof.
  unfold serve, dispatch.
  destruct (protected_upload lib (createPost lib env) env w d)
    as [res Ha Hs|b Ha Hm Hu|b o Ha Hu Ho].
  - now apply Guard_unauthenticated.
  - now apply Guard_upload_rejected with b.
  - apply Guard_handled with b; auto. subst o. apply createPost_Created.
Qed.

Lemma serve_PUT_post env w d :
  Protected lib env w d true (fun b => Updated lib env w b d)
    (serve lib PUT_post env w d).
Proof.
  unfold serve, dispatch.
  destruct (protected_upload lib (updatePost lib env) env w d)
    as [res Ha Hs|b Ha Hm Hu|b o Ha Hu Ho].
  - now apply Guard_unauthenticated.
  - now apply Guard_upload_rejected with b.
  - apply Guard_handled with b; auto. subst o. apply updatePost_Updated.
Qed.

Lemma serve_DELETE_post env w d :
  Protected lib env w d false (fun b => Deleted w b d)
    (serve lib DELETE_post env w d).
Proof.
  unfold serve, dispatch.
  destruct (protected_plain lib deletePost env w d)
    as [res Ha Hs|b Ha Hm Hu|b o Ha Hu Ho].
  - now apply Guard_unauthenticated.
  - discriminate.
  - apply Guard_handled with b; auto. subst o. apply deletePost_Deleted.
Qed.

Lemma serve_GET_post env w d :
  Fetched w d (serve lib GET_post env w d).
Proof. apply getPost_Fetched. Qed.

Lemma authenticatedAs_inj env w b b' :
  authenticatedAs lib env w b -> authenticatedAs lib env w b' -> b = b'.
Proof. unfold authenticatedAs. intros -> H. now inversion H. Qed.

Lemma authenticatedAs_not_rejected env w b res :
  authenticatedAs lib env w b ->
  authenticateToken lib env (incoming w) = inl res -> False.
Proof. unfold authenticatedAs. intros -> H. discriminate. Qed.

End Routes.

(** ** The image step *)

Lemma ImageStep_failed env keep fo error tr :
  ImageStep env keep fo (inl error) tr ->
  exists f, fo = Some f
            /\ tr = [CloudinaryUpload (uploadOptions env) (buffer f) (inl error)].
Proof. intros H. inversion H; subst. eauto. Qed.

Lemma ImageStep_passed env keep fo imageUrl tr :
  ImageStep env keep fo (inr imageUrl) tr ->
  existsb failedUpload tr = false.
Proof. intros H. inversion H; subst; reflexivity. Qed.

Lemma ImageStep_none env keep r tr :
  ImageStep env keep None r tr -> r = inr keep /\ tr = [].
Proof. intros H. inversion H; subst. auto. Qed.

Lemma ImageStep_calls env keep fo r tr e :
  ImageStep env keep fo r tr -> In e tr ->
  exists f result,
    fo = Some f /\ e = CloudinaryUpload (uploadOptions env) (buffer f) result.
Proof.
  intros H Hin. inversion H; subst; simpl in Hin; try tauto;
    destruct Hin as [<- | []]; eauto.
Qed.

Lemma split_empty sep : split sep "" = [""].
Proof. reflexivity. Qed.

Lemma getTokenFromHeader_incoming w :
  getTokenFromHeader (incoming w)
  = match authorization w with
    | Some h =>
        match split " " h with
        | [_; token] => Some token
        | _ => None
        end
    | None => None
    end.
Proof.
  unfold getTokenFromHeader, authorization. cbn [incoming wire].
  destruct (js_or _ _) as [h|]; [|reflexivity].
  destruct h; reflexivity.
Qed.

(** The email clause of signup's filter is the filter of login. *)
Lemma byEmail_of_or lib email username f :
  byEmailOrUsername lib email username = Some f ->
  exists g, clause lib email = Some g
            /\ byEmail lib email = Some (fun u => g (User.email u))
            /\ forall l, find f l = None ->
                         find (fun u => g (User.email u)) l = None.
Proof.
  unfold byEmailOrUsername, byEmail.
  destruct (clause lib email) as [g|]; [|discriminate].
  destruct (clause lib username) as [g'|]; [|discriminate].
  intros E. inversion E; subst f. exists g. split; [reflexivity|].
  split; [reflexivity|].
  induction l as [|a l IH]; simpl; [reflexivity|].
  destruct (g (User.email a)); simpl; [discriminate|].
  destruct (g' (User.username a)); [discriminate|]. exact IH.
Qed.

(** ** Time *)

(** The two comparisons [jwt.verify] makes with the clock. *)
Lemma notBefore_None payload clock :
  notBefore payload clock = None <->
  (forall v, Jwt.nbf payload = Some v ->
             exists nbf, v = VNumber nbf /\ (nbf <= clock)%Q).
Proof.
  unfold notBefore. destruct (Jwt.nbf payload) as [v|].
  - destruct v as [s|q|x| |l|o];
      try (split; [discriminate|]; intros H;
           destruct (H _ eq_refl) as (n & E & _); discriminate E).
    destruct (Qle_bool q clock) eqn:E.
    + split; [|reflexivity]. intros _ v Hv. inversion Hv; subst v.
      exists q. split; [reflexivity|]. now apply Qle_bool_iff.
    + split; [discriminate|]. intros H.
      destruct (H _ eq_refl) as (n & En & Hle). inversion En; subst n.
      apply Qle_bool_iff in Hle. congruence.
  - split; [discriminate|reflexivity].
Qed.

Lemma expired_None payload clock :
  expired payload clock = None <->
  (forall v, Jwt.exp payload = Some v ->
             exists exp, v = VNumber exp /\ (clock < exp)%Q).
Proof.
  unfold expired. destruct (Jwt.exp payload) as [v|].
  - destruct v as [s|q|x| |l|o];
      try (split; [discriminate|]; intros H;
           destruct (H _ eq_refl) as (n & E & _); discriminate E).
    destruct (Qle_bool q clock) eqn:E.
    + split; [discriminate|]. intros H.
      destruct (H _ eq_refl) as (n & En & Hlt). inversion En; subst n.
      apply Qle_bool_iff in E. apply Qlt_not_le in Hlt. contradiction.
    + split; [|reflexivity]. intros _ v Hv. inversion Hv; subst v.
      exists q. split; [reflexivity|]. apply Qnot_le_lt. intros Hle.
      apply Qle_bool_iff in Hle. congruence.
  - split; [discriminate|reflexivity].
Qed.

(** On whole seconds the comparison is that of the integers. *)
Lemma Qle_bool_inject_Z a b : Qle_bool (inject_Z a) (inject_Z b) = (a <=? b).
Proof. unfold Qle_bool, inject_Z. cbn. now rewrite !Z.mul_1_r. Qed.

(** ** Theorems *)

Section Theorems.

Variable lib : Library.

(** C1.  On the create and the update route, when a call to the storage
    provider comes back with an error the answer is 500, the database is
    what it was before the request, and the request carried an image.  More
    generally, a request whose image the storage provider does not take
    never changes the database, whether or not the upload is reached, and
    is answered with an error. *)
Theorem upload_failure_aborts_write (r : Route) env w d :
  r = POST_posts \/ r = PUT_post ->
  (existsb failedUpload (calls (serve lib r env w d)) = true ->
   response (serve lib r env w d)
   = mkResponse 500 (Message "Failed to upload image")
   /\ store (serve lib r env w d) = d
   /\ exists f, multipart_image w = Some f)
  /\ (forall f error,
        multipart_image w = Some f ->
        upload_stream env (uploadOptions env) (buffer f) = inl error ->
        store (serve lib r env w d) = d
        /\ 400 <= status (response (serve lib r env w d))).
Proof.
  intros Hr. split.
  - destruct Hr as [-> | ->].
    + destruct (serve_POST_posts lib env w d) as [res Ha Hs|b Ha Hm Hu|b o Ha Hu Ho];
        cbn [calls existsb]; try discriminate.
      destruct Ho as [Hb|e tr Hb Hi|img tr Hb Hi|img tr t sub c a Hb Hi];
        cbn [calls response store existsb]; try discriminate;
        try (rewrite (ImageStep_passed _ _ _ _ _ Hi); discriminate).
      apply ImageStep_failed in Hi as (f & Hf & _). eauto.
    + destruct (serve_PUT_post lib env w d) as [res Ha Hs|b Ha Hm Hu|b o Ha Hu Ho];
        cbn [calls existsb]; try discriminate.
      destruct Ho as [Hb|Hb Hc|oid Hb Hc Hp|oid post Hb Hc Hp Hn
                     |oid post e tr Hb Hc Hp Ho Hi
                     |oid post img tr Hb Hc Hp Ho Hi Hu'
                     |oid post img tr t s c Hb Hc Hp Ho Hi Hu'];
        cbn [calls response store existsb];
        try discriminate;
        try (rewrite (ImageStep_passed _ _ _ _ _ Hi); discriminate).
      apply ImageStep_failed in Hi as (f & Hf & _). eauto.
  - intros f error Hf Hdown.
    assert (Hstep : forall keep img tr,
              ImageStep env keep (multipart_image w) (inr img) tr -> False).
    { intros keep img tr Hi. rewrite Hf in Hi. inversion Hi; subst. congruence. }
    destruct Hr as [-> | ->].
    + destruct (serve_POST_posts lib env w d)
        as [res Ha [Hs|Hs]|b Ha Hm Hu|b o Ha Hu Ho]; cbn [response store status];
        try (rewrite Hs); try (split; [reflexivity|lia]).
      destruct Ho as [Hb|e tr Hb Hi|img tr Hb Hi|img tr t sub c a Hb Hi];
        cbn [response store status];
        try (split; [reflexivity|lia]).
      destruct (Hstep _ _ _ Hi).
    + destruct (serve_PUT_post lib env w d)
        as [res Ha [Hs|Hs]|b Ha Hm Hu|b o Ha Hu Ho]; cbn [response store status];
        try (rewrite Hs); try (split; [reflexivity|lia]).
      destruct Ho as [Hb|Hb Hc|oid Hb Hc Hp|oid post Hb Hc Hp Hn
                     |oid post e tr Hb Hc Hp Ho Hi
                     |oid post img tr Hb Hc Hp Ho Hi Hu'
                     |oid post img tr t s c Hb Hc Hp Ho Hi Hu'];
        cbn [response store status];
        try (split; [reflexivity|lia]);
        destruct (Hstep _ _ _ Hi).
Qed.


(** C3, as amended.  [authenticateToken] lets a request through, with the
    payload of its token in [req.user], exactly when the token parses, its
    signature is the one the signing secret gives to its signed text, the
    clock, in whole seconds, is before its expiry if it has one, and has
    reached its not-before time if it has one; it answers every other
    request itself.  The signing secret is the configured one, or the
    fallback constant when none is configured or the configured one is
    empty.  A token this server issues has its expiry 24 hours after its
    time of issue and no not-before time, and the tokens answered by signup
    and login are issued with the signing secret at the time of the
    request. *)
Theorem token_accepted_iff env w :
  (forall b,
      authenticatedAs lib env w b <->
      exists t,
        carries lib w t /\ Jwt.payload t = b
        /\ signatureVerifies lib (signingSecret env) t
        /\ (forall v, Jwt.exp b = Some v ->
                      exists exp,
                        v = VNumber exp
                        /\ (clockTimestamp (Date_now env) < exp)%Q)
        /\ (forall v, Jwt.nbf b = Some v ->
                      exists nbf,
                        v = VNumber nbf
                        /\ (nbf <= clockTimestamp (Date_now env))%Q))
  /\ (passesAuthentication lib env w \/ authenticationFailure lib env w)
  /\ signingSecret env
     = match JWT_SECRET env with
       | Some s => if String.eqb s "" then "fallback_secret" else s
       | None => "fallback_secret"
       end
  /\ (forall i u secret now,
        exists t,
          jwt_sign lib i u secret now = jwt_encode lib t
          /\ Jwt.payload t
             = Jwt.mkPayload i u (now / 1000) (now / 1000 + 24 * 60 * 60)
          /\ Jwt.exp (Jwt.payload t)
             = Some (VNumber (inject_Z (now / 1000 + 24 * 60 * 60)))
          /\ Jwt.nbf (Jwt.payload t) = None
          /\ signatureVerifies lib secret t)
  /\ (forall r w' d message token u,
        json (response (serve lib r env w' d)) = Auth message token u ->
        token = jwt_sign lib (toString (view_id u)) (view_username u)
                         (signingSecret env) (Date_now env)).
Proof.
  split; [|split; [|split; [|split]]].
  - intros b. unfold authenticatedAs, carries, signatureVerifies.
    unfold authenticateToken. rewrite getTokenFromHeader_incoming.
    cbn [incoming wire body file].
    split.
    + destruct (authorization w) as [h|]; [|discriminate].
      destruct (split " " h) as [|scheme [|token [|x l]]] eqn:Hsplit;
        try discriminate.
      destruct (negb (truthy (Some token))) eqn:Ht; [discriminate|].
      unfold jwt_verify.
      destruct (jwt_decode lib token) as [t|] eqn:Hd; [|discriminate].
      destruct (String.eqb (Jwt.signature t) _) eqn:Hs; [|discriminate].
      destruct (notBefore _ _) as [e|] eqn:Hn; [discriminate|].
      destruct (expired _ _) as [e|] eqn:He; [discriminate|].
      intros E. inversion E; subst b. exists t.
      split.
      { exists h, scheme, token. repeat split; auto.
        intros ->. discriminate. }
      split; [reflexivity|]. split; [now apply String.eqb_eq|].
      split; [now apply expired_None|now apply notBefore_None].
    + intros (t & (h & scheme & token & -> & -> & Hne & Hd) & Hb & Hs & He & Hn).
      apply String.eqb_neq in Hne. cbn [truthy negb]. rewrite Hne. cbn [negb].
      unfold jwt_verify. rewrite Hd. rewrite Hs, String.eqb_refl.
      subst b. apply notBefore_None in Hn. apply expired_None in He.
      now rewrite Hn, He.
  - destruct (authenticateToken lib env (incoming w)) as [res|req'] eqn:Ha.
    + right. exists res. split; [exact Ha|].
      apply authenticateToken_reject in Ha as [-> | ->]; auto.
    + left. destruct (authenticateToken_incoming _ _ _ _ Ha) as [b Hb].
      exists b. unfold authenticatedAs. now rewrite Ha, Hb.
  - unfold signingSecret, js_or, truthy.
    destruct (JWT_SECRET env) as [s|]; [|reflexivity].
    destruct (String.eqb s ""); reflexivity.
  - intros i u secret now. unfold jwt_sign. eexists. split; [reflexivity|].
    cbn. repeat split.
  - intros r w' d message token u. destruct r.
    + destruct (signup_SignedUp lib env w' d); cbn; intros Ejson; inversion Ejson.
      reflexivity.
    + destruct (login_LoggedIn lib env w' d); cbn; intros Ejson; inversion Ejson.
      reflexivity.
    + destruct (serve_GET_post lib env w' d); cbn; intros E; discriminate E.
    + destruct (serve_POST_posts lib env w' d) as [res Ha Hs|b Ha Hm Hu|b o Ha Hu Ho].
      * apply authenticateToken_reject in Ha as [-> | ->]; cbn;
          intros E; discriminate E.
      * cbn; intros E; discriminate E.
      * destruct Ho; cbn; intros E; discriminate E.
    + destruct (serve_PUT_post lib env w' d) as [res Ha Hs|b Ha Hm Hu|b o Ha Hu Ho].
      * apply authenticateToken_reject in Ha as [-> | ->]; cbn;
          intros E; discriminate E.
      * cbn; intros E; discriminate E.
      * destruct Ho; cbn; try (intros E; discriminate E).
        break; intros E; discriminate E.
    + destruct (serve_DELETE_post lib env w' d) as [res Ha Hs|b Ha Hm Hu|b o Ha Hu Ho].
      * apply authenticateToken_reject in Ha as [-> | ->]; cbn;
          intros E; discriminate E.
      * cbn; intros E; discriminate E.
      * destruct Ho; cbn; intros E; discriminate E.
Qed.

(** A token the server issued verifies until its 24 hours are over, and not
    after, when the serialisation of tokens can be read back. *)
Lemma issued_token_lifetime env i u now :
  (forall t, jwt_decode lib (jwt_encode lib t) = Some t) ->
  jwt_verify lib (jwt_sign lib i u (signingSecret env) now)
             (signingSecret env) (Date_now env)
  = if now / 1000 + 24 * 60 * 60 <=? Date_now env / 1000
    then inl Jwt.TokenExpiredError
    else inr (Jwt.mkPayload i u (now / 1000) (now / 1000 + 24 * 60 * 60)).
Proof.
  intros Hcodec. unfold jwt_verify, jwt_sign. rewrite Hcodec.
  cbn [Jwt.signature Jwt.payload Jwt.signed]. rewrite String.eqb_refl.
  unfold notBefore, expired, clockTimestamp, Jwt.nbf, Jwt.exp, Jwt.mkPayload.
  cbn [prop String.eqb Ascii.eqb Bool.eqb]. rewrite Qle_bool_inject_Z.
  change expiresIn with (24 * 60 * 60).
  now destruct (now / 1000 + 24 * 60 * 60 <=? Date_now env / 1000).
Qed.

(** C4, as amended.  [authenticateToken] answers 401 when the Authorization
    header is absent or empty, when splitting it at single spaces does not
    give exactly two pieces, and when the second piece is empty; it answers
    403 when the second piece fails verification; otherwise it calls the
    next handler with the verified claims in [req.user].  The first piece
    is never looked at. *)
Theorem authenticateToken_cases env w :
  (authorization w = None \/ authorization w = Some "" ->
   authenticateToken lib env (incoming w)
   = inl (mkResponse 401 (Message "Access token required")))
  /\ (forall h,
        authorization w = Some h ->
        (forall scheme token, split " " h <> [scheme; token]) ->
        authenticateToken lib env (incoming w)
        = inl (mkResponse 401 (Message "Access token required")))
  /\ (forall h scheme,
        authorization w = Some h -> split " " h = [scheme; ""] ->
        authenticateToken lib env (incoming w)
        = inl (mkResponse 401 (Message "Access token required")))
  /\ (forall h scheme token e,
        authorization w = Some h -> split " " h = [scheme; token] ->
        token <> "" ->
        jwt_verify lib token (signingSecret env) (Date_now env) = inl e ->
        authenticateToken lib env (incoming w)
        = inl (mkResponse 403 (Message "Invalid or expired token")))
  /\ (forall h scheme token payload,
        authorization w = Some h -> split " " h = [scheme; token] ->
        token <> "" ->
        jwt_verify lib token (signingSecret env) (Date_now env) = inr payload ->
        authenticateToken lib env (incoming w)
        = inr (mkRequest w (parsed_body w) (Some payload) None))
  /\ (forall req',
        authenticateToken lib env (incoming w) = inr req' ->
        exists h scheme token payload,
          authorization w = Some h /\ split " " h = [scheme; token]
          /\ token <> ""
          /\ jwt_verify lib token (signingSecret env) (Date_now env) = inr payload
          /\ req' = mkRequest w (parsed_body w) (Some payload) None).
Proof.
  unfold authenticateToken. rewrite getTokenFromHeader_incoming.
  repeat split.
  - intros [-> | ->]; reflexivity.
  - intros h -> Hn.
    destruct (split " " h) as [|a [|t [|c l]]]; try reflexivity.
    destruct (Hn a t eq_refl).
  - intros h scheme -> ->. reflexivity.
  - intros h scheme token e -> -> Hne ->.
    apply String.eqb_neq in Hne. cbn. now rewrite Hne.
  - intros h scheme token payload -> -> Hne ->.
    apply String.eqb_neq in Hne. cbn. now rewrite Hne.
  - intros req'. destruct (authorization w) as [h|]; [|discriminate].
    destruct (split " " h) as [|a [|t [|c l]]] eqn:Hsplit; try discriminate.
    destruct (negb (truthy (Some t))) eqn:Ht; [discriminate|].
    destruct (jwt_verify lib t (signingSecret env) (Date_now env))
      as [e|payload] eqn:Hv; [discriminate|].
    intros H. inversion H; subst. exists h, a, t, payload.
    split; [reflexivity|]. split; [exact Hsplit|].
    split; [intros ->; discriminate|]. split; [exact Hv|reflexivity].
Qed.

(** What one update leaves of a post stored before it. *)
Lemma update_frame env w d oid p :
  findPost oid (posts d) = Some p ->
  findPost oid (posts (store (serve lib PUT_post env w d))) = Some p
  \/ exists t s c imageUrl,
       findPost oid (posts (store (serve lib PUT_post env w d)))
       = Some (applyUpdate (Date_now env) t s c imageUrl p)
       /\ (multipart_image w = None -> imageUrl = BlogPost.imageUrl p).
Proof.
  intros Hp.
  destruct (serve_PUT_post lib env w d) as [res Ha Hs|b Ha Hm Hu|b o Ha Hu Ho];
    cbn [store]; auto.
  destruct Ho as [Hn|Hn Hc|oid' Hn Hc Hp'|oid' post Hn Hc Hp' Hf
                 |oid' post e tr Hn Hc Hp' Ho Hi
                 |oid' post img tr Hn Hc Hp' Ho Hi Hu'
                 |oid' post img tr t s c Hn Hc Hp' Ho Hi Hu' posts' d'];
    [auto .. |]. subst d' posts'. cbn [store posts].
  rewrite findPost_updateFirst by apply applyUpdate_id.
  destruct (ObjectId_eqb oid oid') eqn:E; [|auto].
  apply ObjectId_eqb_eq in E. subst oid'. rewrite Hp. cbn [option_map].
  right. exists t, s, c, img. split; [reflexivity|].
  intros Hnone. rewrite Hnone in Hi. apply ImageStep_none in Hi as [Hi _].
  inversion Hi. congruence.
Qed.

(** C5.  After an update request that carries no image part, every post
    stored before the request is still stored, with the image reference it
    had. *)
Theorem update_without_image_keeps_reference env w d oid p :
  multipart_image w = None ->
  findPost oid (posts d) = Some p ->
  exists p',
    findPost oid (posts (store (serve lib PUT_post env w d))) = Some p'
    /\ BlogPost.imageUrl p' = BlogPost.imageUrl p.
Proof.
  intros Hnone Hp.
  destruct (update_frame env w d oid p Hp) as [H | (t & s & c & img & H & Hi)].
  - eauto.
  - exists (applyUpdate (Date_now env) t s c img p).
    split; [exact H|]. rewrite (Hi Hnone). cbn.
    now destruct (BlogPost.imageUrl p).
Qed.

(** C6, as amended.  A post has one owner, a field of its record; a post
    that is created gets as owner the identifier in the caller's verified
    claims; and an update keeps the identifier, the owner and the time of
    creation of every stored post: what it can change is the text fields,
    the image reference and the time of modification. *)
Theorem owner_is_immutable env w d :
  (forall oid p,
      findPost oid (posts d) = Some p ->
      exists p',
        findPost oid (posts (store (serve lib PUT_post env w d))) = Some p'
        /\ sameOwner p p')
  /\ (forall w',
        status (response (serve lib POST_posts env w' d)) = 201 ->
        exists b new,
          authenticatedAs lib env w' b
          /\ castAuthor lib (Jwt.id b) = Some (BlogPost.author new)
          /\ store (serve lib POST_posts env w' d)
             = mkStore (users d) (posts d ++ [new])
          /\ forall oid p,
               findPost oid (posts d) = Some p ->
               findPost oid (posts (store (serve lib POST_posts env w' d)))
               = Some p).
Proof.
  split.
  - intros oid p Hp.
    destruct (update_frame env w d oid p Hp) as [H | (t & s & c & img & H & _)].
    + exists p. split; [exact H|]. repeat split.
    + eexists. split; [exact H|]. repeat split.
  - intros w'.
    destruct (serve_POST_posts lib env w' d)
      as [res Ha [Hs|Hs]|b Ha Hm Hu|b o Ha Hu Ho]; cbn [response status];
      try (rewrite Hs); try discriminate.
    destruct Ho as [Hn|e tr Hn Hi|img tr Hn Hi
                   |img tr t sub c a Hn Hi Ht Nt Hsub Hc Nc Hcast Hnew new d'];
      cbn [response status store]; try discriminate.
    subst d'. intros _. exists b, new. split; [exact Ha|]. split; [exact Hcast|].
    split; [reflexivity|]. intros oid p Hp. cbn [posts].
    now apply find_app_some.
Qed.

(** C7.  After a signup answered 201, a login with the same email and the
    same password, on the database the signup left, is answered 200 with
    the user the signup created, and with a token signed for the same
    identifier and username.  The digest only has to verify against the
    password it was made from.  Nothing more is assumed of an email that
    is a string; of one that is not, that Mongoose's lookup by such a value
    selects the string it stores for it. *)
Theorem signup_then_login env1 env2 w1 w2 d :
  status (response (serve lib POST_signup env1 w1 d)) = 201 ->
  field (parsed_body w2) "email" = field (parsed_body w1) "email" ->
  field (parsed_body w2) "password" = field (parsed_body w1) "password" ->
  (forall password,
      field (parsed_body w1) "password" = Some (VString password) ->
      bcrypt_compare lib password (bcrypt_hash lib password 10 (genSalt env1))
      = true) ->
  (forall v selects email,
      field (parsed_body w1) "email" = Some v ->
      (forall s, v <> VString s) ->
      mongoose_queryString lib v = Some selects ->
      mongoose_castString lib OfDocument v = Casted (Some email) ->
      selects email = true) ->
  exists u,
    response (serve lib POST_signup env1 w1 d)
    = mkResponse 201
        (Auth "User created successfully"
           (jwt_sign lib (toString (User._id u)) (User.username u)
                     (signingSecret env1) (Date_now env1))
           (userView u))
    /\ response (serve lib POST_login env2 w2
                   (store (serve lib POST_signup env1 w1 d)))
       = mkResponse 200
           (Auth "Login successful"
              (jwt_sign lib (toString (User._id u)) (User.username u)
                        (signingSecret env2) (Date_now env2))
              (userView u))
    /\ store (serve lib POST_login env2 w2
                (store (serve lib POST_signup env1 w1 d)))
       = store (serve lib POST_signup env1 w1 d).
Proof.
  intros H201 Hemail Hpassword Hbcrypt Hother.
  assert (Hcast : forall selects email,
            clause lib (field (parsed_body w1) "email") = Some selects ->
            documentPath lib (field (parsed_body w1) "email")
            = Casted (Some email) ->
            selects email = true).
  { intros selects email.
    destruct (field (parsed_body w1) "email") as [v|] eqn:Ev; [|discriminate].
    destruct v as [s| | | | |];
      try (intros Hs He; apply (Hother _ selects email eq_refl);
           [intros s; discriminate|exact Hs|exact He]).
    cbn. intros Hs He. inversion Hs; inversion He; subst.
    apply String.eqb_refl. }
  destruct (signup_SignedUp lib env1 w1 d)
    as [f x Hf Hx|Hx|f un em pw Hf Hx Hun Nun Hem Nem Hpw Hidx u];
    cbn [response status] in H201; try discriminate.
  cbn [response store].
  exists u. split; [reflexivity|].
  destruct (byEmail_of_or lib _ _ f Hf) as (g & Hg & Hby & Hnone).
  assert (Hfind : find (fun u => g (User.email u)) (users d ++ [u]) = Some u).
  { apply find_snoc; [now apply Hnone|].
    cbn [User.email u]. now apply Hcast. }
  rewrite <- Hemail in Hby. rewrite <- Hpassword in Hpw.
  destruct (login_LoggedIn lib env2 w2 (mkStore (users d ++ [u]) (posts d)))
    as [Hn|Hn Hc|f' Hn Hf' Hu'|f' u' Hf' Hu' Hp|f' u' p Hf' Hu' Hp Hcmp
       |f' u' p Hf' Hu' Hp Hcmp]; cbn [users] in *.
  - rewrite Hn in Hpw. discriminate.
  - congruence.
  - rewrite Hby in Hf'. inversion Hf'; subst f'. congruence.
  - destruct (Hp pw Hpw).
  - rewrite Hby in Hf'. inversion Hf'; subst f'.
    rewrite Hfind in Hu'. inversion Hu'; subst u'.
    rewrite Hpw in Hp. inversion Hp; subst p.
    cbn [User.password u] in Hcmp. rewrite Hpassword in Hpw.
    rewrite (Hbcrypt pw Hpw) in Hcmp. discriminate.
  - rewrite Hby in Hf'. inversion Hf'; subst f'.
    rewrite Hfind in Hu'. inversion Hu'; subst u'. auto.
Qed.

(** C8.  On the create and the update route, a request whose image part
    has a content type that does not start with [image/], or a buffer of
    more than 5 MiB, is answered with an error, reaches no storage provider
    and leaves the database as it was; and every buffer handed to the
    storage provider is the image part of the request, of a content type
    that starts with [image/] and of at most 5 MiB. *)
Theorem upload_validated_first (r : Route) env w d :
  r = POST_posts \/ r = PUT_post ->
  (forall f,
      multipart_image w = Some f ->
      startsWith (mimetype f) "image/" = false
      \/ 5 * 1024 * 1024 < byteLength (buffer f) ->
      calls (serve lib r env w d) = []
      /\ store (serve lib r env w d) = d
      /\ (status (response (serve lib r env w d)) = 401
          \/ status (response (serve lib r env w d)) = 403
          \/ status (response (serve lib r env w d)) = 500)
      /\ (passesAuthentication lib env w ->
          response (serve lib r env w d) = mkResponse 500 ErrorPage))
  /\ (forall opts buf result,
        In (CloudinaryUpload opts buf result) (calls (serve lib r env w d)) ->
        exists f,
          multipart_image w = Some f /\ buffer f = buf
          /\ startsWith (mimetype f) "image/" = true
          /\ byteLength buf <= 5 * 1024 * 1024).
Proof.
  intros Hr. split.
  - intros f Hf Hbad.
    pose proof (uploadAccepted_rejects lib w f Hf Hbad) as Hu.
    assert (Hcase : forall H o,
      Protected lib env w d true H o ->
      calls o = [] /\ store o = d
      /\ (status (response o) = 401 \/ status (response o) = 403
          \/ status (response o) = 500)
      /\ (passesAuthentication lib env w -> response o = mkResponse 500 ErrorPage)).
    { intros H o [res Ha Hs|b Ha Hm Hu'|b o' Ha Hu' Ho].
      - cbn. repeat split; [tauto|]. intros [b Hb].
        destruct (authenticatedAs_not_rejected lib env w b res Hb Ha).
      - cbn. auto 6.
      - rewrite (Hu' eq_refl) in Hu. discriminate. }
    destruct Hr as [-> | ->];
      [apply (Hcase _ _ (serve_POST_posts lib env w d))
      |apply (Hcase _ _ (serve_PUT_post lib env w d))].
  - intros opts buf result.
    assert (Hstep : forall keep res tr,
      uploadAccepted lib w = true ->
      ImageStep env keep (multipart_image w) res tr ->
      In (CloudinaryUpload opts buf result) tr ->
      exists f,
        multipart_image w = Some f /\ buffer f = buf
        /\ startsWith (mimetype f) "image/" = true
        /\ byteLength buf <= 5 * 1024 * 1024).
    { intros keep res tr Hu Hi Hin.
      destruct (ImageStep_calls _ _ _ _ _ _ Hi Hin) as (f & result' & Hf & E).
      inversion E; subst. exists f.
      destruct (uploadAccepted_part lib w f Hf Hu) as [Hm Hs]. auto. }
    destruct Hr as [-> | ->].
    + destruct (serve_POST_posts lib env w d) as [res Ha Hs|b Ha Hm Hu|b o Ha Hu Ho];
        cbn [calls In]; try tauto.
      destruct Ho; cbn [calls In]; try tauto; eapply Hstep; eauto.
    + destruct (serve_PUT_post lib env w d) as [res Ha Hs|b Ha Hm Hu|b o Ha Hu Ho];
        cbn [calls In]; try tauto.
      destruct Ho; cbn [calls In]; try tauto; eapply Hstep; eauto.
Qed.

(** C9, as amended.  A signup whose email or username is that of a stored
    user changes nothing, and is answered 400 unless the other of the two
    values makes the lookup throw, which is answered 500; the lookup does
    not throw when each of the two is a string or is missing.  A create
    request that passes both middlewares and lacks a required text field,
    or has it empty or of a kind that does not cast to a string, is answered
    500 and changes nothing. *)
Theorem validation_failures env w d :
  (duplicateIdentity w d ->
   response (serve lib POST_signup env w d)
   = match byEmailOrUsername lib (field (parsed_body w) "email")
                             (field (parsed_body w) "username") with
     | Some _ => mkResponse 400 (Message "User already exists")
     | None => mkResponse 500 (Message "Server error during signup")
     end
   /\ (plain (field (parsed_body w) "email") ->
       plain (field (parsed_body w) "username") ->
       response (serve lib POST_signup env w d)
       = mkResponse 400 (Message "User already exists"))
   /\ store (serve lib POST_signup env w d) = d)
  /\ (passesAuthentication lib env w ->
      uploadAccepted lib w = true ->
      missingRequired lib w ->
      status (response (serve lib POST_posts env w d)) = 500
      /\ store (serve lib POST_posts env w d) = d).
Proof.
  split.
  - intros (u & Hin & Hdup).
    assert (Hplain : plain (field (parsed_body w) "email") ->
                     plain (field (parsed_body w) "username") ->
                     byEmailOrUsername lib (field (parsed_body w) "email")
                       (field (parsed_body w) "username") <> None).
    { intros [E | [s E]] [E' | [s' E']]; rewrite E, E'; discriminate. }
    destruct (byEmailOrUsername lib (field (parsed_body w) "email")
                (field (parsed_body w) "username")) as [f|] eqn:Hf.
    + assert (Hu : f u = true).
      { unfold byEmailOrUsername in Hf.
        destruct (clause lib (field (parsed_body w) "email")) as [g|] eqn:Hg;
          [|discriminate].
        destruct (clause lib (field (parsed_body w) "username")) as [g'|] eqn:Hg';
          [|discriminate].
        inversion Hf; subst f.
        destruct Hdup as [E | E]; rewrite E in *; cbn [clause] in *.
        - inversion Hg; subst g. now rewrite String.eqb_refl.
        - inversion Hg'; subst g'. rewrite String.eqb_refl. apply orb_true_r. }
      destruct (find_exists _ _ _ Hin Hu) as [y Hy].
      destruct (signup_SignedUp lib env w d)
        as [f' x Hf' Hx|Hx|f' un em pw Hf' Hx];
        cbn [response store]; auto.
      * rewrite (Hx f Hf) in Hy. discriminate.
      * congruence.
    + destruct (signup_SignedUp lib env w d)
        as [f' x Hf' Hx|Hx|f' un em pw Hf' Hx];
        cbn [response store]; try congruence.
      split; [reflexivity|]. split; [|reflexivity].
      intros Pe Pu. destruct (Hplain Pe Pu eq_refl).
  - intros [b Hb] Hu Hm.
    destruct (serve_POST_posts lib env w d) as [res Ha Hs|b' Ha Hm' Hu'|b' o Ha Hu' Ho].
    + destruct (authenticatedAs_not_rejected lib env w b res Hb Ha).
    + congruence.
    + destruct Ho as [Hn|e tr Hn Hi|img tr Hn Hi
                     |img tr t sub c a Hn Hi Ht Nt Hsub Hc Nc Hcast Hnew new d'];
        cbn [response status store]; auto.
      unfold missingRequired, requiredPath in Hm. rewrite Ht, Hc in Hm.
      destruct Hm as [Hm | Hm]; apply required_false in Hm as [Hm | Hm];
        congruence.
Qed.

(** C10, as amended.  On the get, update and delete routes a 404 is
    answered only when the identifier is an ObjectId that names no stored
    post.  When the identifier is not an ObjectId, the lookup throws, and
    the request is answered 500 provided it is a get, or it passes the
    authentication middleware. *)
Theorem malformed_id_is_500 (r : Route) env w d :
  r = GET_post \/ r = PUT_post \/ r = DELETE_post ->
  (status (response (serve lib r env w d)) = 404 ->
   exists oid, castObjectId (params_id w) = Some oid
               /\ findPost oid (posts d) = None)
  /\ (castObjectId (params_id w) = None ->
      r = GET_post \/ passesAuthentication lib env w ->
      status (response (serve lib r env w d)) = 500)
  /\ (castObjectId (params_id w) = None ->
      forall s, BlogPost_findById (params_id w) s = (Throw "CastError", s)).
Proof.
  intros Hr. split; [|split].
  - destruct Hr as [-> | [-> | ->]].
    + destruct (serve_GET_post lib env w d); cbn [response status];
        try discriminate; eauto.
    + destruct (serve_PUT_post lib env w d)
        as [res Ha [Hs|Hs]|b Ha Hm Hu|b o Ha Hu Ho]; cbn [response status];
        try rewrite Hs; try discriminate.
      destruct Ho; cbn [response status]; try discriminate; eauto.
    + destruct (serve_DELETE_post lib env w d)
        as [res Ha [Hs|Hs]|b Ha Hm Hu|b o Ha Hu Ho]; cbn [response status];
        try rewrite Hs; try discriminate.
      destruct Ho; cbn [response status]; try discriminate; eauto.
  - intros Hc Hp. destruct Hr as [-> | [-> | ->]].
    + destruct (serve_GET_post lib env w d); cbn [response status];
        congruence.
    + destruct Hp as [Hp | [b Hb]]; [discriminate|].
      destruct (serve_PUT_post lib env w d) as [res Ha Hs|b' Ha Hm Hu|b' o Ha Hu Ho].
      * destruct (authenticatedAs_not_rejected lib env w b res Hb Ha).
      * reflexivity.
      * destruct Ho; cbn [response status]; congruence.
    + destruct Hp as [Hp | [b Hb]]; [discriminate|].
      destruct (serve_DELETE_post lib env w d) as [res Ha Hs|b' Ha Hm Hu|b' o Ha Hu Ho].
      * destruct (authenticatedAs_not_rejected lib env w b res Hb Ha).
      * discriminate.
      * destruct Ho; cbn [response status]; congruence.
  - intros Hc s. unfold BlogPost_findById. now rewrite Hc.
Qed.

End Theorems.

(** ** The statements that fail, at concrete requests *)


(** C3, counterexample.  A token signed with the signing secret, whose
    expiry is years ahead, is refused all the same, because its not-before
    time has not come. *)
Lemma postdated_token_is_refused :
  ~ acceptedIffUnexpired Demo.lib Demo.env Demo.postdated_request.
Proof.
  intros [_ H].
  destruct H as [b Hb].
  - exists (Jwt.mkToken (Demo.input Demo.postdated) Demo.postdated
              (Demo.mac "fallback_secret" (Demo.input Demo.postdated))).
    exists (inject_Z 2000000000).
    split; [|split; [|split]].
    + exists ("Bearer " ++ Demo.postdated_token), "Bearer", Demo.postdated_token.
      split; [reflexivity|]. split; [vm_compute; reflexivity|].
      split; [vm_compute; discriminate|]. vm_compute. reflexivity.
    + vm_compute. reflexivity.
    + reflexivity.
    + vm_compute. reflexivity.
  - vm_compute in Hb. discriminate.
Qed.

(** C4, counterexample.  A header [Basic <token>] with a valid token is
    not of the form [Bearer <token>], and the request passes. *)
Lemma basic_scheme_is_accepted :
  ~ bearerOnly Demo.lib Demo.env Demo.basic_scheme.
Proof.
  intros (_ & H & _).
  destruct (H ("Basic " ++ Demo.token_of Demo.alice)) as (res & Hres & _).
  - reflexivity.
  - intros [token Hsplit]. vm_compute in Hsplit. discriminate.
  - vm_compute in Hres. discriminate.
Qed.

(** C6, counterexample.  Alice changes the title of her post: the time of
    modification of the stored post changes too. *)
Lemma update_changes_updatedAt :
  ~ updateTouchesOnlyTextAndImage Demo.lib Demo.env
      (Demo.update_by Demo.alice [("title", "New")] None) Demo.d0.
Proof.
  intros H.
  destruct (H Demo.post_id Demo.postX eq_refl) as (p' & Hp' & _ & _ & _ & Hu).
  vm_compute in Hp'. inversion Hp'; subst p'. vm_compute in Hu. discriminate.
Qed.

(** C9, counterexample.  Alice creates a post with no title: the answer is
    500, not 400. *)
Lemma missing_title_is_500 :
  ~ missingFieldIs400 Demo.lib Demo.env
      (Demo.create_by Demo.alice [("content", "c")] None) Demo.d0.
Proof.
  intros H.
  assert (Hs : status (response (serve Demo.lib POST_posts Demo.env
                 (Demo.create_by Demo.alice [("content", "c")] None) Demo.d0))
               = 400).
  { apply H.
    - exists (Demo.claims_of Demo.alice). vm_compute. reflexivity.
    - reflexivity.
    - left. reflexivity. }
  vm_compute in Hs. discriminate.
Qed.

(** C10, counterexample.  A delete with no token, of an identifier that is
    not an ObjectId, is answered 401, not 500. *)
Lemma anonymous_delete_is_401 :
  ~ malformedIdIs500 Demo.lib DELETE_post Demo.env Demo.anonymous_delete Demo.d0.
Proof.
  intros [H _]. specialize (H eq_refl). vm_compute in H. discriminate.
Qed.

(** ** The theorems at concrete requests *)

(** C1 at Alice's update with a 2 MB image while the storage provider is
    down. *)
Lemma upload_failure_aborts_write_witness :
  response (serve Demo.lib PUT_post Demo.env_down
              (Demo.update_by Demo.alice [("title", "New")]
                 (Some (Demo.png 2000000))) Demo.d0)
  = mkResponse 500 (Message "Failed to upload image")
  /\ store (serve Demo.lib PUT_post Demo.env_down
              (Demo.update_by Demo.alice [("title", "New")]
                 (Some (Demo.png 2000000))) Demo.d0) = Demo.d0
  /\ exists f,
       multipart_image (Demo.update_by Demo.alice [("title", "New")]
                          (Some (Demo.png 2000000))) = Some f.
Proof.
  destruct (upload_failure_aborts_write Demo.lib PUT_post Demo.env_down
              (Demo.update_by Demo.alice [("title", "New")]
                 (Some (Demo.png 2000000))) Demo.d0) as [H _].
  - right. reflexivity.
  - apply H. vm_compute. reflexivity.
Defined.


(** C3 at a request with the token issued to Alice some time before. *)
Lemma token_accepted_iff_witness :
  authenticatedAs Demo.lib Demo.env (Demo.delete_by Demo.alice)
    (Demo.claims_of Demo.alice)
  /\ signingSecret Demo.env = "fallback_secret".
Proof.
  destruct (token_accepted_iff Demo.lib Demo.env (Demo.delete_by Demo.alice))
    as (Hiff & _ & Hsecret & _).
  split; [|exact Hsecret].
  apply Hiff.
  exists (issued Demo.lib (toString Demo.alice_id) "alice" "fallback_secret"
            1699999000000).
  split.
  { exists ("Bearer " ++ Demo.token_of Demo.alice), "Bearer",
      (Demo.token_of Demo.alice).
    split; [reflexivity|]. split; [vm_compute; reflexivity|].
    split; [vm_compute; discriminate|]. vm_compute. reflexivity. }
  split; [reflexivity|]. split; [vm_compute; reflexivity|].
  split.
  - intros v Hv. vm_compute in Hv. inversion Hv; subst v.
    exists (inject_Z 1700085400). split; [reflexivity|]. vm_compute. reflexivity.
  - intros v Hv. vm_compute in Hv. discriminate.
Defined.

(** C4 at Alice's bearer token. *)
Lemma authenticateToken_cases_witness :
  authenticateToken Demo.lib Demo.env
    (incoming (Demo.delete_by Demo.alice))
  = inr (mkRequest (Demo.delete_by Demo.alice) None
           (Some (Demo.claims_of Demo.alice)) None).
Proof.
  destruct (authenticateToken_cases Demo.lib Demo.env (Demo.delete_by Demo.alice))
    as (_ & _ & _ & _ & H & _).
  apply (H ("Bearer " ++ Demo.token_of Demo.alice) "Bearer"
           (Demo.token_of Demo.alice)).
  - reflexivity.
  - vm_compute. reflexivity.
  - vm_compute. discriminate.
  - vm_compute. reflexivity.
Defined.

(** C5 at Alice's update of the title alone, of a post that has an
    image. *)
Lemma update_without_image_keeps_reference_witness :
  exists p',
    findPost Demo.post_id
      (posts (store (serve Demo.lib PUT_post Demo.env
                       (Demo.update_by Demo.alice [("title", "New")] None)
                       Demo.d1))) = Some p'
    /\ BlogPost.imageUrl p' = Some Demo.url.
Proof.
  apply (update_without_image_keeps_reference Demo.lib Demo.env
           (Demo.update_by Demo.alice [("title", "New")] None) Demo.d1
           Demo.post_id Demo.pictured).
  - reflexivity.
  - reflexivity.
Defined.

(** C6 at Alice's update with a new image. *)
Lemma owner_is_immutable_witness :
  exists p',
    findPost Demo.post_id
      (posts (store (serve Demo.lib PUT_post Demo.env
                       (Demo.update_by Demo.alice [("title", "New")]
                          (Some (Demo.png 2000000)))
                       Demo.d0))) = Some p'
    /\ sameOwner Demo.postX p'.
Proof.
  apply (owner_is_immutable Demo.lib Demo.env
           (Demo.update_by Demo.alice [("title", "New")]
              (Some (Demo.png 2000000))) Demo.d0).
  reflexivity.
Defined.

(** C7 at Carol's signup and login. *)
Lemma signup_then_login_witness :
  exists u,
    response (serve Demo.lib POST_signup Demo.env Demo.signup_carol Demo.d0)
    = mkResponse 201
        (Auth "User created successfully"
           (jwt_sign Demo.lib (toString (User._id u)) (User.username u)
                     (signingSecret Demo.env) (Date_now Demo.env))
           (userView u))
    /\ response (serve Demo.lib POST_login Demo.env_down Demo.login_carol
                   (store (serve Demo.lib POST_signup Demo.env
                             Demo.signup_carol Demo.d0)))
       = mkResponse 200
           (Auth "Login successful"
              (jwt_sign Demo.lib (toString (User._id u)) (User.username u)
                        (signingSecret Demo.env_down) (Date_now Demo.env_down))
              (userView u))
    /\ store (serve Demo.lib POST_login Demo.env_down Demo.login_carol
                (store (serve Demo.lib POST_signup Demo.env
                          Demo.signup_carol Demo.d0)))
       = store (serve Demo.lib POST_signup Demo.env Demo.signup_carol Demo.d0).
Proof.
  apply (signup_then_login Demo.lib Demo.env Demo.env_down
           Demo.signup_carol Demo.login_carol Demo.d0).
  - vm_compute. reflexivity.
  - reflexivity.
  - reflexivity.
  - intros password Hp. vm_compute in Hp. inversion Hp; subst password.
    vm_compute. reflexivity.
  - intros v selects email Hv Hn. vm_compute in Hv. inversion Hv; subst v.
    destruct (Hn "c@x.com" eq_refl).
Defined.

(** C8 at Alice's create with a text file attached. *)
Lemma upload_validated_first_witness :
  calls (serve Demo.lib POST_posts Demo.env
           (Demo.create_by Demo.alice [("title", "t"); ("content", "c")]
              (Some Demo.textFile)) Demo.d0) = []
  /\ response (serve Demo.lib POST_posts Demo.env
                 (Demo.create_by Demo.alice [("title", "t"); ("content", "c")]
                    (Some Demo.textFile)) Demo.d0)
     = mkResponse 500 ErrorPage.
Proof.
  destruct (upload_validated_first Demo.lib POST_posts Demo.env
              (Demo.create_by Demo.alice [("title", "t"); ("content", "c")]
                 (Some Demo.textFile)) Demo.d0) as [H _].
  - left. reflexivity.
  - destruct (H Demo.textFile) as (Hc & _ & _ & Hr).
    + reflexivity.
    + left. reflexivity.
    + split; [exact Hc|]. apply Hr.
      exists (Demo.claims_of Demo.alice). vm_compute. reflexivity.
Defined.

(** C9 at a signup with Alice's email, and at Alice's create with no
    title. *)
Lemma validation_failures_witness :
  response (serve Demo.lib POST_signup Demo.env Demo.signup_alice_again Demo.d0)
  = mkResponse 400 (Message "User already exists")
  /\ status (response (serve Demo.lib POST_posts Demo.env
                         (Demo.create_by Demo.alice [("content", "c")] None)
                         Demo.d0)) = 500.
Proof.
  split.
  - destruct (validation_failures Demo.lib Demo.env Demo.signup_alice_again
                Demo.d0) as [H _].
    destruct H as (_ & H & _).
    + exists Demo.alice. split; [left; reflexivity|]. left. reflexivity.
    + apply H; right; eexists; reflexivity.
  - apply (validation_failures Demo.lib Demo.env
             (Demo.create_by Demo.alice [("content", "c")] None) Demo.d0).
    + exists (Demo.claims_of Demo.alice). vm_compute. reflexivity.
    + reflexivity.
    + left. reflexivity.
Defined.

(** C10 at a get of something that is not an ObjectId. *)
Lemma malformed_id_is_500_witness :
  status (response (serve Demo.lib GET_post Demo.env Demo.anonymous_delete
                      Demo.d0)) = 500.
Proof.
  apply (malformed_id_is_500 Demo.lib GET_post Demo.env Demo.anonymous_delete
           Demo.d0).
  - left. reflexivity.
  - reflexivity.
  - left. reflexivity.
Defined.

(** ** The scenario of the specification, run *)

(** Alice creates a post with no image: 201, and the image reference is the
    empty string. *)
Example create_without_image :
  exists p a,
    response (serve Demo.lib POST_posts Demo.env
                (Demo.create_by Demo.alice [("title", "Hi"); ("content", "c")] None)
                Demo.d0)
    = mkResponse 201 (Post p a)
    /\ BlogPost.imageUrl p = Some "" /\ BlogPost.author p = Demo.alice_id.
Proof. eexists _, _. vm_compute. repeat split. Qed.

(** She updates it with a 2 MB PNG: 200, with the URL the storage provider
    answered. *)
Example update_with_image :
  exists p a,
    response (serve Demo.lib PUT_post Demo.env
                (Demo.update_by Demo.alice [] (Some (Demo.png 2000000))) Demo.d0)
    = mkResponse 200 (Post p a)
    /\ BlogPost.imageUrl p = Some Demo.url /\ BlogPost.title p = Some "Hi".
Proof. eexists _, _. vm_compute. repeat split. Qed.

(** Bob's delete is answered 403; Alice's is answered 200, and the post is
    then not found. *)
Example delete_then_get :
  status (response (serve Demo.lib DELETE_post Demo.env
                      (Demo.delete_by Demo.bob) Demo.d0)) = 403
  /\ status (response (serve Demo.lib DELETE_post Demo.env
                         (Demo.delete_by Demo.alice) Demo.d0)) = 200
  /\ status (response (serve Demo.lib GET_post Demo.env
                         (Demo.delete_by Demo.alice)
                         (store (serve Demo.lib DELETE_post Demo.env
                                   (Demo.delete_by Demo.alice) Demo.d0)))) = 404.
Proof. vm_compute. repeat split. Qed.

(** A token is refused once its 24 hours are over. *)
Example expired_token :
  jwt_verify Demo.lib (Demo.token_of Demo.alice) "fallback_secret"
             (1699999000000 + 24 * 60 * 60 * 1000)
  = inl Jwt.TokenExpiredError
  /\ jwt_verify Demo.lib (Demo.token_of Demo.alice) "fallback_secret"
                (1699999000000 + 24 * 60 * 60 * 1000 - 1)
     = inr (Demo.claims_of Demo.alice)
  /\ jwt_verify Demo.lib (Demo.token_of Demo.alice) "another secret"
                1699999001000
     = inl Jwt.JsonWebTokenError.
Proof. vm_compute. repeat split. Qed.

(** A login whose email is the operator object [{ $ne: null }] selects the
    first stored user, and succeeds with that user's password. *)
Example login_with_an_operator :
  exists token,
    response (serve Demo.lib POST_login Demo.env
                (mkWire [] ""
                   (Some [("email", VObject [("$ne", VNull)]);
                          ("password", VString "pw1")]) None)
                Demo.d0)
    = mkResponse 200 (Auth "Login successful" token (userView Demo.alice)).
Proof. eexists. vm_compute. reflexivity. Qed.

(** * Further properties *)

(** ** Splitting a header *)

Lemma split_not_nil s : split " " s <> [].
Proof.
  destruct s as [|c r]; cbn [split]; [discriminate|].
  destruct (Ascii.eqb c " "); [discriminate|].
  destruct (split " " r); discriminate.
Qed.

Lemma split_single s b :
  split " " s = [b] -> s = b /\ noSpace b = true.
Proof.
  revert b. induction s as [|c r IH]; intros b; cbn [split].
  - intros H. inversion H. auto.
  - destruct (Ascii.eqb c " ") eqn:Ec.
    + intros H. inversion H as [[Hb Hr]]. destruct (split_not_nil r Hr).
    + destruct (split " " r) as [|p ps] eqn:Er; intros H; inversion H; subst.
      * destruct (split_not_nil r Er).
      * destruct (IH p eq_refl) as [-> Hp]. cbn [noSpace]. now rewrite Ec, Hp.
Qed.

Lemma split_nospace b : noSpace b = true -> split " " b = [b].
Proof.
  induction b as [|c r IH]; cbn [noSpace split]; [reflexivity|].
  rewrite andb_true_iff, negb_true_iff. intros [-> Hr]. now rewrite (IH Hr).
Qed.

Lemma split_at_space a r :
  noSpace a = true -> split " " (a ++ String " " r) = a :: split " " r.
Proof.
  induction a as [|c a IH]; cbn [noSpace append split].
  - reflexivity.
  - rewrite andb_true_iff, negb_true_iff. intros [-> Ha]. now rewrite (IH Ha).
Qed.

Lemma split_two s a b :
  split " " s = [a; b] <->
  s = a ++ " " ++ b /\ noSpace a = true /\ noSpace b = true.
Proof.
  split.
  - revert a. induction s as [|c r IH]; intros a; cbn [split]; [discriminate|].
    destruct (Ascii.eqb c " ") eqn:Ec.
    + intros H. inversion H as [[Ha Hr]]. apply Ascii.eqb_eq in Ec. subst c.
      destruct (split_single r b Hr) as [-> Hb]. auto.
    + destruct (split " " r) as [|p ps] eqn:Er; intros H; inversion H; subst.
      destruct (IH p eq_refl) as (-> & Hp & Hb).
      cbn [noSpace append]. now rewrite Ec, Hp, Hb.
  - intros (-> & Ha & Hb). cbn [append].
    now rewrite (split_at_space a b Ha), (split_nospace b Hb).
Qed.

(** ** Tokens in a header *)

(** X1.  [getTokenFromHeader] answers a token exactly for a header made of
    two pieces with one space between them and no other space, and the
    token is the second piece, whatever the first piece is. *)
Theorem token_extraction w h token :
  authorization w = Some h ->
  getTokenFromHeader (incoming w) = Some token <->
  exists scheme,
    h = scheme ++ " " ++ token
    /\ noSpace scheme = true /\ noSpace token = true.
Proof.
  intros Hh. rewrite getTokenFromHeader_incoming, Hh.
  destruct (split " " h) as [|a [|b [|c l]]] eqn:E.
  - destruct (split_not_nil h E).
  - split; [discriminate|]. intros (scheme & Hs).
    apply split_two in Hs. congruence.
  - split.
    + intros H. inversion H; subst. exists a. now apply split_two.
    + intros (scheme & Hs). apply split_two in Hs. congruence.
  - split; [discriminate|]. intros (scheme & Hs).
    apply split_two in Hs. congruence.
Qed.

Section Tokens.

Variable lib : Library.

(** What the middleware does with a bearer token. *)
Lemma authenticateToken_bearer env w token :
  authorization w = Some ("Bearer " ++ token) ->
  noSpace token = true -> token <> "" ->
  authenticateToken lib env (incoming w)
  = match jwt_verify lib token (signingSecret env) (Date_now env) with
    | inl _ => inl (mkResponse 403 (Message "Invalid or expired token"))
    | inr payload => inr (mkRequest w (parsed_body w) (Some payload) None)
    end.
Proof.
  intros Hh Hn Hne. unfold authenticateToken.
  rewrite getTokenFromHeader_incoming, Hh.
  assert (Hs : split " " ("Bearer " ++ token) = ["Bearer"; token])
    by (apply split_two; auto).
  rewrite Hs. apply String.eqb_neq in Hne. cbn [truthy negb]. rewrite Hne.
  reflexivity.
Qed.

Lemma signingSecret_same env env0 :
  JWT_SECRET env = JWT_SECRET env0 -> signingSecret env = signingSecret env0.
Proof. unfold signingSecret. now intros ->. Qed.

Lemma jwt_verify_issued env env0 i u :
  jwt_decode lib (jwt_sign lib i u (signingSecret env0) (Date_now env0))
  = Some (issued lib i u (signingSecret env0) (Date_now env0)) ->
  JWT_SECRET env = JWT_SECRET env0 ->
  jwt_verify lib (jwt_sign lib i u (signingSecret env0) (Date_now env0))
             (signingSecret env) (Date_now env)
  = if Date_now env0 / 1000 + 24 * 60 * 60 <=? Date_now env / 1000
    then inl Jwt.TokenExpiredError
    else inr (Jwt.payload (issued lib i u (signingSecret env0) (Date_now env0))).
Proof.
  intros Hd Hs. unfold jwt_verify. rewrite Hd, (signingSecret_same _ _ Hs).
  unfold issued. cbn [Jwt.signature Jwt.payload Jwt.signed].
  rewrite String.eqb_refl.
  unfold notBefore, expired, clockTimestamp, Jwt.nbf, Jwt.exp, Jwt.mkPayload.
  cbn [prop String.eqb Ascii.eqb Bool.eqb]. rewrite Qle_bool_inject_Z.
  change expiresIn with (24 * 60 * 60).
  now destruct (Date_now env0 / 1000 + 24 * 60 * 60 <=? Date_now env / 1000).
Qed.

(** X2.  A token issued at one time, sent back as [Bearer <token>] to a
    server with the same secret, passes [authenticateToken] with the claims
    it was issued for as long as the clock, in whole seconds, is less than
    24 hours past the time of issue, and is answered 403 from then on. *)
Theorem issued_token_passes_until_expiry env env0 w i u :
  authorization w
  = Some ("Bearer " ++ jwt_sign lib i u (signingSecret env0) (Date_now env0)) ->
  noSpace (jwt_sign lib i u (signingSecret env0) (Date_now env0)) = true ->
  jwt_sign lib i u (signingSecret env0) (Date_now env0) <> "" ->
  jwt_decode lib (jwt_sign lib i u (signingSecret env0) (Date_now env0))
  = Some (issued lib i u (signingSecret env0) (Date_now env0)) ->
  JWT_SECRET env = JWT_SECRET env0 ->
  authenticateToken lib env (incoming w)
  = if Date_now env0 / 1000 + 24 * 60 * 60 <=? Date_now env / 1000
    then inl (mkResponse 403 (Message "Invalid or expired token"))
    else inr (mkRequest w (parsed_body w)
                (Some (Jwt.mkPayload i u (Date_now env0 / 1000)
                         (Date_now env0 / 1000 + 24 * 60 * 60)))
                None).
Proof.
  intros Hh Hn Hne Hd Hs.
  rewrite (authenticateToken_bearer env w _ Hh Hn Hne).
  rewrite (jwt_verify_issued env env0 i u Hd Hs).
  now destruct (_ <=? _).
Qed.

End Tokens.

(** ** Calls to the storage provider *)

Lemma ImageStep_exact env keep fo r tr :
  ImageStep env keep fo r tr ->
  tr = []
  \/ exists f,
       fo = Some f
       /\ tr = [CloudinaryUpload (uploadOptions env) (buffer f)
                  (upload_stream env (uploadOptions env) (buffer f))].
Proof.
  intros H. inversion H; subst; [now left| |];
    right; exists f; split; try reflexivity; congruence.
Qed.

Section Uploads.

Variable lib : Library.

(** X3.  A request makes at most one call to the storage provider.  The
    call is made only on the create and update routes, for a request that
    passed authentication, and on update only for the owner of the post the
    request names; it sends the buffer of the request's image part under the
    folder [blog-images], as an image to be stored in format [png], and the
    record keeps the answer the provider gave. *)
Theorem one_upload_per_write (r : Route) env w d e :
  In e (calls (serve lib r env w d)) ->
  calls (serve lib r env w d) = [e]
  /\ (r = POST_posts \/ r = PUT_post)
  /\ (exists b,
        authenticatedAs lib env w b
        /\ (r = PUT_post ->
            exists x, targets w d x /\ identifies b (BlogPost.author x)))
  /\ exists f,
       multipart_image w = Some f
       /\ e = CloudinaryUpload (uploadOptions env) (buffer f)
               (upload_stream env (uploadOptions env) (buffer f))
       /\ resource_type (uploadOptions env) = "image"
       /\ folder (uploadOptions env) = "blog-images"
       /\ format (uploadOptions env) = "png".
Proof.
  assert (Hstep : forall keep res tr,
    ImageStep env keep (multipart_image w) res tr -> In e tr ->
    tr = [e]
    /\ exists f,
         multipart_image w = Some f
         /\ e = CloudinaryUpload (uploadOptions env) (buffer f)
                 (upload_stream env (uploadOptions env) (buffer f))
         /\ resource_type (uploadOptions env) = "image"
         /\ folder (uploadOptions env) = "blog-images"
         /\ format (uploadOptions env) = "png").
  { intros keep res tr Hi Hin.
    destruct (ImageStep_exact _ _ _ _ _ Hi) as [-> | (f & Hf & ->)];
      [destruct Hin|].
    destruct Hin as [<- | []]. split; [reflexivity|]. exists f. auto. }
  destruct r.
  - destruct (signup_SignedUp lib env w d); cbn [calls In]; tauto.
  - destruct (login_LoggedIn lib env w d); cbn [calls In]; tauto.
  - destruct (serve_GET_post lib env w d); cbn [calls In]; tauto.
  - destruct (serve_POST_posts lib env w d) as [res Ha Hs|b Ha Hm Hu|b o Ha Hu Ho];
      cbn [calls In]; try tauto.
    intros Hin.
    assert (Hi : calls o = []
                 \/ exists keep res,
                      ImageStep env keep (multipart_image w) res (calls o))
      by (destruct Ho; cbn [calls]; eauto).
    destruct Hi as [Hi | (keep & res & Hi)]; [rewrite Hi in Hin; destruct Hin|].
    destruct (Hstep _ _ _ Hi Hin) as [Hc Hf].
    split; [exact Hc|]. split; [now left|]. split; [|exact Hf].
    exists b. split; [exact Ha|discriminate].
  - destruct (serve_PUT_post lib env w d) as [res Ha Hs|b Ha Hm Hu|b o Ha Hu Ho];
      cbn [calls In]; try tauto.
    destruct Ho as [Hn|Hn Hc|oid Hn Hc Hp|oid post Hn Hc Hp Hf
                   |oid post er tr Hn Hc Hp Ho Hi
                   |oid post img tr Hn Hc Hp Ho Hi Hu'
                   |oid post img tr t s c Hn Hc Hp Ho Hi Hu' posts' d'];
      cbn [calls In]; try tauto; intros Hin;
      destruct (Hstep _ _ _ Hi Hin) as [Hcalls Hf'];
      (split; [exact Hcalls|]); (split; [now right|]); (split; [|exact Hf']);
      exists b; (split; [exact Ha|]); intros _; exists post;
      (split; [exists oid; auto|exact Ho]).
  - destruct (serve_DELETE_post lib env w d) as [res Ha Hs|b Ha Hm Hu|b o Ha Hu Ho];
      cbn [calls In]; try tauto.
    destruct Ho; cbn [calls In]; tauto.
Qed.


(** X5.  A request that does not pass authentication changes nothing on
    the create, update and delete routes: the database is as before, no
    call is made to the storage provider, and the answer is 401 or 403. *)
Theorem no_write_without_token (r : Route) env w d :
  r = POST_posts \/ r = PUT_post \/ r = DELETE_post ->
  ~ passesAuthentication lib env w ->
  store (serve lib r env w d) = d
  /\ calls (serve lib r env w d) = []
  /\ (status (response (serve lib r env w d)) = 401
      \/ status (response (serve lib r env w d)) = 403).
Proof.
  intros Hr Hn.
  assert (Hcase : forall multer H o,
            Protected lib env w d multer H o ->
            store o = d /\ calls o = []
            /\ (status (response o) = 401 \/ status (response o) = 403)).
  { intros multer H o [res Ha Hs|b Ha Hm Hu|b o' Ha Hu Ho].
    - cbn. auto.
    - destruct Hn. now exists b.
    - destruct Hn. now exists b. }
  destruct Hr as [-> | [-> | ->]].
  - apply (Hcase _ _ _ (serve_POST_posts lib env w d)).
  - apply (Hcase _ _ _ (serve_PUT_post lib env w d)).
  - apply (Hcase _ _ _ (serve_DELETE_post lib env w d)).
Qed.

End Uploads.

(** ** Accounts *)

Lemma find_none_iff {A} (f : A -> bool) (l : list A) :
  find f l = None <-> forall x, In x l -> f x = false.
Proof.
  split; [apply find_none|].
  induction l as [|a l IH]; cbn; [reflexivity|]. intros H.
  rewrite (H a (or_introl eq_refl)). apply IH. intros x Hx. apply H. now right.
Qed.

(** A find succeeds exactly when some element passes. *)
Lemma find_some_iff {A} (f : A -> bool) (l : list A) :
  (exists x, find f l = Some x) <-> exists x, In x l /\ f x = true.
Proof.
  split.
  - intros [x Hx]. apply find_some in Hx. eauto.
  - intros (x & Hin & Hx). now apply find_exists with x.
Qed.

(** What a clause selects when its value is a string or is missing. *)
Lemma clause_plain lib v :
  plain v ->
  exists g, clause lib v = Some g
            /\ forall stored, g stored = true <-> v = Some (VString stored).
Proof.
  intros [-> | [s ->]]; cbn [clause]; eexists; (split; [reflexivity|]);
    intros stored; cbn.
  - split; discriminate.
  - rewrite String.eqb_eq. split; congruence.
Qed.

Lemma NoDup_snoc {A} (l : list A) (x : A) :
  NoDup l -> ~ In x l -> NoDup (l ++ [x]).
Proof.
  intros Hl Hx. apply NoDup_app; [exact Hl|repeat constructor; auto|].
  intros a Ha [<-|[]]. contradiction.
Qed.

Section Identities.

Variable lib : Library.

(** Every route but signup keeps the users. *)
Lemma users_kept (r : Route) env w d :
  r <> POST_signup -> users (store (serve lib r env w d)) = users d.
Proof.
  intros Hr. destruct r; [contradiction| | | | |].
  - now destruct (login_LoggedIn lib env w d).
  - now destruct (serve_GET_post lib env w d).
  - destruct (serve_POST_posts lib env w d) as [res Ha Hs|b Ha Hm Hu|b o Ha Hu Ho];
      try reflexivity. now destruct Ho.
  - destruct (serve_PUT_post lib env w d) as [res Ha Hs|b Ha Hm Hu|b o Ha Hu Ho];
      try reflexivity. now destruct Ho.
  - destruct (serve_DELETE_post lib env w d) as [res Ha Hs|b Ha Hm Hu|b o Ha Hu Ho];
      try reflexivity. now destruct Ho.
Qed.

(** X6.  No request ever gives two users the same email or the same
    username: if the stored users have distinct emails and distinct
    usernames before a request, they have after it. *)
Theorem identities_stay_unique (r : Route) env w d :
  uniqueIdentities d -> uniqueIdentities (store (serve lib r env w d)).
Proof.
  intros [He Hu]. unfold uniqueIdentities.
  destruct r; try (rewrite users_kept by discriminate; now split).
  destruct (signup_SignedUp lib env w d)
    as [f x Hf Hx|Hx|f un em pw Hf Hx Hun Nun Hem Nem Hpw Hidx u];
    cbn [store users]; try (now split).
  rewrite !map_app. cbn [map]. subst u. cbn [User.email User.username].
  split; apply NoDup_snoc; auto.
  - intros Hin. apply in_map_iff in Hin as (y & Hy & Hiny).
    destruct (Hidx y Hiny) as (_ & _ & N). contradiction.
  - intros Hin. apply in_map_iff in Hin as (y & Hy & Hiny).
    destruct (Hidx y Hiny) as (_ & N & _). contradiction.
Qed.

(** For values that are strings, or are missing, the lookup of signup
    selects a user exactly when that user has the email or the username of
    the request. *)
Lemma lookupSelects_plain w d :
  plain (field (parsed_body w) "email") ->
  plain (field (parsed_body w) "username") ->
  lookupSelects lib w d <-> duplicateIdentity w d.
Proof.
  intros Pe Pu. unfold lookupSelects, duplicateIdentity, byEmailOrUsername.
  destruct (clause_plain lib _ Pe) as (g & -> & Hg).
  destruct (clause_plain lib _ Pu) as (g' & -> & Hg').
  split.
  - intros (f & x & Ef & Hin & Hx). inversion Ef; subst f. exists x.
    split; [exact Hin|]. apply orb_true_iff in Hx as [Hx | Hx];
      [left; now apply Hg | right; now apply Hg'].
  - intros (x & Hin & Hx). eexists. exists x. split; [reflexivity|].
    split; [exact Hin|]. apply orb_true_iff.
    destruct Hx as [Hx | Hx]; [left; now apply Hg | right; now apply Hg'].
Qed.

(** X7.  Signup answers 400 exactly when its lookup, which selects by
    email or by username, selects a stored user; for an email and a
    username that are strings, that is when a stored user has the email or
    the username of the request.  It changes the database only when it
    answers 201, and then by appending one user, with the username and the
    email of the request as they cast to strings and the digest of its
    password; the posts are never touched, and no other route changes the
    users. *)
Theorem signup_outcomes env w d :
  (status (response (serve lib POST_signup env w d)) = 400
   <-> lookupSelects lib w d)
  /\ (plain (field (parsed_body w) "email") ->
      plain (field (parsed_body w) "username") ->
      status (response (serve lib POST_signup env w d)) = 400
      <-> duplicateIdentity w d)
  /\ (status (response (serve lib POST_signup env w d)) <> 201 ->
      store (serve lib POST_signup env w d) = d)
  /\ (status (response (serve lib POST_signup env w d)) = 201 ->
      exists username email password,
        documentPath lib (field (parsed_body w) "username")
        = Casted (Some username)
        /\ documentPath lib (field (parsed_body w) "email")
           = Casted (Some email)
        /\ field (parsed_body w) "password" = Some (VString password)
        /\ store (serve lib POST_signup env w d)
           = mkStore
               (users d ++
                [User.mk (new_ObjectId env) username email
                         (bcrypt_hash lib password 10 (genSalt env))
                         (Date_now env) (Date_now env)])
               (posts d))
  /\ (forall r, r <> POST_signup ->
                users (store (serve lib r env w d)) = users d).
Proof.
  assert (H400 : status (response (serve lib POST_signup env w d)) = 400
                 <-> lookupSelects lib w d).
  { unfold lookupSelects.
    destruct (signup_SignedUp lib env w d)
      as [f x Hf Hx|Hx|f un em pw Hf Hx Hun Nun Hem Nem Hpw Hidx u];
      cbn [response status].
    - split; [|reflexivity]. intros _. apply find_some in Hx as [Hin Hx].
      now exists f, x.
    - split; [discriminate|]. intros (f & x & Hf & Hin & Hfx).
      rewrite (find_none _ _ (Hx f Hf) x Hin) in Hfx. discriminate.
    - split; [discriminate|]. intros (f' & x & Hf' & Hin & Hfx).
      rewrite Hf in Hf'. inversion Hf'; subst f'.
      rewrite (find_none _ _ Hx x Hin) in Hfx. discriminate. }
  split; [exact H400|].
  split; [intros Pe Pu; rewrite H400; now apply lookupSelects_plain|].
  split; [|split]; [| |intros r; apply users_kept].
  - destruct (signup_SignedUp lib env w d)
      as [f x Hf Hx|Hx|f un em pw Hf Hx Hun Nun Hem Nem Hpw Hidx u];
      cbn [response status store]; auto. intros H. now destruct H.
  - destruct (signup_SignedUp lib env w d)
      as [f x Hf Hx|Hx|f un em pw Hf Hx Hun Nun Hem Nem Hpw Hidx u];
      cbn [response status store]; try discriminate.
    intros _. exists un, em, pw. auto.
Qed.

(** What the filter of login selects when the email is a string. *)
Lemma byEmail_string e f :
  byEmail lib (Some (VString e)) = Some f ->
  forall u, f u = true -> User.email u = e.
Proof.
  cbn. intros E u. inversion E; subst f. apply String.eqb_eq.
Qed.

(** X8.  Login never changes the database.  It answers 200 exactly when
    its lookup by email selects a stored user and the password of the
    request is a string that verifies against that user's digest; for an
    email that is a string the user it answers with has that email.  Its
    two 400 answers, for an unknown email and for a wrong password, are the
    same. *)
Theorem login_outcomes env w d :
  store (serve lib POST_login env w d) = d
  /\ calls (serve lib POST_login env w d) = []
  /\ (status (response (serve lib POST_login env w d)) = 200 <->
      exists f u password,
        byEmail lib (field (parsed_body w) "email") = Some f
        /\ find f (users d) = Some u
        /\ field (parsed_body w) "password" = Some (VString password)
        /\ bcrypt_compare lib password (User.password u) = true)
  /\ (forall e,
        field (parsed_body w) "email" = Some (VString e) ->
        status (response (serve lib POST_login env w d)) = 200 ->
        exists message token u,
          response (serve lib POST_login env w d)
          = mkResponse 200 (Auth message token u)
          /\ view_email u = e)
  /\ (status (response (serve lib POST_login env w d)) = 400 ->
      response (serve lib POST_login env w d)
      = mkResponse 400 (Message "Invalid credentials")).
Proof.
  destruct (login_LoggedIn lib env w d)
    as [Hn|Hn Hc|f Hn Hf Hu|f u Hf Hu Hp|f u p Hf Hu Hp Hcmp|f u p Hf Hu Hp Hcmp];
    cbn [response status store calls];
    (split; [reflexivity|]); (split; [reflexivity|]);
    (split; [|split; [|auto; discriminate]]); try (intros e _ E; discriminate E).
  - split; [discriminate|]. intros (f & u & p & _ & _ & Hp & _).
    rewrite Hn in Hp. discriminate.
  - split; [discriminate|]. intros (f & u & p & Hf & _). congruence.
  - split; [discriminate|]. intros (f' & u & p & Hf' & Hu' & _). congruence.
  - split; [discriminate|]. intros (f' & u' & p & _ & _ & Hp' & _).
    destruct (Hp p Hp').
  - split; [discriminate|]. intros (f' & u' & p' & Hf' & Hu' & Hp' & Hc).
    congruence.
  - split; [|reflexivity]. intros _. exists f, u, p. auto.
  - intros e He _. eexists _, _, _. split; [reflexivity|].
    rewrite He in Hf. apply find_some in Hu as [_ Hu].
    exact (byEmail_string e f Hf u Hu).
Qed.

(** X9.  A login request that has a body but no password string tells
    whether the email is registered: [bcrypt.compare] throws on the password
    only after the lookup selected a user, so the answer is 500 when it
    selects one and 400 when it selects none.  A request with no body, and
    one whose email makes the lookup throw, are answered 500. *)
Theorem login_without_password env w d :
  (forall password,
      field (parsed_body w) "password" <> Some (VString password)) ->
  status (response (serve lib POST_login env w d))
  = match parsed_body w, byEmail lib (field (parsed_body w) "email") with
    | Some _, Some f => if existsb f (users d) then 500 else 400
    | _, _ => 500
    end.
Proof.
  intros Hpw.
  destruct (login_LoggedIn lib env w d)
    as [Hn|Hn Hc|f Hn Hf Hu|f u Hf Hu Hp|f u p Hf Hu Hp Hcmp|f u p Hf Hu Hp Hcmp];
    cbn [response status]; try (destruct (Hpw _ Hp)).
  - now rewrite Hn.
  - rewrite Hc. now destruct (parsed_body w).
  - rewrite Hf. destruct (parsed_body w); [|congruence].
    assert (existsb f (users d) = false) as ->; [|reflexivity].
    apply not_true_is_false. intros H. apply existsb_exists in H as (x & Hin & Hx).
    rewrite (find_none _ _ Hu x Hin) in Hx. discriminate.
  - rewrite Hf.
    destruct (parsed_body w) as [o|] eqn:Hb.
    + assert (existsb f (users d) = true) as ->; [|reflexivity].
      apply find_some in Hu as [Hin Hx]. apply existsb_exists. eauto.
    + reflexivity.
Qed.

End Identities.
(** ** Posts *)

Lemma findPost_snoc oid l p :
  findPost oid l = None -> BlogPost._id p = oid ->
  findPost oid (l ++ [p]) = Some p.
Proof.
  intros Hn Hp. apply find_snoc; [exact Hn|]. now apply ObjectId_eqb_eq.
Qed.

Lemma findPost_id oid l p : findPost oid l = Some p -> BlogPost._id p = oid.
Proof. intros H. apply find_some in H as [_ H]. now apply ObjectId_eqb_eq. Qed.

Lemma findPost_In oid l p : findPost oid l = Some p -> In p l.
Proof. intros H. now apply find_some in H as [H _]. Qed.

Lemma findPost_none_notin oid l :
  findPost oid l = None <-> ~ In oid (map BlogPost._id l).
Proof.
  unfold findPost. rewrite find_none_iff. split.
  - intros H Hin. apply in_map_iff in Hin as (p & Hp & Hin).
    specialize (H p Hin). rewrite Hp, ObjectId_eqb_refl in H. discriminate.
  - intros H p Hin. apply ObjectId_eqb_neq. intros Hp. apply H.
    apply in_map_iff. eauto.
Qed.

Lemma updateFirst_ids oid f l :
  (forall p, BlogPost._id (f p) = BlogPost._id p) ->
  map BlogPost._id (updateFirst oid f l) = map BlogPost._id l.
Proof.
  intros Hf. induction l as [|a l IH]; cbn; [reflexivity|].
  destruct (ObjectId_eqb (BlogPost._id a) oid); cbn; now rewrite ?Hf, ?IH.
Qed.

Lemma updateFirst_length oid f l : length (updateFirst oid f l) = length l.
Proof.
  induction l as [|a l IH]; cbn; [reflexivity|].
  destruct (ObjectId_eqb (BlogPost._id a) oid); cbn; now rewrite ?IH.
Qed.

Lemma deleteFirst_other oid oid' l :
  oid' <> oid -> findPost oid' (deleteFirst oid l) = findPost oid' l.
Proof.
  intros Hne. unfold findPost. induction l as [|a l IH]; cbn; [reflexivity|].
  destruct (ObjectId_eqb (BlogPost._id a) oid) eqn:E; cbn.
  - apply ObjectId_eqb_eq in E.
    assert (ObjectId_eqb (BlogPost._id a) oid' = false) as ->; [|reflexivity].
    apply ObjectId_eqb_neq. congruence.
  - now rewrite IH.
Qed.

Lemma deleteFirst_incl oid l :
  incl (map BlogPost._id (deleteFirst oid l)) (map BlogPost._id l).
Proof.
  induction l as [|a l IH]; cbn; [apply incl_refl|].
  destruct (ObjectId_eqb (BlogPost._id a) oid); cbn.
  - apply incl_tl, incl_refl.
  - apply incl_cons; [now left|]. now apply incl_tl.
Qed.

Lemma deleteFirst_NoDup oid l :
  NoDup (map BlogPost._id l) -> NoDup (map BlogPost._id (deleteFirst oid l)).
Proof.
  induction l as [|a l IH]; cbn; [auto|]. intros H. inversion H; subst.
  destruct (ObjectId_eqb (BlogPost._id a) oid); cbn; [assumption|].
  constructor; [|auto]. intros Hin. now apply deleteFirst_incl in Hin.
Qed.

Lemma deleteFirst_gone oid l :
  NoDup (map BlogPost._id l) -> findPost oid (deleteFirst oid l) = None.
Proof.
  induction l as [|a l IH]; cbn; [reflexivity|]. intros H. inversion H; subst.
  destruct (ObjectId_eqb (BlogPost._id a) oid) eqn:E; cbn.
  - apply ObjectId_eqb_eq in E. subst oid. now apply findPost_none_notin.
  - unfold findPost in *. cbn. rewrite E. auto.
Qed.

Lemma deleteFirst_length oid l p :
  findPost oid l = Some p -> S (length (deleteFirst oid l)) = length l.
Proof.
  unfold findPost. induction l as [|a l IH]; cbn; [discriminate|].
  destruct (ObjectId_eqb (BlogPost._id a) oid); cbn; [reflexivity|].
  intros H. now rewrite IH.
Qed.

Lemma ImageStep_image env keep fo img tr :
  ImageStep env keep fo (inr img) tr ->
  (fo = None -> img = keep /\ tr = [])
  /\ (forall f, fo = Some f ->
       exists secure_url,
         upload_stream env (uploadOptions env) (buffer f) = inr secure_url
         /\ img = Some secure_url
         /\ tr = [CloudinaryUpload (uploadOptions env) (buffer f) (inr secure_url)]).
Proof.
  intros H. inversion H; subst; split; try discriminate; auto.
  intros f' Hf'. inversion Hf'; subst. eauto.
Qed.

(** What [setTo] says of a string, and of a field that casts. *)
Lemma setTo_string lib s old new :
  setTo lib (Some (VString s)) old new <-> new = Some s.
Proof. cbn. split; [intros E; now inversion E|now intros ->]. Qed.

Lemma castAssign_setTo lib v a old :
  castAssign lib v = Some a -> setTo lib v old (assign a old).
Proof.
  unfold castAssign, setTo. destruct v as [v|].
  - destruct (castString lib OfUpdate v) as [|x]; [discriminate|].
    intros E. now inversion E.
  - intros E. now inversion E.
Qed.

Lemma castAssign_plain lib v : plain v -> castAssign lib v <> None.
Proof. intros [-> | [s ->]]; discriminate. Qed.

Lemma updateCasts_plain lib w :
  plain (field (formBody w) "title") ->
  plain (field (formBody w) "subtitle") ->
  plain (field (formBody w) "content") ->
  updateCasts lib w.
Proof.
  intros Pt Ps Pc. unfold updateCasts, castUpdate.
  destruct (castAssign lib (field (formBody w) "title")) eqn:Et;
    [|now apply castAssign_plain in Et].
  destruct (castAssign lib (field (formBody w) "subtitle")) eqn:Es;
    [|now apply castAssign_plain in Es].
  destruct (castAssign lib (field (formBody w) "content")) eqn:Ec;
    [|now apply castAssign_plain in Ec].
  discriminate.
Qed.

Lemma castUpdate_Some lib title subtitle content t s c :
  castUpdate lib title subtitle content = Some (t, s, c) ->
  castAssign lib title = Some t /\ castAssign lib subtitle = Some s
  /\ castAssign lib content = Some c.
Proof.
  unfold castUpdate.
  destruct (castAssign lib title); [|discriminate].
  destruct (castAssign lib subtitle); [|discriminate].
  destruct (castAssign lib content); [|discriminate].
  intros E. inversion E. auto.
Qed.

Section Posts.

Variable lib : Library.

(** X10.  Create changes the database only when it answers 201, and then
    by appending one post: the one in the answer, with the title, subtitle
    and content of the request as they cast to strings (a string is stored
    as it is), the title and the content not empty, the clock as both of its
    times, the caller's identifier as its owner, and as image reference the
    empty string, or the URL the storage provider answered when the request
    carried an image. *)
Theorem create_outcomes env w d :
  (status (response (serve lib POST_posts env w d)) <> 201 ->
   store (serve lib POST_posts env w d) = d)
  /\ (status (response (serve lib POST_posts env w d)) = 201 ->
      exists b p title content,
        authenticatedAs lib env w b
        /\ store (serve lib POST_posts env w d)
           = mkStore (users d) (posts d ++ [p])
        /\ response (serve lib POST_posts env w d)
           = mkResponse 201
               (Post p (populate (store (serve lib POST_posts env w d)) p))
        /\ BlogPost._id p = new_ObjectId env
        /\ BlogPost.title p = Some title /\ title <> ""
        /\ BlogPost.content p = Some content /\ content <> ""
        /\ documentPath lib (field (formBody w) "title")
           = Casted (BlogPost.title p)
        /\ documentPath lib (field (formBody w) "content")
           = Casted (BlogPost.content p)
        /\ documentPath lib (field (formBody w) "subtitle")
           = Casted (BlogPost.subtitle p)
        /\ (forall k s,
              field (formBody w) k = Some (VString s) ->
              (k = "title" -> BlogPost.title p = Some s)
              /\ (k = "content" -> BlogPost.content p = Some s)
              /\ (k = "subtitle" -> BlogPost.subtitle p = Some s))
        /\ castAuthor lib (Jwt.id b) = Some (BlogPost.author p)
        /\ BlogPost.createdAt p = Date_now env
        /\ BlogPost.updatedAt p = Date_now env
        /\ (multipart_image w = None -> BlogPost.imageUrl p = Some "")
        /\ (forall f, multipart_image w = Some f ->
             exists secure_url,
               upload_stream env (uploadOptions env) (buffer f) = inr secure_url
               /\ BlogPost.imageUrl p = Some secure_url)).
Proof.
  destruct (serve_POST_posts lib env w d)
    as [res Ha [Hs|Hs]|b Ha Hm Hu|b o Ha Hu Ho]; cbn [response status store];
    try (rewrite Hs); try (split; [reflexivity|discriminate]).
  destruct Ho as [Hn|er tr Hn Hi|img tr Hn Hi
                 |img tr t sub c a Hn Hi Ht Nt Hsub Hc Nc Hcast Hnew new d'];
    cbn [response status store]; try (split; [reflexivity|discriminate]).
  split; [intros H; now destruct H|]. intros _.
  exists b, new, t, c. subst d' new. cbn.
  destruct (ImageStep_image _ _ _ _ _ Hi) as [Hnone Hsome].
  repeat (split; [solve [auto]|]).
  split.
  { intros k s Hk. repeat split; intros ->; rewrite Hk in *; cbn in *; congruence. }
  repeat (split; [solve [auto]|]).
  split.
  - intros Hf. now destruct (Hnone Hf) as [-> _].
  - intros f Hf. destruct (Hsome f Hf) as (url & Hup & Himg & _).
    exists url. split; [exact Hup|]. congruence.
Qed.

(** X11.  A post that create answered with can be fetched: a get of its
    identifier, on the database the create left, answers 200 with the same
    post and the same populated author. *)
Theorem created_post_can_be_fetched env env' w w' d p a :
  response (serve lib POST_posts env w d) = mkResponse 201 (Post p a) ->
  params_id w' = toString (BlogPost._id p) ->
  castObjectId (toString (BlogPost._id p)) = Some (BlogPost._id p) ->
  response (serve lib GET_post env' w' (store (serve lib POST_posts env w d)))
  = mkResponse 200 (Post p a).
Proof.
  intros Hres Hid Hcast.
  destruct (serve_POST_posts lib env w d)
    as [res Ha Hs|b Ha Hm Hu|b o Ha Hu Ho]; cbn [response store] in *.
  - apply authenticateToken_reject in Ha as [-> | ->]; discriminate.
  - discriminate.
  - destruct Ho as [Hn|er tr Hn Hi|img tr Hn Hi
                   |img tr t sub c au Hn Hi Ht Nt Hsub Hc Nc Hcst Hnew new d'];
      cbn [response store] in *; try discriminate.
    inversion Hres; subst p a.
    destruct (serve_GET_post lib env' w' d') as [Hc'|oid Hc' Hp|oid post Hc' Hp];
      rewrite Hid in Hc'; cbn [BlogPost._id new] in *;
      rewrite Hcast in Hc'; try discriminate; inversion Hc'; subst oid;
      subst d'; cbn [posts] in Hp;
      rewrite (findPost_snoc _ _ new Hnew eq_refl) in Hp; try discriminate.
    inversion Hp; subst post. reflexivity.
Qed.



(** X13.  An update answered 200 was sent by the owner of the post it
    names.  The answer carries the post as it is stored after the update:
    each of title, subtitle and content is the value sent, as it casts (a
    string is stored as it is), or the old value when none was sent; the
    image reference is the old one, or the URL the storage provider answered
    when an image was sent; the time of modification is the clock.  No other
    post changes, and none is added or removed. *)
Theorem update_outcomes env w d :
  status (response (serve lib PUT_post env w d)) = 200 ->
  exists b oid old new,
    authenticatedAs lib env w b
    /\ castObjectId (params_id w) = Some oid
    /\ findPost oid (posts d) = Some old
    /\ identifies b (BlogPost.author old)
    /\ response (serve lib PUT_post env w d)
       = mkResponse 200
           (Post new (populate (store (serve lib PUT_post env w d)) new))
    /\ findPost oid (posts (store (serve lib PUT_post env w d))) = Some new
    /\ setTo lib (field (formBody w) "title")
             (BlogPost.title old) (BlogPost.title new)
    /\ setTo lib (field (formBody w) "subtitle")
             (BlogPost.subtitle old) (BlogPost.subtitle new)
    /\ setTo lib (field (formBody w) "content")
             (BlogPost.content old) (BlogPost.content new)
    /\ (forall k s,
          field (formBody w) k = Some (VString s) ->
          (k = "title" -> BlogPost.title new = Some s)
          /\ (k = "subtitle" -> BlogPost.subtitle new = Some s)
          /\ (k = "content" -> BlogPost.content new = Some s))
    /\ (multipart_image w = None ->
        BlogPost.imageUrl new = BlogPost.imageUrl old)
    /\ (forall f, multipart_image w = Some f ->
         exists secure_url,
           upload_stream env (uploadOptions env) (buffer f) = inr secure_url
           /\ BlogPost.imageUrl new = Some secure_url)
    /\ BlogPost.updatedAt new = Date_now env
    /\ (forall oid', oid' <> oid ->
         findPost oid' (posts (store (serve lib PUT_post env w d)))
         = findPost oid' (posts d))
    /\ length (posts (store (serve lib PUT_post env w d))) = length (posts d)
    /\ users (store (serve lib PUT_post env w d)) = users d.
Proof.
  destruct (serve_PUT_post lib env w d)
    as [res Ha [Hs|Hs]|b Ha Hm Hu|b o Ha Hu Ho]; cbn [response status store];
    try (rewrite Hs); try discriminate.
  destruct Ho as [Hn|Hn Hc|oid Hn Hc Hp|oid post Hn Hc Hp Hf
                 |oid post er tr Hn Hc Hp Ho Hi
                 |oid post img tr Hn Hc Hp Ho Hi Hu'
                 |oid post img tr t s c Hn Hc Hp Ho Hi Hu' posts' d'];
    cbn [response status store]; try discriminate.
  intros _.
  assert (Hnew : findPost oid posts'
                 = Some (applyUpdate (Date_now env) t s c img post)).
  { subst posts'. rewrite findPost_updateFirst by apply applyUpdate_id.
    now rewrite ObjectId_eqb_refl, Hp. }
  destruct (ImageStep_image _ _ _ _ _ Hi) as [Hnone Hsome].
  destruct (castUpdate_Some _ _ _ _ _ _ _ Hu') as (Et & Es & Ec).
  pose proof (castAssign_setTo lib _ _ (BlogPost.title post) Et) as St.
  pose proof (castAssign_setTo lib _ _ (BlogPost.subtitle post) Es) as Ss.
  pose proof (castAssign_setTo lib _ _ (BlogPost.content post) Ec) as Sc.
  exists b, oid, post. eexists.
  split; [exact Ha|]. split; [exact Hc|]. split; [exact Hp|].
  split; [exact Ho|]. rewrite Hnew. subst d'. cbn [posts users].
  split; [reflexivity|]. split; [exact Hnew|].
  cbn [applyUpdate BlogPost.title BlogPost.subtitle BlogPost.content
       BlogPost.imageUrl BlogPost.updatedAt].
  split; [exact St|]. split; [exact Ss|]. split; [exact Sc|].
  split.
  { intros k x Hk. repeat split; intros ->; rewrite Hk in *;
      first [exact (proj1 (setTo_string _ _ _ _) St)
            |exact (proj1 (setTo_string _ _ _ _) Ss)
            |exact (proj1 (setTo_string _ _ _ _) Sc)]. }
  split.
  { intros Hf. destruct (Hnone Hf) as [-> _]. cbn.
    now destruct (BlogPost.imageUrl post). }
  split.
  { intros f Hf. destruct (Hsome f Hf) as (url & Hup & -> & _).
    exists url. split; [exact Hup|reflexivity]. }
  split; [reflexivity|]. split.
  { intros oid' Hne. subst posts'.
    rewrite findPost_updateFirst by apply applyUpdate_id.
    apply ObjectId_eqb_neq in Hne. now rewrite Hne. }
  split; [|reflexivity]. subst posts'. apply updateFirst_length.
Qed.


(** X15.  A delete answered 200 was sent by the owner of the post it
    names.  When stored posts have distinct identifiers, the post is gone
    afterwards, so that a get of the same identifier answers 404; every
    other post is as before, the users are as before, and nothing is asked
    of the storage provider, whatever image the post referred to. *)
Theorem delete_outcomes env env' w d :
  uniquePosts d ->
  status (response (serve lib DELETE_post env w d)) = 200 ->
  exists b oid x,
    authenticatedAs lib env w b
    /\ castObjectId (params_id w) = Some oid
    /\ findPost oid (posts d) = Some x
    /\ identifies b (BlogPost.author x)
    /\ findPost oid (posts (store (serve lib DELETE_post env w d))) = None
    /\ (forall oid', oid' <> oid ->
         findPost oid' (posts (store (serve lib DELETE_post env w d)))
         = findPost oid' (posts d))
    /\ S (length (posts (store (serve lib DELETE_post env w d))))
       = length (posts d)
    /\ users (store (serve lib DELETE_post env w d)) = users d
    /\ calls (serve lib DELETE_post env w d) = []
    /\ status (response (serve lib GET_post env' w
                           (store (serve lib DELETE_post env w d)))) = 404.
Proof.
  intros Huniq.
  destruct (serve_DELETE_post lib env w d)
    as [res Ha [Hs|Hs]|b Ha Hm Hu|b o Ha Hu Ho]; cbn [response status store calls];
    try (rewrite Hs); try discriminate.
  destruct Ho as [Hc|oid Hc Hp|oid post Hc Hp Hn|oid post Hc Hp Ho];
    cbn [response status store calls]; try discriminate.
  intros _. exists b, oid, post. cbn [posts users].
  pose proof (deleteFirst_gone oid (posts d) Huniq) as Hgone.
  repeat (split; [solve [auto using deleteFirst_other]|]).
  split; [now apply deleteFirst_length with post|].
  split; [reflexivity|]. split; [reflexivity|].
  destruct (serve_GET_post lib env' w
              (mkStore (users d) (deleteFirst oid (posts d))))
    as [Hc'|oid' Hc' Hp'|oid' post' Hc' Hp']; cbn [response status posts] in *;
    congruence.
Qed.

(** X16.  No request ever gives two posts the same identifier: if the
    stored posts have distinct identifiers before a request, they have
    after it. *)
Theorem post_ids_stay_unique (r : Route) env w d :
  uniquePosts d -> uniquePosts (store (serve lib r env w d)).
Proof.
  unfold uniquePosts. intros Hu. destruct r.
  - destruct (signup_SignedUp lib env w d); cbn [store posts]; auto.
  - destruct (login_LoggedIn lib env w d); cbn [store posts]; auto.
  - destruct (serve_GET_post lib env w d); cbn [store posts]; auto.
  - destruct (serve_POST_posts lib env w d) as [res Ha Hs|b Ha Hm Hu'|b o Ha Hu' Ho];
      cbn [store posts]; auto.
    destruct Ho as [Hn|er tr Hn Hi|img tr Hn Hi
                   |img tr t sub c a Hn Hi Ht Nt Hsub Hc Nc Hcast Hnew new d'];
      cbn [store posts]; auto.
    subst d'. cbn [posts]. rewrite map_app. apply NoDup_snoc; [exact Hu|].
    now apply findPost_none_notin.
  - destruct (serve_PUT_post lib env w d) as [res Ha Hs|b Ha Hm Hu'|b o Ha Hu' Ho];
      cbn [store posts]; auto.
    destruct Ho as [Hn|Hn Hc|oid Hn Hc Hp|oid post Hn Hc Hp Hf
                   |oid post er tr Hn Hc Hp Ho Hi
                   |oid post img tr Hn Hc Hp Ho Hi Hu''
                   |oid post img tr t s c Hn Hc Hp Ho Hi Hu'' posts' d'];
      cbn [store posts]; auto.
    subst d' posts'. cbn [posts].
    now rewrite updateFirst_ids by apply applyUpdate_id.
  - destruct (serve_DELETE_post lib env w d) as [res Ha Hs|b Ha Hm Hu'|b o Ha Hu' Ho];
      cbn [store posts]; auto.
    destruct Ho; cbn [store posts]; auto. now apply deleteFirst_NoDup.
Qed.

End Posts.
(** ** The list of posts *)

Lemma insertNewestFirst_perm p l : Permutation (insertNewestFirst p l) (p :: l).
Proof.
  induction l as [|q r IH]; cbn; [reflexivity|].
  destruct (BlogPost.createdAt p <? BlogPost.createdAt q); [|reflexivity].
  rewrite IH. apply perm_swap.
Qed.

Lemma sortNewestFirst_perm l : Permutation (sortNewestFirst l) l.
Proof.
  induction l as [|p r IH]; cbn; [reflexivity|].
  rewrite insertNewestFirst_perm. now constructor.
Qed.

Lemma insertNewestFirst_sorted p l :
  Sorted (fun a b => BlogPost.createdAt b <= BlogPost.createdAt a) l ->
  Sorted (fun a b => BlogPost.createdAt b <= BlogPost.createdAt a)
         (insertNewestFirst p l).
Proof.
  induction l as [|q r IH]; cbn; intros Hs; [repeat constructor|].
  destruct (Z.ltb_spec (BlogPost.createdAt p) (BlogPost.createdAt q)).
  - inversion Hs as [|? ? Hr Hh]; subst. constructor; [auto|].
    destruct r as [|q' r]; cbn.
    + constructor. lia.
    + destruct (Z.ltb_spec (BlogPost.createdAt p) (BlogPost.createdAt q'));
        constructor; [|lia]. now inversion Hh.
  - constructor; [exact Hs|]. constructor. lia.
Qed.

Lemma sortNewestFirst_sorted l :
  StronglySorted (fun a b => BlogPost.createdAt b <= BlogPost.createdAt a)
                 (sortNewestFirst l).
Proof.
  apply Sorted_StronglySorted; [intros a b c; lia|].
  induction l as [|p r IH]; cbn; [constructor|].
  now apply insertNewestFirst_sorted.
Qed.

Lemma sortNewestFirst_snoc l p :
  Forall (fun q => BlogPost.createdAt q < BlogPost.createdAt p) l ->
  sortNewestFirst (l ++ [p]) = p :: sortNewestFirst l.
Proof.
  induction l as [|a l IH]; cbn; [reflexivity|]. intros H.
  inversion H as [|? ? Ha Hl]; subst. rewrite (IH Hl). cbn.
  apply Z.ltb_lt in Ha. now rewrite Ha.
Qed.

Lemma serveRead_GET_posts lib env w d :
  serveRead lib GET_posts env w d
  = mkReadOutcome
      (PostList (map (fun p => (p, populate d p)) (sortNewestFirst (posts d))))
      d [].
Proof. reflexivity. Qed.

Section Listing.

Variable lib : Library.

(** X17.  The list route answers every stored post exactly once, newest
    first by time of creation, each with its author populated, and changes
    nothing. *)
Theorem list_is_sorted env w d :
  exists l,
    serveRead lib GET_posts env w d = mkReadOutcome (PostList l) d []
    /\ Permutation (map fst l) (posts d)
    /\ StronglySorted
         (fun a b => BlogPost.createdAt b <= BlogPost.createdAt a) (map fst l)
    /\ Forall (fun e => snd e = populate d (fst e)) l.
Proof.
  exists (map (fun p => (p, populate d p)) (sortNewestFirst (posts d))).
  split; [apply serveRead_GET_posts|].
  rewrite map_map. cbn [fst]. rewrite map_id.
  split; [apply sortNewestFirst_perm|]. split; [apply sortNewestFirst_sorted|].
  apply Forall_forall. intros e He. apply in_map_iff in He as (p & <- & _).
  reflexivity.
Qed.

(** X18.  A post created at a clock later than the time of creation of
    every stored post comes first in the list that follows, as the create
    answered it. *)
Theorem new_post_is_listed_first env env' w w' d p a :
  response (serve lib POST_posts env w d) = mkResponse 201 (Post p a) ->
  Forall (fun q => BlogPost.createdAt q < Date_now env) (posts d) ->
  exists rest,
    reply (serveRead lib GET_posts env' w'
             (store (serve lib POST_posts env w d)))
    = PostList ((p, a) :: rest)
    /\ Permutation (map fst rest) (posts d).
Proof.
  intros Hres Hold.
  destruct (serve_POST_posts lib env w d)
    as [res Ha Hs|b Ha Hm Hu|b o Ha Hu Ho]; cbn [response store] in *.
  - apply authenticateToken_reject in Ha as [-> | ->]; discriminate.
  - discriminate.
  - destruct Ho as [Hn|er tr Hn Hi|img tr Hn Hi
                   |img tr t sub c au Hn Hi Ht Nt Hsub Hc Nc Hcst Hnew new d'];
      cbn [response store] in *; try discriminate.
    inversion Hres; subst p a. rewrite serveRead_GET_posts. cbn [reply].
    subst d'. cbn [posts]. rewrite sortNewestFirst_snoc by exact Hold.
    cbn [map]. eexists. split; [reflexivity|].
    rewrite map_map. cbn [fst]. rewrite map_id. apply sortNewestFirst_perm.
Qed.

End Listing.

(** ** Verifying a token, and what composes with it *)

Lemma User_findById_snoc oid d u :
  User_findById oid d = None -> User._id u = oid ->
  find (fun x => ObjectId_eqb (User._id x) oid) (users d ++ [u]) = Some u.
Proof.
  intros Hn Hu. apply find_snoc; [exact Hn|]. now apply ObjectId_eqb_eq.
Qed.

(** An identifier the unique index lets in is that of no stored user. *)
Lemma indexesAllow_fresh d oid u e :
  indexesAllow d oid u e -> User_findById oid d = None.
Proof.
  intros H. unfold User_findById. apply find_none_iff. intros x Hin.
  apply ObjectId_eqb_neq. now destruct (H x Hin).
Qed.

(** The lookup by [_id] for an identifier that is a string. *)
Lemma byId_string lib s :
  byId lib (Some (VString s))
  = match castObjectId s with
    | Some oid => Some (fun x => ObjectId_eqb x oid)
    | None => None
    end.
Proof. reflexivity. Qed.

Section Verifying.

Variable lib : Library.

Lemma serveRead_verify env w d b :
  authenticatedAs lib env w b ->
  serveRead lib GET_verify env w d
  = mkReadOutcome
      (match byId lib (Jwt.id b) with
       | None =>
           Answered
             (mkResponse 500 (Message "Server error during token verification"))
       | Some f =>
           match find (fun u => f (User._id u)) (users d) with
           | None => Answered (mkResponse 404 (Message "User not found"))
           | Some u => VerifiedUser (userView u)
           end
       end) d [].
Proof.
  intros Hb. unfold serveRead, dispatchRead. unfold authenticatedAs in Hb.
  rewrite Hb. unfold verifyUser, req_user_id, User_findById_value.
  cbn [user]. async.
  destruct (byId lib (Jwt.id b)) as [f|]; [|reflexivity].
  cbn [db trace]. now destruct (find _ (users d)).
Qed.

(** X19.  The verify route changes nothing.  For a request that passes
    authentication with an identifier that is a string, it answers 200 with
    the identifier, username and email of the stored user who has that
    identifier, 404 when no stored user has it, and 500 when the string is
    not an ObjectId; for any identifier, it answers 200 with the first
    stored user its lookup selects, 404 when it selects none, and 500 when
    the lookup throws.  A request that does not pass is answered by the
    middleware, 401 or 403. *)
Theorem verify_outcomes env w d :
  store_after (serveRead lib GET_verify env w d) = d
  /\ calls_after (serveRead lib GET_verify env w d) = []
  /\ (~ passesAuthentication lib env w ->
      replyStatus (reply (serveRead lib GET_verify env w d)) = 401
      \/ replyStatus (reply (serveRead lib GET_verify env w d)) = 403)
  /\ (forall b,
        authenticatedAs lib env w b ->
        (forall s,
            Jwt.id b = Some (VString s) ->
            (castObjectId s = None ->
             replyStatus (reply (serveRead lib GET_verify env w d)) = 500)
            /\ (forall oid,
                  castObjectId s = Some oid ->
                  User_findById oid d = None ->
                  reply (serveRead lib GET_verify env w d)
                  = Answered (mkResponse 404 (Message "User not found")))
            /\ (forall oid u,
                  castObjectId s = Some oid ->
                  User_findById oid d = Some u ->
                  reply (serveRead lib GET_verify env w d)
                  = VerifiedUser (mkUserView (User._id u) (User.username u)
                                             (User.email u))))
        /\ (byId lib (Jwt.id b) = None ->
            replyStatus (reply (serveRead lib GET_verify env w d)) = 500)
        /\ (forall f,
              byId lib (Jwt.id b) = Some f ->
              find (fun u => f (User._id u)) (users d) = None ->
              reply (serveRead lib GET_verify env w d)
              = Answered (mkResponse 404 (Message "User not found")))
        /\ (forall f u,
              byId lib (Jwt.id b) = Some f ->
              find (fun u => f (User._id u)) (users d) = Some u ->
              reply (serveRead lib GET_verify env w d)
              = VerifiedUser (mkUserView (User._id u) (User.username u)
                                         (User.email u)))).
Proof.
  destruct (authenticateToken lib env (incoming w)) as [res|req'] eqn:Ha.
  - assert (Hs : serveRead lib GET_verify env w d
                 = mkReadOutcome (Answered res) d []).
    { unfold serveRead, dispatchRead. now rewrite Ha. }
    rewrite Hs. cbn.
    split; [reflexivity|]. split; [reflexivity|]. split.
    + intros _. apply authenticateToken_reject in Ha as [-> | ->]; auto.
    + intros b Hb. destruct (authenticatedAs_not_rejected lib env w b res Hb Ha).
  - destruct (authenticateToken_incoming lib env w req' Ha) as [b ->].
    rewrite (serveRead_verify env w d b Ha). cbn [reply store_after calls_after].
    split; [reflexivity|]. split; [reflexivity|]. split.
    + intros Hn. destruct Hn. now exists b.
    + intros b' Hb'. rewrite <- (authenticatedAs_inj lib env w b b' Ha Hb').
      split; [|split; [|split]].
      * intros s ->. rewrite byId_string. unfold User_findById.
        split; [intros ->; reflexivity|]. split.
        -- intros oid -> ->. reflexivity.
        -- intros oid u -> ->. reflexivity.
      * intros ->. reflexivity.
      * intros f -> ->. reflexivity.
      * intros f u -> ->. reflexivity.
Qed.

(** X20.  The token a signup answers with proves the new identity: sent
    back within 24 hours as [Bearer <token>] to a server with the same
    secret, it makes the verify route answer 200 with the user the signup
    created. *)
Theorem signup_token_verifies env1 env2 w1 w2 d message token u :
  response (serve lib POST_signup env1 w1 d)
  = mkResponse 201 (Auth message token u) ->
  authorization w2 = Some ("Bearer " ++ token) ->
  noSpace token = true ->
  token <> "" ->
  jwt_decode lib token
  = Some (issued lib (toString (view_id u)) (view_username u)
                 (signingSecret env1) (Date_now env1)) ->
  JWT_SECRET env2 = JWT_SECRET env1 ->
  Date_now env2 / 1000 < Date_now env1 / 1000 + 24 * 60 * 60 ->
  castObjectId (toString (view_id u)) = Some (view_id u) ->
  serveRead lib GET_verify env2 w2 (store (serve lib POST_signup env1 w1 d))
  = mkReadOutcome (VerifiedUser u)
      (store (serve lib POST_signup env1 w1 d)) [].
Proof.
  intros Hres Hh Hn Hne Hdec Hsec Hnow Hcast.
  destruct (signup_SignedUp lib env1 w1 d)
    as [f x Hf Hx|Hx|f un em pw Hf Hx Hun Nun Hem Nem Hpw Hidx nu];
    cbn [response store] in *; try discriminate.
  pose proof (indexesAllow_fresh _ _ _ _ Hidx) as Hfresh.
  inversion Hres; subst message token u. cbn [view_id view_username userView] in *.
  assert (Hb : authenticatedAs lib env2 w2
                 (Jwt.mkPayload (toString (User._id nu)) (User.username nu)
                    (Date_now env1 / 1000) (Date_now env1 / 1000 + 24 * 60 * 60))).
  { unfold authenticatedAs.
    rewrite (authenticateToken_bearer lib env2 w2 _ Hh Hn Hne).
    rewrite (jwt_verify_issued lib env2 env1 _ _ Hdec Hsec).
    apply Z.leb_gt in Hnow. now rewrite Hnow. }
  rewrite (serveRead_verify env2 w2 _ _ Hb).
  change (Jwt.id (Jwt.mkPayload (toString (User._id nu)) (User.username nu)
                    (Date_now env1 / 1000)
                    (Date_now env1 / 1000 + 24 * 60 * 60)))
    with (Some (VString (toString (User._id nu)))).
  rewrite byId_string, Hcast. cbn [users].
  rewrite (User_findById_snoc (User._id nu) d nu Hfresh eq_refl). reflexivity.
Qed.


(** X22.  The whole life of a post: after a create answered 201, a delete
    of the new post by the same caller, whose claims carry the identifier of
    the owner in its canonical form, is answered 200 and leaves the database
    as it was before the create, and a get of the post then answers 404,
    when the identifiers of the stored posts were distinct to begin with. *)
Theorem created_post_can_be_deleted env env' env'' w w' d b p a :
  uniquePosts d ->
  response (serve lib POST_posts env w d) = mkResponse 201 (Post p a) ->
  authenticatedAs lib env w b ->
  authenticatedAs lib env' w' b ->
  identifies b (BlogPost.author p) ->
  params_id w' = toString (BlogPost._id p) ->
  castObjectId (toString (BlogPost._id p)) = Some (BlogPost._id p) ->
  status (response (serve lib DELETE_post env' w'
                      (store (serve lib POST_posts env w d)))) = 200
  /\ store (serve lib DELETE_post env' w' (store (serve lib POST_posts env w d)))
     = d
  /\ status (response
               (serve lib GET_post env'' w'
                  (store (serve lib DELETE_post env' w'
                            (store (serve lib POST_posts env w d)))))) = 404.
Proof.
  intros Huniq Hres Hb Hb' Hown Hid Hcast.
  destruct (serve_POST_posts lib env w d)
    as [res Ha Hs|b0 Ha Hm Hu|b0 o Ha Hu Ho]; cbn [response store] in *.
  - apply authenticateToken_reject in Ha as [-> | ->]; discriminate.
  - discriminate.
  - destruct Ho as [Hn|er tr Hn Hi|img tr Hn Hi
                   |img tr t sub c au Hn Hi Ht Nt Hsub Hc Nc Hcst Hnew new d'];
      cbn [response store] in *; try discriminate.
    inversion Hres; subst p a.
    assert (Hfind : findPost (new_ObjectId env) (posts d') = Some new)
      by (subst d'; cbn [posts]; now apply findPost_snoc).
    assert (Hdel : deleteFirst (new_ObjectId env) (posts d ++ [new]) = posts d).
    { clear - Hnew. unfold findPost in Hnew. subst new.
      induction (posts d) as [|q l IH]; cbn in *.
      - now rewrite ObjectId_eqb_refl.
      - destruct (ObjectId_eqb (BlogPost._id q) (new_ObjectId env));
          [discriminate|]. now rewrite IH. }
    destruct (serve_DELETE_post lib env' w' d')
      as [res Ha' Hs|b1 Ha' Hm Hu'|b1 o Ha' Hu' Ho].
    + destruct (authenticatedAs_not_rejected lib env' w' b res Hb' Ha').
    + discriminate.
    + rewrite <- (authenticatedAs_inj lib env' w' b b1 Hb' Ha') in Ho.
      cbn [BlogPost._id new] in Hid, Hcast.
      destruct Ho as [Hc'|oid Hc' Hp|oid post Hc' Hp Hn'|oid post Hc' Hp Ho];
        rewrite Hid, Hcast in Hc'; try discriminate;
        inversion Hc'; subst oid; rewrite Hfind in Hp; try discriminate;
        inversion Hp; subst post; try contradiction.
      cbn [response status store]. subst d'. cbn [posts users]. rewrite Hdel.
      split; [reflexivity|]. split; [now destruct d|].
      destruct (serve_GET_post lib env'' w' (mkStore (users d) (posts d)))
        as [Hc''|oid Hc'' Hp'|oid post Hc'' Hp']; cbn [response status posts] in *;
        rewrite Hid, Hcast in Hc''; try discriminate; try reflexivity.
      inversion Hc''; subst oid. congruence.
Qed.

(** X23.  The routes that read never write: a get of one post, the list,
    the verify route and logout leave the database as it was and make no
    call to the storage provider, whatever the request. *)
Theorem reads_change_nothing env w d :
  store (serve lib GET_post env w d) = d
  /\ calls (serve lib GET_post env w d) = []
  /\ forall r,
       store_after (serveRead lib r env w d) = d
       /\ calls_after (serveRead lib r env w d) = [].
Proof.
  split; [|split].
  - now destruct (serve_GET_post lib env w d).
  - now destruct (serve_GET_post lib env w d).
  - intros [| |]; [|split; reflexivity|split; reflexivity].
    destruct (authenticateToken lib env (incoming w)) as [res|req'] eqn:Ha.
    + unfold serveRead, dispatchRead. rewrite Ha. split; reflexivity.
    + destruct (authenticateToken_incoming lib env w req' Ha) as [b ->].
      rewrite (serveRead_verify env w d b Ha). split; reflexivity.
Qed.

End Verifying.

(** ** The further properties at concrete requests *)

(** X1 at the header [Bearer abc]. *)
Lemma token_extraction_witness :
  getTokenFromHeader (incoming (withBearer "abc" "" [] None)) = Some "abc".
Proof.
  apply (token_extraction (withBearer "abc" "" [] None) "Bearer abc" "abc").
  - reflexivity.
  - exists "Bearer". repeat split.
Defined.

(** X2 at Alice's token, a thousand seconds after it was issued. *)
Lemma issued_token_passes_until_expiry_witness :
  authenticateToken Demo.lib Demo.env
    (incoming (withBearer
                 (jwt_sign Demo.lib "65a000000000000000000001" "alice"
                    (signingSecret Demo.env) 1699999000000) "" [] None))
  = inr (mkRequest
           (withBearer
              (jwt_sign Demo.lib "65a000000000000000000001" "alice"
                 (signingSecret Demo.env) 1699999000000) "" [] None)
           None
           (Some (Jwt.mkPayload "65a000000000000000000001" "alice"
                    1699999000 1700085400))
           None).
Proof.
  apply (issued_token_passes_until_expiry Demo.lib Demo.env
           (mkEnv None 1699999000000 0 "" Demo.fresh_id (fun _ _ => inl ""))
           (withBearer
              (jwt_sign Demo.lib "65a000000000000000000001" "alice"
                 (signingSecret Demo.env) 1699999000000) "" [] None)
           "65a000000000000000000001" "alice").
  - reflexivity.
  - vm_compute. reflexivity.
  - vm_compute. discriminate.
  - vm_compute. reflexivity.
  - reflexivity.
Defined.

(** X3 at Alice's update with a 2 MB image. *)
Lemma one_upload_per_write_witness :
  calls (serve Demo.lib PUT_post Demo.env
           (Demo.update_by Demo.alice [] (Some (Demo.png 2000000))) Demo.d0)
  = [CloudinaryUpload (uploadOptions Demo.env) (mkBuffer 2000000 0)
       (inr Demo.url)].
Proof.
  apply (one_upload_per_write Demo.lib PUT_post Demo.env
           (Demo.update_by Demo.alice [] (Some (Demo.png 2000000))) Demo.d0).
  vm_compute. left. reflexivity.
Defined.


(** X5 at a delete with no token. *)
Lemma no_write_without_token_witness :
  store (serve Demo.lib DELETE_post Demo.env Demo.anonymous_delete Demo.d0)
  = Demo.d0
  /\ calls (serve Demo.lib DELETE_post Demo.env Demo.anonymous_delete Demo.d0)
     = []
  /\ (status (response (serve Demo.lib DELETE_post Demo.env
                          Demo.anonymous_delete Demo.d0)) = 401
      \/ status (response (serve Demo.lib DELETE_post Demo.env
                             Demo.anonymous_delete Demo.d0)) = 403).
Proof.
  apply (no_write_without_token Demo.lib DELETE_post Demo.env
           Demo.anonymous_delete Demo.d0).
  - right. right. reflexivity.
  - intros [b Hb]. vm_compute in Hb. discriminate.
Defined.

(** The stored users and posts of the example are distinct. *)
Lemma Demo_uniqueIdentities : uniqueIdentities Demo.d0.
Proof.
  split; cbn; repeat constructor; cbn; intuition discriminate.
Defined.

Lemma Demo_uniquePosts : uniquePosts Demo.d0.
Proof. unfold uniquePosts. cbn. repeat constructor. cbn. tauto. Defined.

(** X6 at Carol's signup. *)
Lemma identities_stay_unique_witness :
  uniqueIdentities
    (store (serve Demo.lib POST_signup Demo.env Demo.signup_carol Demo.d0)).
Proof.
  apply (identities_stay_unique Demo.lib POST_signup Demo.env
           Demo.signup_carol Demo.d0).
  exact Demo_uniqueIdentities.
Defined.

(** X9 at a login with Alice's email and no password. *)
Lemma login_without_password_witness :
  status (response (serve Demo.lib POST_login Demo.env
                      (mkWire [] "" (Some (Demo.strings [("email", "a@x.com")]))
                         None) Demo.d0))
  = 500.
Proof.
  rewrite (login_without_password Demo.lib Demo.env
             (mkWire [] "" (Some (Demo.strings [("email", "a@x.com")])) None)
             Demo.d0).
  - reflexivity.
  - intros password H. vm_compute in H. discriminate H.
Defined.

(** X11 at Alice's create, then a get of the new post. *)
Lemma created_post_can_be_fetched_witness :
  response
    (serve Demo.lib GET_post Demo.env
       (mkWire [] (toString Demo.fresh_id) None None)
       (store (serve Demo.lib POST_posts Demo.env
                 (Demo.create_by Demo.alice [("title", "t"); ("content", "c")]
                    None) Demo.d0)))
  = mkResponse 200
      (Post (BlogPost.mk Demo.fresh_id (Some "t") None (Some "c") (Some "")
                         Demo.alice_id 1700000000000 1700000000000)
            (Some (Demo.alice_id, "alice"))).
Proof.
  apply (created_post_can_be_fetched Demo.lib Demo.env Demo.env
           (Demo.create_by Demo.alice [("title", "t"); ("content", "c")] None)
           (mkWire [] (toString Demo.fresh_id) None None) Demo.d0).
  - vm_compute. reflexivity.
  - reflexivity.
  - reflexivity.
Defined.


(** X13 at Alice's update of the title. *)
Lemma update_outcomes_witness :
  exists new,
    findPost Demo.post_id
      (posts (store (serve Demo.lib PUT_post Demo.env
                       (Demo.update_by Demo.alice [("title", "New")] None)
                       Demo.d0))) = Some new
    /\ BlogPost.title new = Some "New"
    /\ BlogPost.content new = Some "Hello".
Proof.
  destruct (update_outcomes Demo.lib Demo.env
              (Demo.update_by Demo.alice [("title", "New")] None) Demo.d0)
    as (b & oid & old & new & _ & Hc & Hold & _ & _ & Hnew & _ & _ & Sc
        & Hstr & _).
  - vm_compute. reflexivity.
  - vm_compute in Hc. inversion Hc; subst oid.
    vm_compute in Hold. inversion Hold; subst old.
    exists new. split; [exact Hnew|]. split.
    + exact (proj1 (Hstr "title" "New" eq_refl) eq_refl).
    + exact Sc.
Defined.


(** X15 at Alice's delete of her post. *)
Lemma delete_outcomes_witness :
  status (response
            (serve Demo.lib GET_post Demo.env (Demo.delete_by Demo.alice)
               (store (serve Demo.lib DELETE_post Demo.env
                         (Demo.delete_by Demo.alice) Demo.d0)))) = 404.
Proof.
  destruct (delete_outcomes Demo.lib Demo.env Demo.env
              (Demo.delete_by Demo.alice) Demo.d0)
    as (b & oid & x & H).
  - exact Demo_uniquePosts.
  - vm_compute. reflexivity.
  - apply H.
Defined.

(** X16 at Alice's create. *)
Lemma post_ids_stay_unique_witness :
  uniquePosts
    (store (serve Demo.lib POST_posts Demo.env
              (Demo.create_by Demo.alice [("title", "t"); ("content", "c")] None)
              Demo.d0)).
Proof.
  apply (post_ids_stay_unique Demo.lib POST_posts Demo.env
           (Demo.create_by Demo.alice [("title", "t"); ("content", "c")] None)
           Demo.d0).
  exact Demo_uniquePosts.
Defined.

(** X18 at Alice's create, then the list. *)
Lemma new_post_is_listed_first_witness :
  exists rest,
    reply (serveRead Demo.lib GET_posts Demo.env Demo.anonymous_delete
             (store (serve Demo.lib POST_posts Demo.env
                       (Demo.create_by Demo.alice
                          [("title", "t"); ("content", "c")] None) Demo.d0)))
    = PostList
        ((BlogPost.mk Demo.fresh_id (Some "t") None (Some "c") (Some "")
                      Demo.alice_id 1700000000000 1700000000000,
          Some (Demo.alice_id, "alice")) :: rest)
    /\ Permutation (map fst rest) (posts Demo.d0).
Proof.
  apply (new_post_is_listed_first Demo.lib Demo.env Demo.env
           (Demo.create_by Demo.alice [("title", "t"); ("content", "c")] None)
           Demo.anonymous_delete Demo.d0).
  - vm_compute. reflexivity.
  - repeat constructor.
Defined.

(** X20 at Carol's signup, then verify with her token. *)
Lemma signup_token_verifies_witness :
  serveRead Demo.lib GET_verify later (withBearer carol_token "" [] None)
    (store (serve Demo.lib POST_signup Demo.env Demo.signup_carol Demo.d0))
  = mkReadOutcome (VerifiedUser carol_view)
      (store (serve Demo.lib POST_signup Demo.env Demo.signup_carol Demo.d0)) [].
Proof.
  apply (signup_token_verifies Demo.lib Demo.env later Demo.signup_carol
           (withBearer carol_token "" [] None) Demo.d0
           "User created successfully" carol_token carol_view).
  - vm_compute. reflexivity.
  - reflexivity.
  - vm_compute. reflexivity.
  - vm_compute. discriminate.
  - vm_compute. reflexivity.
  - reflexivity.
  - vm_compute. reflexivity.
  - reflexivity.
Defined.


(** X22 at Alice's create and her delete of the new post. *)
Lemma created_post_can_be_deleted_witness :
  status (response
            (serve Demo.lib DELETE_post Demo.env
               (mkWire (Demo.bearer Demo.alice) (toString Demo.fresh_id) None None)
               (store (serve Demo.lib POST_posts Demo.env
                         (Demo.create_by Demo.alice
                            [("title", "t"); ("content", "c")] None)
                         Demo.d0)))) = 200
  /\ store (serve Demo.lib DELETE_post Demo.env
              (mkWire (Demo.bearer Demo.alice) (toString Demo.fresh_id) None None)
              (store (serve Demo.lib POST_posts Demo.env
                        (Demo.create_by Demo.alice
                           [("title", "t"); ("content", "c")] None)
                        Demo.d0))) = Demo.d0
  /\ status (response
               (serve Demo.lib GET_post Demo.env
                  (mkWire (Demo.bearer Demo.alice) (toString Demo.fresh_id) None
                     None)
                  (store (serve Demo.lib DELETE_post Demo.env
                            (mkWire (Demo.bearer Demo.alice)
                               (toString Demo.fresh_id) None None)
                            (store (serve Demo.lib POST_posts Demo.env
                                      (Demo.create_by Demo.alice
                                         [("title", "t"); ("content", "c")] None)
                                      Demo.d0)))))) = 404.
Proof.
  apply (created_post_can_be_deleted Demo.lib Demo.env Demo.env Demo.env
           (Demo.create_by Demo.alice [("title", "t"); ("content", "c")] None)
           (mkWire (Demo.bearer Demo.alice) (toString Demo.fresh_id) None None)
           Demo.d0 (Demo.claims_of Demo.alice)
           (BlogPost.mk Demo.fresh_id (Some "t") None (Some "c") (Some "")
                        Demo.alice_id 1700000000000 1700000000000)
           (Some (Demo.alice_id, "alice"))).
  - exact Demo_uniquePosts.
  - vm_compute. reflexivity.
  - vm_compute. reflexivity.
  - vm_compute. reflexivity.
  - reflexivity.
  - reflexivity.
  - reflexivity.
Defined.
